(** * Block matrix: placement, growth, digests, redaction and verification

    A shallow embedding of the Go package [blockmatrix] and of the properties
    its specification states about it.  Two revisions of the main file are
    embedded.  The later one ([rowBlockNumbers] taking the block count,
    [EraseBlock] overwriting with the empty block, [IsValid]) is at top level;
    what differs in the earlier one (database-reading [RowBlockNumbers],
    [BlockNumber] by byte value) is in [Module Legacy].

    Part I is the program, Part II the properties of the specification,
    Part III further properties read off the code: the order of the
    placement, lookups after inserts, [Matrix], what reading and failing
    calls leave in the store, and the earlier revision's [AddBlock] and
    [EraseBlock]. *)

From Stdlib Require Import ZArith Lia List Strings.Byte Strings.Ascii.
From stdpp Require Import base list strings gmap pretty.
Local Open Scope Z_scope.

(** * Part I: the program *)

(** ** SHA-256 (FIPS 180-4), the digest behind [crypto/sha256]

    Words are 32-bit values held in [Z]; every addition is reduced modulo
    [2^32]. *)
Module SHA256.

Definition mask32 : Z := 0xffffffff.
Definition add32 (a b : Z) : Z := Z.land (a + b) mask32.
Definition rotr (n x : Z) : Z :=
  Z.lor (Z.shiftr x n) (Z.land (Z.shiftl x (32 - n)) mask32).
Definition Ch (x y z : Z) : Z :=
  Z.lxor (Z.land x y) (Z.land (Z.lxor x mask32) z).
Definition Maj (x y z : Z) : Z :=
  Z.lxor (Z.lxor (Z.land x y) (Z.land x z)) (Z.land y z).
Definition Sigma0 (x : Z) : Z := Z.lxor (Z.lxor (rotr 2 x) (rotr 13 x)) (rotr 22 x).
Definition Sigma1 (x : Z) : Z := Z.lxor (Z.lxor (rotr 6 x) (rotr 11 x)) (rotr 25 x).
Definition sigma0 (x : Z) : Z := Z.lxor (Z.lxor (rotr 7 x) (rotr 18 x)) (Z.shiftr x 3).
Definition sigma1 (x : Z) : Z := Z.lxor (Z.lxor (rotr 17 x) (rotr 19 x)) (Z.shiftr x 10).

(** The round constants are the first 32 bits of the fractional parts of
    the cube roots of the first 64 primes, the initial hash value those of
    the square roots of the first 8 primes. *)
Definition isPrime (n : Z) : bool :=
  forallb (fun d => negb (n mod d =? 0)) (seqZ 2 (n - 2)).
Definition primes : list Z := filter (fun n => Is_true (isPrime n)) (seqZ 2 310).

Definition cubeRoot (n : Z) : Z :=
  foldl (fun r k => let r' := r + 2 ^ k in
                    if r' * r' * r' <=? n then r' else r)
        0 (reverse (seqZ 0 40)).

Definition K : list Z :=
  Eval vm_compute in map (fun p => cubeRoot (p * 2 ^ 96) mod 2 ^ 32) primes.

Definition H0 : list Z :=
  Eval vm_compute in map (fun p => Z.sqrt (p * 2 ^ 64) mod 2 ^ 32) (take 8 primes).

Definition be32 (w : Z) : list Z :=
  [ Z.land (Z.shiftr w 24) 255; Z.land (Z.shiftr w 16) 255;
    Z.land (Z.shiftr w 8) 255; Z.land w 255 ].

(** Padding: the message, one [0x80] byte, zero bytes up to 56 modulo 64,
    and the bit length as a 64-bit big-endian integer. *)
Definition pad (msg : list Z) : list Z :=
  let len := Z.of_nat (length msg) in
  let zeros := (55 - len) mod 64 in
  msg ++ [0x80] ++ repeat 0 (Z.to_nat zeros)
      ++ be32 (Z.shiftr (8 * len) 32) ++ be32 (Z.land (8 * len) mask32).

Fixpoint words (bs : list Z) : list Z :=
  match bs with
  | a :: b :: c :: d :: rest =>
      (Z.shiftl a 24 + Z.shiftl b 16 + Z.shiftl c 8 + d) :: words rest
  | _ => []
  end.

Fixpoint chunks (fuel : nat) (ws : list Z) : list (list Z) :=
  match fuel, ws with
  | S fuel, _ :: _ => take 16 ws :: chunks fuel (drop 16 ws)
  | _, _ => []
  end.

(** The message schedule, extended one word at a time from 16 to 64. *)
Fixpoint schedule (steps : nat) (w : list Z) : list Z :=
  match steps with
  | O => w
  | S steps =>
      let t := length w in
      let at_ (k : nat) := nth (t - k) w 0 in
      schedule steps
        (w ++ [add32 (add32 (sigma1 (at_ 2%nat)) (at_ 7%nat))
                     (add32 (sigma0 (at_ 15%nat)) (at_ 16%nat))])
  end.

Definition round (s : list Z) (kw : Z * Z) : list Z :=
  match s with
  | [a; b; c; d; e; f; g; h] =>
      let t1 := add32 (add32 (add32 h (Sigma1 e)) (add32 (Ch e f g) (fst kw))) (snd kw) in
      let t2 := add32 (Sigma0 a) (Maj a b c) in
      [add32 t1 t2; a; b; c; add32 d t1; e; f; g]
  | _ => s
  end.

Definition compress (h : list Z) (chunk : list Z) : list Z :=
  let w := schedule 48 chunk in
  zip_with add32 h (foldl round h (zip K w)).

Definition digest (msg : list Z) : list Z :=
  let ws := words (pad msg) in
  concat (map be32 (foldl compress H0 (chunks (length ws) ws))).

End SHA256.

Definition byteZ (b : byte) : Z := Z.of_N (Byte.to_N b).
Definition Zbyte (z : Z) : byte := default x00 (Byte.of_N (Z.to_N z)).

(** [sha256.New(); h.Write(data); h.Sum(nil)] *)
Definition sha256 (data : list byte) : list byte :=
  map Zbyte (SHA256.digest (map byteZ data)).

(** ** Integer square roots

    The source computes [int(math.Floor(math.Sqrt(float64(n))))] and
    [int(math.Ceil(math.Sqrt(float64(n))))].  For [0 <= n < 2^52] the
    conversion to float64 is exact and the correctly rounded square root lies
    strictly between consecutive integers unless [n] is a perfect square, so
    the two expressions are the integer square root rounded down and up.
    For larger [n] the rounded root can be the neighbouring integer when [n]
    is next to a perfect square; [Size] and [locateBlock] then compare [n]
    with [size*size - size] and [s*s + s], half a shell away, and take the
    same branch as with the exact root.

    Go's [int] is modelled as [Z], without the wrap-around at 64 bits.  The
    definitions give what the code gives for [Size] on the block counts from
    0 to [maxInt], and for [locateBlock] on the block numbers from 1 to
    [maxInt - 1]; at [maxInt] the code's [blockNum + 1] wraps, and on a
    negative number the code converts the square root of a negative float.
    The dimensions up to [maxDimension] are those whose capacity [d*d - d]
    is in that range.  A statement about [locateBlock] at any block number
    or any dimension carries these bounds. *)

Definition maxInt : Z := 2 ^ 63 - 1.
Definition maxDimension : Z := 3037000500.

Definition floorSqrt (n : Z) : Z := Z.sqrt n.
Definition ceilSqrt (n : Z) : Z := Z.sqrt_up n.

(** ** Size *)

Definition Size (blockCount : Z) : Z :=
  let size := ceilSqrt blockCount in
  if size * size - size <? blockCount then size + 1 else size.

(** ** locateBlock

    [%] and [/] on Go ints truncate towards zero: [Z.rem] and [Z.quot]. *)

Definition locateBlock (blockNum : Z) : Z * Z :=
  let i :=
    if Z.rem blockNum 2 =? 0 then
      let s := floorSqrt blockNum in
      if blockNum <=? s * s + s then s else s + 1
    else
      let s := floorSqrt (blockNum + 1) in
      let col := if blockNum <? s * s + s then s else s + 1 in
      Z.quot (blockNum - (col * col - col + 1)) 2 in
  let j :=
    if Z.rem blockNum 2 =? 0 then
      let s := floorSqrt blockNum in
      let row := if blockNum <=? s * s + s then s else s + 1 in
      Z.quot (blockNum - (row * row - row + 2)) 2
    else
      let s := floorSqrt (blockNum + 1) in
      if blockNum <? s * s + s then s else s + 1 in
  (i, j).

(** ** rowBlockNumbers, columnBlockNumbers

    Each [for] loop is a left fold over the values its counter takes; the
    fold state is the slice built so far together with the running
    [add]/[sub] offset. *)

Definition rowBlockNumbers (rowIndex blockCount : Z) : list Z :=
  let below :=
    foldl (fun '(blocksNums, add) (col : Z) =>
             (blocksNums ++ [rowIndex * rowIndex - rowIndex + add], add + 2))
          ([], 2) (seqZ 0 rowIndex) in
  let size := Size blockCount in
  let above :=
    foldl (fun '(blocksNums, sub) (col : Z) =>
             (blocksNums ++ [col * col + col - sub], sub + 2))
          (fst below, 1) (seqZ (rowIndex + 1) (size - (rowIndex + 1))) in
  fst above.

Definition columnBlockNumbers (colIndex blockCount : Z) : list Z :=
  let above :=
    foldl (fun '(blocksNums, sub) (row : Z) =>
             (blocksNums ++ [colIndex * colIndex + colIndex - sub], sub - 2))
          ([], 2 * colIndex - 1) (seqZ 0 colIndex) in
  let size := Size blockCount in
  let add := 2 * colIndex + 2 in
  let below :=
    foldl (fun blocksNums (row : Z) =>
             blocksNums ++ [row * row - row + add])
          (fst above) (seqZ (colIndex + 1) (size - (colIndex + 1))) in
  below.

(** ** Data model *)

(** A Go [[]byte]: [None] is the nil slice, [Some l] a non-nil slice with
    contents [l].  [reflect.DeepEqual] tells a nil slice from an empty one,
    hashing and [len] do not. *)
Definition slice : Type := option (list byte).
Definition content (s : slice) : list byte := default [] s.

#[global] Instance byte_eq_dec : EqDecision byte := Byte.byte_eq_dec.

(** [reflect.DeepEqual] on two [[]byte] values. *)
Definition DeepEqual (a b : slice) : bool := bool_decide (a = b).

Record Block : Type := { Data : slice; Hash : slice }.

Module Info.
Record BlockMatrixInfo : Type :=
  { Size : Z; BlockCount : Z; Rows : list slice; Cols : list slice }.
End Info.
Abbreviation BlockMatrixInfo := Info.BlockMatrixInfo.
Abbreviation BlockCount := Info.BlockCount.
Abbreviation Rows := Info.Rows.
Abbreviation Cols := Info.Cols.

Definition setSize (info : BlockMatrixInfo) (v : Z) : BlockMatrixInfo :=
  {| Info.Size := v; Info.BlockCount := BlockCount info;
     Info.Rows := Rows info; Info.Cols := Cols info |}.
Definition setBlockCount (info : BlockMatrixInfo) (v : Z) : BlockMatrixInfo :=
  {| Info.Size := Info.Size info; Info.BlockCount := v;
     Info.Rows := Rows info; Info.Cols := Cols info |}.
Definition setRows (info : BlockMatrixInfo) (v : list slice) : BlockMatrixInfo :=
  {| Info.Size := Info.Size info; Info.BlockCount := BlockCount info;
     Info.Rows := v; Info.Cols := Cols info |}.
Definition setCols (info : BlockMatrixInfo) (v : list slice) : BlockMatrixInfo :=
  {| Info.Size := Info.Size info; Info.BlockCount := BlockCount info;
     Info.Rows := Rows info; Info.Cols := v |}.

(** block.go *)
Definition calculateHash (bytes : slice) : slice := Some (sha256 (content bytes)).
Definition NewBlock (data : slice) : Block := {| Data := data; Hash := calculateHash data |}.
Definition EmptyBlock : Block :=
  let bytes := Some [x00] in {| Data := bytes; Hash := calculateHash bytes |}.
Definition CalculateHash (b : Block) : slice := calculateHash (Data b).

(** ** The key-value store

    Every value the package writes is [strconv.Itoa] of a block number,
    [json.Marshal] of a [Block] or [json.Marshal] of a [BlockMatrixInfo].  The
    store keeps these values in decoded form; [encode] is their byte text.
    Keys are Go byte strings. *)
Inductive Value : Type :=
| VNum (n : Z)
| VBlock (b : Block)
| VInfo (info : BlockMatrixInfo).

Abbreviation DB := (gmap string Value).

(** [strconv.Itoa] and [fmt.Sprint] of an [int]: decimal digits, with a
    leading minus sign for negative numbers. *)
Definition Itoa (n : Z) : string := pretty n.
Definition Sprint (n : Z) : string := pretty n.

Definition base64Char (n : Z) : ascii :=
  ascii_of_N (Z.to_N
    (if n <? 26 then n + 65
     else if n <? 52 then n - 26 + 97
     else if n <? 62 then n - 52 + 48
     else if n =? 62 then 43 else 47)).

(** [base64.StdEncoding], which [encoding/json] applies to [[]byte]. *)
Fixpoint base64 (l : list byte) : string :=
  match l with
  | [] => EmptyString
  | [a] =>
      let x := byteZ a in
      String (base64Char (x / 4)) (String (base64Char (x mod 4 * 16)) "==")
  | [a; b] =>
      let x := byteZ a in
      let y := byteZ b in
      String (base64Char (x / 4)) (String (base64Char (x mod 4 * 16 + y / 16))
        (String (base64Char (y mod 16 * 4)) "="))
  | a :: b :: c :: rest =>
      let x := byteZ a in
      let y := byteZ b in
      let z := byteZ c in
      String (base64Char (x / 4)) (String (base64Char (x mod 4 * 16 + y / 16))
        (String (base64Char (y mod 16 * 4 + z / 64))
          (String (base64Char (z mod 64)) (base64 rest))))
  end.

Definition quote : string := String (ascii_of_nat 34) EmptyString.

Definition jsonBytes (s : slice) : string :=
  match s with
  | None => "null"
  | Some l => quote +:+ base64 l +:+ quote
  end.

Fixpoint jsonItems (l : list slice) : string :=
  match l with
  | [] => EmptyString
  | [x] => jsonBytes x
  | x :: rest => jsonBytes x +:+ "," +:+ jsonItems rest
  end.

(** A [[][]byte] of length 0 only arises as the nil slice. *)
Definition jsonSlices (l : list slice) : string :=
  match l with
  | [] => "null"
  | _ => "[" +:+ jsonItems l +:+ "]"
  end.

Definition field (name : string) (v : string) : string :=
  quote +:+ name +:+ quote +:+ ":" +:+ v.

Definition marshalBlock (b : Block) : string :=
  "{" +:+ field "data" (jsonBytes (Data b)) +:+ ","
      +:+ field "hash" (jsonBytes (Hash b)) +:+ "}".

Definition marshalInfo (info : BlockMatrixInfo) : string :=
  "{" +:+ field "size" (Itoa (Info.Size info)) +:+ ","
      +:+ field "block_count" (Itoa (BlockCount info)) +:+ ","
      +:+ field "rows" (jsonSlices (Rows info)) +:+ ","
      +:+ field "cols" (jsonSlices (Cols info)) +:+ "}".

Definition encode (v : Value) : string :=
  match v with
  | VNum n => Itoa n
  | VBlock b => marshalBlock b
  | VInfo info => marshalInfo info
  end.

(** ** Results, errors and the store monad *)

Inductive error : Type :=
| ErrNotFound               (* leveldb.ErrNotFound *)
| ErrUnmarshal              (* json: cannot unmarshal number into Go value *)
| ErrSyntax                 (* strconv.Atoi: invalid syntax *)
| ErrInvalidErase           (* invalid erase, more than one row/column was affected *)
| ErrBlockHashes (i : Z)    (* hashes for block i are not equal *)
| ErrRowHashes (i : Z)      (* hashes for row i are not equal *)
| ErrColumnHashes (i : Z).  (* hashes for column i are not equal *)

(** [Panic] is a run-time panic (index out of range). *)
Inductive result (A : Type) : Type :=
| Ok (a : A)
| Err (e : error)
| Panic.
Arguments Ok {A} a.
Arguments Err {A} e.
Arguments Panic {A}.

(** A call runs against the store and leaves it as it was when the call
    returned, whether it returned an error or not. *)
Definition M (A : Type) : Type := DB -> result A * DB.

Definition ret {A} (a : A) : M A := fun db => (Ok a, db).
Definition fail {A} (e : error) : M A := fun db => (Err e, db).
Definition lift {A} (r : result A) : M A := fun db => (r, db).
Definition bind {A B} (m : M A) (f : A -> M B) : M B :=
  fun db =>
    match m db with
    | (Ok a, db') => f a db'
    | (Err e, db') => (Err e, db')
    | (Panic, db') => (Panic, db')
    end.

Declare Scope M_scope.
Delimit Scope M_scope with M.
Notation "'let*' x := m 'in' k" := (bind m (fun x => k))
  (at level 10, x name, m at level 100, k at level 200) : M_scope.
Notation "m >> k" := (bind m (fun _ => k))
  (at level 100, k at level 200, right associativity) : M_scope.
Local Open Scope M_scope.

Fixpoint forEach {A} (l : list A) (body : A -> M unit) : M unit :=
  match l with
  | [] => ret tt
  | x :: l => body x >> forEach l body
  end.

Definition dbHas (key : string) : M bool :=
  fun db => (Ok (bool_decide (is_Some (db !! key))), db).
Definition dbGet (key : string) : M Value :=
  fun db => match db !! key with
            | Some v => (Ok v, db)
            | None => (Err ErrNotFound, db)
            end.
Definition dbPut (key : string) (v : Value) : M unit :=
  fun db => (Ok tt, <[key := v]> db).
Definition dbDelete (key : string) : M unit :=
  fun db => (Ok tt, delete key db).

(** [json.Unmarshal] into a fresh [Block]: an object without the fields
    leaves the zero value, a number is a type error. *)
Definition unmarshalBlock (v : Value) : result Block :=
  match v with
  | VBlock b => Ok b
  | VInfo _ => Ok {| Data := None; Hash := None |}
  | VNum _ => Err ErrUnmarshal
  end.

Definition unmarshalInfo (v : Value) : result BlockMatrixInfo :=
  match v with
  | VInfo info => Ok info
  | VBlock _ => Ok {| Info.Size := 0; Info.BlockCount := 0; Info.Rows := []; Info.Cols := [] |}
  | VNum _ => Err ErrUnmarshal
  end.

(** Indexing a slice with a Go [int]. *)
Definition index (l : list slice) (i : Z) : result slice :=
  if (0 <=? i) && (i <? Z.of_nat (length l))
  then match l !! Z.to_nat i with Some x => Ok x | None => Panic end
  else Panic.
Definition setIndex (l : list slice) (i : Z) (x : slice) : result (list slice) :=
  if (0 <=? i) && (i <? Z.of_nat (length l))
  then Ok (<[Z.to_nat i := x]> l)
  else Panic.

(** [l[i], err = m] followed by [if err != nil { return err }]: the call
    runs first, the store into [l[i]] panics when [i] is out of range whether
    or not the call failed, and only then is the error looked at. *)
Definition assignIndex (l : list slice) (i : Z) (m : M slice) : M (list slice) :=
  fun db =>
    match m db with
    | (Ok h, db') => (setIndex l i h, db')
    | (Err e, db') =>
        match setIndex l i None with
        | Ok _ => (Err e, db')
        | _ => (Panic, db')
        end
    | (Panic, db') => (Panic, db')
    end.

(** [string(b)] for a byte [b]: the UTF-8 text of the code point. *)
Definition stringOfByte (c : ascii) : string :=
  let n := Z.of_N (N_of_ascii c) in
  if n <? 128 then String c EmptyString
  else String (ascii_of_N (Z.to_N (192 + n / 64)))
         (String (ascii_of_N (Z.to_N (128 + n mod 64))) EmptyString).

Definition digitVal (c : ascii) : option Z :=
  let n := Z.of_N (N_of_ascii c) in
  if (48 <=? n) && (n <=? 57) then Some (n - 48) else None.

Fixpoint atoiDigits (s : string) (acc : Z) : option Z :=
  match s with
  | EmptyString => Some acc
  | String c s' =>
      match digitVal c with
      | Some d => atoiDigits s' (acc * 10 + d)
      | None => None
      end
  end.

(** [strconv.Atoi] on inputs within the range of [int]. *)
Definition Atoi (s : string) : result Z :=
  match s with
  | EmptyString => Err ErrSyntax
  | String c s' =>
      if bool_decide (c = "-"%char) || bool_decide (c = "+"%char) then
        match s' with
        | EmptyString => Err ErrSyntax
        | _ => match atoiDigits s' 0 with
               | Some n => Ok (if bool_decide (c = "-"%char) then - n else n)
               | None => Err ErrSyntax
               end
        end
      else match atoiDigits s 0 with
           | Some n => Ok n
           | None => Err ErrSyntax
           end
  end.

(** ** The block matrix (later revision) *)

Definition InfoKey : string := "info".

Definition initInfo : M unit :=
  let info := {| Info.Size := 1; Info.BlockCount := 0;
                 Info.Rows := [None]; Info.Cols := [None] |} in
  dbPut "info" (VInfo info).

Definition New : M unit :=
  let* ok := dbHas InfoKey in
  if negb ok then initInfo else ret tt.

Definition GetBlockMatrixInfo : M BlockMatrixInfo :=
  let* ok := dbHas "info" in
  if negb ok then
    let info := {| Info.Size := 0; Info.BlockCount := 0;
                   Info.Rows := [None]; Info.Cols := [None] |} in
    dbPut "info" (VInfo info) >> ret info
  else
    let* infoBytes := dbGet "info" in
    lift (unmarshalInfo infoBytes).

Definition GetBlockByNumber (num : Z) : M Block :=
  let* bytes := dbGet (Sprint num) in
  lift (unmarshalBlock bytes).

Definition GetBlock (key : string) : M Block :=
  let* bytes := dbGet key in
  let* bytes := dbGet (encode bytes) in
  lift (unmarshalBlock bytes).

Definition BlockNumber (key : string) : M Z :=
  let* bytes := dbGet key in
  match encode bytes with
  | EmptyString => lift Panic
  | String b0 _ => lift (Atoi (stringOfByte b0))
  end.

(** The loop shared by [calculateRowHash] and [calculateColumnHash]: [h] is
    what has been written to the running hash. *)
Fixpoint writeHashes (blocks : list Z) (h : list byte) : M (list byte) :=
  match blocks with
  | [] => ret h
  | blockNum :: blocks =>
      let* block := GetBlockByNumber blockNum in
      writeHashes blocks (h ++ content (Hash block))
  end.

Definition calculateRowHash (row blockCount : Z) : M slice :=
  let* h := writeHashes (rowBlockNumbers row blockCount) [] in
  ret (Some (sha256 h)).

Definition calculateColumnHash (col blockCount : Z) : M slice :=
  let* h := writeHashes (columnBlockNumbers col blockCount) [] in
  ret (Some (sha256 h)).

(** [info] is passed by pointer in the source; here the updated record is
    returned. *)
Definition updateBlockMatrixInfo (info : BlockMatrixInfo) (blockNum : Z)
  : M BlockMatrixInfo :=
  let '(row, col) := locateBlock blockNum in
  let* rows := assignIndex (Rows info) row
                 (calculateRowHash row (BlockCount info)) in
  let info := setRows info rows in
  let* cols := assignIndex (Cols info) col
                 (calculateColumnHash col (BlockCount info)) in
  let info := setCols info cols in
  dbPut "info" (VInfo info) >> ret info.

Definition updateBlockMatrixSize (info : BlockMatrixInfo) (newSize : Z)
  : M BlockMatrixInfo :=
  let numBlocksToAdd := 2 * Info.Size info in
  let info := setSize info newSize in
  forEach (seqZ (BlockCount info) numBlocksToAdd)
          (fun i => dbPut (Sprint i) (VBlock EmptyBlock)) >>
  let info := setRows info (Rows info ++ [Some []]) in
  let info := setCols info (Cols info ++ [Some []]) in
  ret info.

Definition AddBlock (key : string) (data : slice) : M unit :=
  let* info := GetBlockMatrixInfo in
  let info := setBlockCount info (BlockCount info + 1) in
  let newSize := Size (BlockCount info) in
  let* info := (if newSize >? Info.Size info
                then updateBlockMatrixSize info newSize
                else ret info) in
  let blockNum := BlockCount info in
  let blockNumBytes := Itoa blockNum in
  let block := NewBlock data in
  dbPut key (VNum blockNum) >>
  dbPut blockNumBytes (VBlock block) >>
  let* _ := updateBlockMatrixInfo info blockNum in
  ret tt.

Definition checkValidErase (info : BlockMatrixInfo)
    (oldRowHashes oldColHashes : list slice) : result bool :=
  let step (acc : result (Z * Z)) (i : Z) : result (Z * Z) :=
    match acc with
    | Ok (numRowChanged, numColChanged) =>
        match index oldRowHashes i, index (Rows info) i with
        | Ok oldRow, Ok newRow =>
            if negb (DeepEqual oldRow newRow) then
              Ok (numRowChanged + 1, numColChanged)
            else
              match index oldColHashes i, index (Cols info) i with
              | Ok oldCol, Ok newCol =>
                  if negb (DeepEqual oldCol newCol)
                  then Ok (numRowChanged, numColChanged + 1)
                  else Ok (numRowChanged, numColChanged)
              | _, _ => Panic
              end
        | _, _ => Panic
        end
    | _ => acc
    end in
  match foldl step (Ok (0, 0)) (seqZ 0 (Info.Size info)) with
  | Ok (numRowChanged, numColChanged) =>
      Ok ((numRowChanged =? 1) && (numColChanged =? 1))
  | Err e => Err e
  | Panic => Panic
  end.

Definition EraseBlock (key : string) : M unit :=
  let* blockNum := BlockNumber key in
  dbDelete key >>
  dbPut (Sprint blockNum) (VBlock EmptyBlock) >>
  let* info := GetBlockMatrixInfo in
  let oldRowHashes := Rows info in
  let oldColHashes := Cols info in
  let* info := updateBlockMatrixInfo info blockNum in
  let* ok := lift (checkValidErase info oldRowHashes oldColHashes) in
  if negb ok then fail ErrInvalidErase else ret tt.

Definition IsValid : M bool :=
  let* info := GetBlockMatrixInfo in
  forEach (seqZ 1 (BlockCount info))
    (fun i =>
       let* block := GetBlockByNumber i in
       if DeepEqual (Hash block) (CalculateHash block)
       then fail (ErrBlockHashes i) else ret tt) >>
  let size := Size (BlockCount info) in
  forEach (seqZ 0 size)
    (fun i =>
       let* hash := calculateRowHash i (BlockCount info) in
       let* stored := lift (index (Rows info) i) in
       if DeepEqual stored hash then fail (ErrRowHashes i) else ret tt) >>
  forEach (seqZ 0 size)
    (fun i =>
       let* hash := calculateColumnHash i (BlockCount info) in
       let* stored := lift (index (Cols info) i) in
       if DeepEqual stored hash then fail (ErrColumnHashes i) else ret tt) >>
  ret true.

(** [json.Unmarshal] into an existing [Block]: the fields that the text has
    replace those of [block] (a JSON null makes the slice nil), an object
    without them leaves [block] as it is, a number is a type error. *)
Definition unmarshalInto (block : Block) (v : Value) : result Block :=
  match v with
  | VBlock b => Ok b
  | VInfo _ => Ok block
  | VNum _ => Err ErrUnmarshal
  end.

(** A [[][]*Block]; [None] is the nil pointer. *)
Abbreviation BlockGrid := (list (list (option Block))).

(** [make([][]*Block, size)] with each row [make([]*Block, size)]. *)
Definition makeGrid (size : Z) : BlockGrid :=
  replicate (Z.to_nat size) (replicate (Z.to_nat size) None).

(** [matrix[i][j] = block] *)
Definition setCell (matrix : BlockGrid) (i j : Z) (block : Block) : result BlockGrid :=
  if (0 <=? i) && (i <? Z.of_nat (length matrix)) then
    match matrix !! Z.to_nat i with
    | Some row =>
        if (0 <=? j) && (j <? Z.of_nat (length row))
        then Ok (<[Z.to_nat i := <[Z.to_nat j := Some block]> row]> matrix)
        else Panic
    | None => Panic
    end
  else Panic.

(** The loop of [Matrix] over the block numbers still to be placed; [empty]
    is the block that [json.Unmarshal] fills. *)
Fixpoint populate (empty : Block) (blockNums : list Z) (matrix : BlockGrid)
  : M BlockGrid :=
  match blockNums with
  | [] => ret matrix
  | blockNum :: blockNums =>
      let '(i, j) := locateBlock blockNum in
      let* bytes := dbGet (Sprint blockNum) in
      let* block := lift (unmarshalInto empty bytes) in
      let* matrix := lift (setCell matrix i j block) in
      populate empty blockNums matrix
  end.

Definition Matrix : M BlockGrid :=
  let* info := GetBlockMatrixInfo in
  let size := Size (BlockCount info) in
  let matrix := makeGrid size in
  populate EmptyBlock
    (seqZ 1 (Info.Size info * Info.Size info - Info.Size info)) matrix.

(** [fmt.Sprint] of a [[]byte]: the bytes in decimal, separated by spaces,
    in square brackets. *)
Fixpoint sprintItems (l : list byte) : string :=
  match l with
  | [] => EmptyString
  | [x] => Sprint (byteZ x)
  | x :: rest => Sprint (byteZ x) +:+ " " +:+ sprintItems rest
  end.
Definition SprintBytes (s : slice) : string := "[" +:+ sprintItems (content s) +:+ "]".

(** A loop that appends one value per element, each from a computation
    that may panic. *)
Definition appendEach {A B} (f : A -> result B) (l : list A) : result (list B) :=
  foldl (fun acc x =>
           match acc with
           | Ok ys => match f x with
                      | Ok y => Ok (ys ++ [y])
                      | Err e => Err e
                      | Panic => Panic
                      end
           | _ => acc
           end)
        (Ok []) l.

(** [matrix[i][j].Data]: the index may be out of range and the pointer
    nil. *)
Definition dataAt (matrix : BlockGrid) (i j : Z) : result slice :=
  match matrix !! Z.to_nat i with
  | Some row =>
      match row !! Z.to_nat j with
      | Some (Some block) => Ok (Data block)
      | _ => Panic
      end
  | None => Panic
  end.

(** The rows that [PrintBlockMatrixData] appends to its table. *)
Definition tableRows (matrix : BlockGrid) : result (list (list string)) :=
  let len := Z.of_nat (length matrix) in
  appendEach
    (fun i =>
       appendEach
         (fun j =>
            if i =? j then Ok "."
            else match dataAt matrix i j with
                 | Ok data => Ok (SprintBytes data)
                 | Err e => Err e
                 | Panic => Panic
                 end)
         (seqZ 0 len))
    (seqZ 0 len).

(** [PrintBlockMatrixData] writes to the standard output only.  What it
    returns here, besides the error, are the rows of the table; the rendering
    of the table and the lines printed after it are not part of the model. *)
Definition PrintBlockMatrixData : M (list (list string)) :=
  let* matrix := Matrix in
  let* info := GetBlockMatrixInfo in
  lift (tableRows matrix).

(** ** The block matrix (earlier revision)

    [New], [initInfo], [Size], [locateBlock], [GetBlock], [GetBlockByNumber]
    and [GetBlockmatrixInfo] read the same as above.  The loops of
    [RowBlockNumbers] and [ColumnBlockNumbers] are those of
    [rowBlockNumbers] and [columnBlockNumbers], run at the block count read
    from the store. *)
Module Legacy.

Definition GetBlockmatrixInfo : M BlockMatrixInfo := GetBlockMatrixInfo.

Definition RowBlockNumbers (rowIndex : Z) : M (list Z) :=
  let* info := GetBlockmatrixInfo in
  ret (rowBlockNumbers rowIndex (BlockCount info)).

Definition ColumnBlockNumbers (colIndex : Z) : M (list Z) :=
  let* info := GetBlockmatrixInfo in
  ret (columnBlockNumbers colIndex (BlockCount info)).

Definition hashData (data : slice) : slice := Some (sha256 (content data)).

Definition updateHashes (index : Z) (blockNumFunc : Z -> M (list Z))
    (hashes : list slice) : M slice :=
  let* blockNums := blockNumFunc index in
  let* h := writeHashes blockNums [] in
  ret (Some (sha256 h)).

Definition updateBlockMatrixInfo (info : BlockMatrixInfo) (blockNum : Z)
  : M BlockMatrixInfo :=
  let '(row, col) := locateBlock blockNum in
  let* rows := assignIndex (Rows info) row
                 (updateHashes row RowBlockNumbers (Rows info)) in
  let info := setRows info rows in
  let* cols := assignIndex (Cols info) col
                 (updateHashes col ColumnBlockNumbers (Cols info)) in
  let info := setCols info cols in
  dbPut "info" (VInfo info) >> ret info.

Definition updateBlockMatrixSize (info : BlockMatrixInfo) (newSize : Z)
  : M BlockMatrixInfo :=
  let numBlocksToAdd := 2 * Info.Size info in
  let info := setSize info newSize in
  forEach (seqZ (BlockCount info) numBlocksToAdd)
          (fun i => dbPut (Sprint i) (VBlock {| Data := None; Hash := None |})) >>
  let info := setRows info (Rows info ++ [Some []]) in
  let info := setCols info (Cols info ++ [Some []]) in
  ret info.

Definition AddBlock (key : string) (data : slice) : M unit :=
  let* info := GetBlockmatrixInfo in
  let info := setBlockCount info (BlockCount info + 1) in
  let newSize := Size (BlockCount info) in
  let* info := (if newSize >? Info.Size info
                then updateBlockMatrixSize info newSize
                else ret info) in
  let blockNum := BlockCount info in
  let blockNumBytes := Sprint blockNum in
  let block := {| Data := data; Hash := hashData data |} in
  dbPut key (VNum blockNum) >>
  dbPut blockNumBytes (VBlock block) >>
  let* _ := updateBlockMatrixInfo info blockNum in
  ret tt.

(** [int(bytes[0])] *)
Definition BlockNumber (key : string) : M Z :=
  let* bytes := dbGet key in
  match encode bytes with
  | EmptyString => lift Panic
  | String b0 _ => ret (Z.of_N (N_of_ascii b0))
  end.

Definition EraseBlock (key : string) : M unit :=
  let* blockNum := BlockNumber key in
  dbDelete key >>
  dbDelete (Sprint blockNum) >>
  let* info := GetBlockmatrixInfo in
  let* _ := updateBlockMatrixInfo info blockNum in
  ret tt.

Definition Matrix : M BlockGrid :=
  let* info := GetBlockmatrixInfo in
  let size := Size (BlockCount info) in
  let matrix := makeGrid size in
  populate {| Data := None; Hash := None |}
    (seqZ 1 (Info.Size info * Info.Size info - Info.Size info)) matrix.

Definition PrintBlockMatrixData : M (list (list string)) :=
  let* matrix := Matrix in
  let* info := GetBlockmatrixInfo in
  lift (tableRows matrix).

End Legacy.

(** ** Runs used below *)

Definition run {A} (m : M A) (db : DB) : DB := snd (m db).

(** blockmatrix_test.go: [createTestBlocks], against either revision's
    [AddBlock]. *)
Definition byteOf (i : Z) : byte := Zbyte (i mod 256).
Definition createTestBlocks (addBlock : string -> slice -> M unit) (num : Z) : M unit :=
  forEach (seqZ 0 num)
    (fun i => addBlock ("key" +:+ Sprint i) (Some [byteOf i])).

(** Blocks [1 .. num] under the keys [k1 .. knum], block [i] holding the
    single byte [i]. *)
Definition addNumbered (addBlock : string -> slice -> M unit) (num : Z) : M unit :=
  forEach (seqZ 1 num)
    (fun i => addBlock ("k" +:+ Sprint i) (Some [byteOf i])).

Definition fresh : DB := run New ∅.

(** ** Notions used in the properties *)

(** The metadata record as it is stored, when the store holds one. *)
Definition storedInfo (db : DB) : option BlockMatrixInfo :=
  match db !! "info" with
  | Some (VInfo info) => Some info
  | _ => None
  end.

(** The states reachable from the freshly initialised matrix by calls of
    [addBlock], one of the two revisions of [AddBlock], whatever each call
    returned. *)
Inductive reachable (addBlock : string -> slice -> M unit) : DB -> Prop :=
| reachable_New : reachable addBlock fresh
| reachable_AddBlock db key data :
    reachable addBlock db -> reachable addBlock (run (addBlock key data) db).

(** [n] is the smallest dimension from 1 whose off-diagonal cells hold
    [blockCount] blocks. *)
Definition leastDimension (blockCount n : Z) : Prop :=
  1 <= n /\ blockCount <= n * n - n /\
  forall m, 1 <= m -> blockCount <= m * m - m -> n <= m.

(** The cell-to-number map read off [rowBlockNumbers]: below the diagonal
    row [i] holds [i*i - i + 2, + 4, ...], above it column [j] holds
    [j*j - j + 1, + 3, ...]. *)
Definition blockAt (c : Z * Z) : Z :=
  let '(i, j) := c in
  if j <? i then i * i - i + 2 + 2 * j else j * j - j + 1 + 2 * i.

Definition offDiagonal (d : Z) (c : Z * Z) : Prop :=
  0 <= fst c < d /\ 0 <= snd c < d /\ fst c <> snd c.

(** The store after [v] has been put under the text of each number of
    [keys] in turn. *)
Definition putAll (keys : list Z) (v : Value) (db : DB) : DB :=
  foldl (fun d i => <[Sprint i := v]> d) db keys.

(** The number of positions at which two digest lists differ, a position
    present in only one of them counting as a difference. *)
Definition numChanged (old new : list slice) : nat :=
  length (filter (fun i => old !! i <> new !! i)
                 (seq 0 (Nat.max (length old) (length new)))).

(** What [checkValidErase] counts over the first [n] indices: the changed
    row digests, and the changed column digests at the indices whose row
    digest is unchanged. *)
Definition rowsCounted (oldRows newRows : list slice) (n : nat) : nat :=
  length (filter (fun i => oldRows !! i <> newRows !! i) (seq 0 n)).
Definition colsCounted (oldRows newRows oldCols newCols : list slice) (n : nat) : nat :=
  length (filter (fun i => oldRows !! i = newRows !! i /\ oldCols !! i <> newCols !! i)
                 (seq 0 n)).

(** What every reachable store holds under the key ["info"]: metadata whose
    dimension is the least one from 1 that fits its block count, or, after a
    failed insert under the key ["info"] itself, a number record. *)
Definition infoInvariant (db : DB) : Prop :=
  (exists info, db !! "info" = Some (VInfo info) /\
                0 <= BlockCount info /\
                leastDimension (BlockCount info) (Info.Size info)) \/
  (exists n, db !! "info" = Some (VNum n)).

(** A key that is neither ["info"] nor the decimal text of a number. *)
Definition ordinaryKey (key : string) : Prop :=
  key <> "info" /\ forall n, key <> Sprint n.

(** A store in which the metadata is readable, the dimension is the least
    one that fits the block count, each digest list has one entry per row or
    column, and every cell of the grid has a block record. *)
Definition wellFormed (db : DB) : Prop :=
  exists info,
    db !! "info" = Some (VInfo info) /\
    0 <= BlockCount info /\
    leastDimension (BlockCount info) (Info.Size info) /\
    Z.of_nat (length (Rows info)) = Info.Size info /\
    Z.of_nat (length (Cols info)) = Info.Size info /\
    forall n, 1 <= n <= Info.Size info * Info.Size info - Info.Size info ->
              exists b, db !! Sprint n = Some (VBlock b).

(** A store as inserts under ordinary keys build it: well formed, every
    block up to the block count carrying the digest of its data, every cell
    beyond the block count holding the block [fill] that growth puts there,
    no block record outside the grid, and every other key holding the number
    of a block. *)
Definition shapedOf (fill : Block) (db : DB) : Prop :=
  exists info,
    db !! "info" = Some (VInfo info) /\
    0 <= BlockCount info /\
    leastDimension (BlockCount info) (Info.Size info) /\
    Z.of_nat (length (Rows info)) = Info.Size info /\
    Z.of_nat (length (Cols info)) = Info.Size info /\
    (forall n, 1 <= n <= BlockCount info ->
       exists b, db !! Sprint n = Some (VBlock b) /\ Hash b = CalculateHash b) /\
    (forall n, BlockCount info < n <= Info.Size info * Info.Size info - Info.Size info ->
       db !! Sprint n = Some (VBlock fill)) /\
    (forall n, n < 1 \/ Info.Size info * Info.Size info - Info.Size info < n ->
       db !! Sprint n = None) /\
    (forall k v, db !! k = Some v -> ordinaryKey k ->
       exists m, v = VNum m /\ 1 <= m <= BlockCount info).

(** In the later revision growth puts the empty block. *)
Definition shaped (db : DB) : Prop := shapedOf EmptyBlock db.

(** The cell of a grid at row [i], column [j], when the grid has one. *)
Definition cell (matrix : BlockGrid) (i j : Z) : option (option Block) :=
  if (0 <=? i) && (0 <=? j)
  then matrix !! Z.to_nat i ≫= fun row => row !! Z.to_nat j
  else None.


(** The data last inserted under each key by a sequence of inserts. *)
Definition contents (inserts : list (string * slice)) : gmap string slice :=
  foldl (fun m kd => <[fst kd := snd kd]> m) ∅ inserts.

(** [addBlock] for each pair of a list in turn, stopping at the first
    error. *)
Definition insertAllOf (addBlock : string -> slice -> M unit)
    (inserts : list (string * slice)) : M unit :=
  forEach inserts (fun kd => addBlock (fst kd) (snd kd)).

Definition insertAll (inserts : list (string * slice)) : M unit :=
  insertAllOf AddBlock inserts.

(** The store holds what a sequence of inserts put into it: the count, the
    block of each insert under its number, and under each key the number of
    the block last inserted under it. *)
Definition tracksOf (fill : Block) (inserts : list (string * slice)) (db : DB) : Prop :=
  shapedOf fill db /\
  (exists info, db !! "info" = Some (VInfo info) /\
                BlockCount info = Z.of_nat (length inserts)) /\
  (forall (i : nat) kd, inserts !! i = Some kd ->
     db !! Sprint (Z.of_nat i + 1) = Some (VBlock (NewBlock (snd kd)))) /\
  (forall k, ordinaryKey k ->
     match contents inserts !! k with
     | Some d => exists m, db !! k = Some (VNum m) /\
                           db !! Sprint m = Some (VBlock (NewBlock d))
     | None => db !! k = None
     end).

Definition tracks (inserts : list (string * slice)) (db : DB) : Prop :=
  tracksOf EmptyBlock inserts db.

(** A grid of [d] rows of [d] cells. *)
Definition square (d : Z) (matrix : BlockGrid) : Prop :=
  Z.of_nat (length matrix) = d /\
  forall row, row ∈ matrix -> Z.of_nat (length row) = d.

(** The stores built from the freshly initialised matrix by inserts and
    redactions under ordinary keys, whatever each call returned. *)
Inductive built : DB -> Prop :=
| built_New : built fresh
| built_AddBlock db key data :
    built db -> ordinaryKey key -> built (run (AddBlock key data) db)
| built_EraseBlock db key :
    built db -> ordinaryKey key -> built (run (EraseBlock key) db).

(** The text of the cell in row [i] and column [j] of the table. *)
Definition cellText (matrix : BlockGrid) (i j : Z) : string :=
  if i =? j then "."
  else match cell matrix i j with
       | Some (Some b) => SprintBytes (Data b)
       | _ => EmptyString
       end.

(** The inserts that [createTestBlocks] makes. *)
Definition testInserts (num : Z) : list (string * slice) :=
  map (fun i => ("key" +:+ Sprint i, Some [byteOf i])) (seqZ 0 num).

(** *** The common shape of the two revisions

    The revisions of [updateBlockMatrixInfo], [updateBlockMatrixSize] and
    [AddBlock] differ in how a digest is computed and in the block that fills
    the cells of a new shell.  [updateBlockMatrixInfoOf] and [AddBlockOf] are
    their text with these two parts taken as parameters; [later] and
    [earlier] give back the two revisions. *)
Record revision : Type :=
  { rowHash : BlockMatrixInfo -> Z -> M slice;
    colHash : BlockMatrixInfo -> Z -> M slice;
    filler : Block }.

Definition later : revision :=
  {| rowHash := fun info row => calculateRowHash row (BlockCount info);
     colHash := fun info col => calculateColumnHash col (BlockCount info);
     filler := EmptyBlock |}.

Definition earlier : revision :=
  {| rowHash := fun info row =>
       Legacy.updateHashes row Legacy.RowBlockNumbers (Rows info);
     colHash := fun info col =>
       Legacy.updateHashes col Legacy.ColumnBlockNumbers (Cols info);
     filler := {| Data := None; Hash := None |} |}.

Definition updateBlockMatrixInfoOf (rev : revision) (info : BlockMatrixInfo)
    (blockNum : Z) : M BlockMatrixInfo :=
  let '(row, col) := locateBlock blockNum in
  let* rows := assignIndex (Rows info) row (rowHash rev info row) in
  let info := setRows info rows in
  let* cols := assignIndex (Cols info) col (colHash rev info col) in
  let info := setCols info cols in
  dbPut "info" (VInfo info) >> ret info.

Definition updateBlockMatrixSizeOf (rev : revision) (info : BlockMatrixInfo)
    (newSize : Z) : M BlockMatrixInfo :=
  let numBlocksToAdd := 2 * Info.Size info in
  let info := setSize info newSize in
  forEach (seqZ (BlockCount info) numBlocksToAdd)
          (fun i => dbPut (Sprint i) (VBlock (filler rev))) >>
  let info := setRows info (Rows info ++ [Some []]) in
  let info := setCols info (Cols info ++ [Some []]) in
  ret info.

Definition AddBlockOf (rev : revision) (key : string) (data : slice) : M unit :=
  let* info := GetBlockMatrixInfo in
  let info := setBlockCount info (BlockCount info + 1) in
  let newSize := Size (BlockCount info) in
  let* info := (if newSize >? Info.Size info
                then updateBlockMatrixSizeOf rev info newSize
                else ret info) in
  let blockNum := BlockCount info in
  let blockNumBytes := Itoa blockNum in
  let block := NewBlock data in
  dbPut key (VNum blockNum) >>
  dbPut blockNumBytes (VBlock block) >>
  let* _ := updateBlockMatrixInfoOf rev info blockNum in
  ret tt.

(** A revision's digest computations only read, on a store that holds a
    record under ["info"]. *)
Definition readsOnly (rev : revision) : Prop :=
  forall info i db,
    is_Some (db !! "info") ->
    snd (rowHash rev info i db) = db /\ snd (colHash rev info i db) = db.

(** The metadata and the store as [AddBlock] has them when it reaches
    [updateBlockMatrixInfo], starting from stored metadata [info]. *)
Definition grows (info : BlockMatrixInfo) : bool :=
  Size (BlockCount info + 1) >? Info.Size info.

Definition infoBeforeDigests (info : BlockMatrixInfo) : BlockMatrixInfo :=
  let info1 := setBlockCount info (BlockCount info + 1) in
  if grows info then
    let info2 := setSize info1 (Size (BlockCount info1)) in
    let info3 := setRows info2 (Rows info2 ++ [Some []]) in
    setCols info3 (Cols info3 ++ [Some []])
  else info1.

Definition storeBeforeDigests (rev : revision) (key : string) (data : slice)
    (info : BlockMatrixInfo) (db : DB) : DB :=
  let blockNum := BlockCount info + 1 in
  let db1 := if grows info
             then putAll (seqZ blockNum (2 * Info.Size info)) (VBlock (filler rev)) db
             else db in
  <[Itoa blockNum := VBlock (NewBlock data)]> (<[key := VNum blockNum]> db1).

(** On a well-formed store an insert of the revision under an ordinary key
    returns without error, and leaves the store that held the new records
    with the metadata of one block more. *)
Definition insertsRun (rev : revision) : Prop :=
  forall key data db info,
    wellFormed db -> ordinaryKey key -> db !! "info" = Some (VInfo info) ->
    exists info',
      AddBlockOf rev key data db =
        (Ok tt, <["info" := VInfo info']> (storeBeforeDigests rev key data info db)) /\
      BlockCount info' = BlockCount info + 1 /\
      Info.Size info' = Size (BlockCount info + 1) /\
      Z.of_nat (length (Rows info')) = Size (BlockCount info + 1) /\
      Z.of_nat (length (Cols info')) = Size (BlockCount info + 1).

(** * Part II: properties *)

(** ** Sample runs *)

Example sha256_empty :
  map byteZ (take 4 (sha256 [])) = [0xe3; 0xb0; 0xc4; 0x42].
Proof. vm_compute. reflexivity. Qed.

Example sha256_abc :
  map byteZ (take 4 (sha256 (String.list_byte_of_string "abc"))) =
  [0xba; 0x78; 0x16; 0xbf].
Proof. vm_compute. reflexivity. Qed.

Example sha256_constants :
  length SHA256.K = 64%nat /\ head SHA256.K = Some 0x428a2f98 /\
  last SHA256.K = Some 0xc67178f2 /\ head SHA256.H0 = Some 0x6a09e667.
Proof. vm_compute. repeat apply conj; reflexivity. Qed.

Example sha256_two_blocks :
  map byteZ (take 4 (sha256 (String.list_byte_of_string
    "abcdbcdecdefdefgefghfghighijhijkijkljklmklmnlmnomnopnopq"))) =
  [0x24; 0x8d; 0x6a; 0x61].
Proof. vm_compute. reflexivity. Qed.

Example locate_samples :
  map locateBlock [1; 2; 3; 4; 5; 6; 7] =
  [(0, 1); (1, 0); (0, 2); (2, 0); (1, 2); (2, 1); (0, 3)].
Proof. reflexivity. Qed.

Example size_samples :
  map Size [0; 1; 2; 3; 6; 7; 12; 13; 25] = [0; 2; 2; 3; 3; 4; 4; 5; 6].
Proof. reflexivity. Qed.

Example marshal_EmptyBlock :
  String.length (encode (VBlock EmptyBlock)) = 69%nat.
Proof. vm_compute. reflexivity. Qed.

(** ** Placement: shells and the inverse of [locateBlock] *)

Section Placement.

Lemma floorSqrt_shell c n :
  1 <= c -> c * c - c + 1 <= n <= c * c + 2 * c ->
  (floorSqrt n = c /\ c * c <= n) \/ (floorSqrt n = c - 1 /\ n < c * c).
Proof.
  intros Hc Hn. unfold floorSqrt.
  destruct (Z_lt_le_dec n (c * c)) as [Hlt | Hge].
  - right. split; [|assumption]. apply Z.sqrt_unique; nia.
  - left. split; [|assumption]. apply Z.sqrt_unique; nia.
Qed.

Lemma pronic_even c : exists k, c * c - c = 2 * k.
Proof.
  destruct (Z.Even_or_Odd c) as [[k ->] | [k ->]].
  - exists (k * (2 * k - 1)). ring.
  - exists (k * (2 * k + 1)). ring.
Qed.

Lemma rem2_even k : Z.rem (2 * k) 2 = 0.
Proof. rewrite Z.mul_comm. apply Z.rem_mul. lia. Qed.

Lemma rem2_odd k : 0 <= k -> Z.rem (2 * k + 1) 2 = 1.
Proof.
  intros Hk. rewrite Z.rem_mod_nonneg by lia.
  rewrite Z.add_comm, Z.mul_comm, Z.mod_add by lia. reflexivity.
Qed.

Lemma quot2_double k : Z.quot (2 * k) 2 = k.
Proof. rewrite Z.mul_comm. apply Z.quot_mul. lia. Qed.

Lemma locateBlock_below r j :
  0 <= j < r -> locateBlock (r * r - r + 2 + 2 * j) = (r, j).
Proof.
  intros Hj. destruct (pronic_even r) as [k Hk].
  set (n := r * r - r + 2 + 2 * j).
  assert (Hn : n = 2 * (k + 1 + j)) by (unfold n; lia).
  assert (Hrow : (let s := floorSqrt n in
                  if n <=? s * s + s then s else s + 1) = r).
  { cbv zeta.
    destruct (floorSqrt_shell r n) as [[-> Hs] | [-> Hs]]; [lia | unfold n; nia | |].
    - destruct (Z.leb_spec n (r * r + r)); [reflexivity | unfold n in *; nia].
    - destruct (Z.leb_spec n ((r - 1) * (r - 1) + (r - 1)));
        [unfold n in *; nia | lia]. }
  unfold locateBlock. fold n.
  replace (Z.rem n 2 =? 0) with true
    by (rewrite Hn, rem2_even; reflexivity).
  cbv zeta in Hrow |- *. rewrite Hrow. f_equal.
  replace (n - (r * r - r + 2)) with (2 * j) by (unfold n; lia).
  apply quot2_double.
Qed.

Lemma locateBlock_above c i :
  0 <= i < c -> locateBlock (c * c - c + 1 + 2 * i) = (i, c).
Proof.
  intros Hi. destruct (pronic_even c) as [k Hk].
  set (n := c * c - c + 1 + 2 * i).
  assert (Hn : n = 2 * (k + i) + 1) by (unfold n; lia).
  assert (Hk0 : 0 <= k + i) by nia.
  assert (Hcol : (let s := floorSqrt (n + 1) in
                  if n <? s * s + s then s else s + 1) = c).
  { cbv zeta.
    destruct (floorSqrt_shell c (n + 1)) as [[-> Hs] | [-> Hs]];
      [lia | unfold n; nia | |].
    - destruct (Z.ltb_spec n (c * c + c)); [reflexivity | unfold n in *; nia].
    - destruct (Z.ltb_spec n ((c - 1) * (c - 1) + (c - 1)));
        [unfold n in *; nia | lia]. }
  unfold locateBlock. fold n.
  replace (Z.rem n 2 =? 0) with false
    by (rewrite Hn, rem2_odd by assumption; reflexivity).
  cbv zeta in Hcol |- *. rewrite Hcol. f_equal.
  replace (n - (c * c - c + 1)) with (2 * i) by (unfold n; lia).
  apply quot2_double.
Qed.

(** Every block number from 1 lies in exactly one shell
    [c*c - c + 1 .. c*c + c]. *)
Lemma shell_exists n : 1 <= n -> exists c, 1 <= c /\ c * c - c + 1 <= n <= c * c + c.
Proof.
  intros Hn. pose proof (Z.sqrt_spec n ltac:(lia)) as Hs. cbv zeta in Hs.
  pose proof (Z.sqrt_nonneg n) as H0.
  assert (Hpos : 1 <= Z.sqrt n) by nia.
  destruct (Z_le_gt_dec n (Z.sqrt n * Z.sqrt n + Z.sqrt n)).
  - exists (Z.sqrt n). nia.
  - exists (Z.sqrt n + 1). nia.
Qed.

Lemma shell_cases c n :
  1 <= c -> c * c - c + 1 <= n <= c * c + c ->
  (exists j, 0 <= j < c /\ n = c * c - c + 2 + 2 * j) \/
  (exists i, 0 <= i < c /\ n = c * c - c + 1 + 2 * i).
Proof.
  intros Hc Hn. destruct (pronic_even c) as [k Hk].
  destruct (Z.Even_or_Odd n) as [[m Hm] | [m Hm]].
  - left. exists (m - k - 1). lia.
  - right. exists (m - k). lia.
Qed.

Lemma blockAt_locateBlock n : 1 <= n -> blockAt (locateBlock n) = n.
Proof.
  intros Hn. destruct (shell_exists n Hn) as (c & Hc & Hcn).
  destruct (shell_cases c n Hc Hcn) as [(j & Hj & ->) | (i & Hi & ->)].
  - rewrite locateBlock_below by assumption. unfold blockAt.
    destruct (Z.ltb_spec j c); lia.
  - rewrite locateBlock_above by assumption. unfold blockAt.
    destruct (Z.ltb_spec c i); lia.
Qed.

Lemma locateBlock_blockAt i j :
  0 <= i -> 0 <= j -> i <> j -> locateBlock (blockAt (i, j)) = (i, j).
Proof.
  intros Hi Hj Hne. unfold blockAt. destruct (Z.ltb_spec j i).
  - apply locateBlock_below. lia.
  - apply locateBlock_above. lia.
Qed.

Lemma locateBlock_range d n :
  1 <= n <= d * d - d -> 0 <= d -> offDiagonal d (locateBlock n).
Proof.
  intros Hn Hd. destruct (shell_exists n ltac:(lia)) as (c & Hc & Hcn).
  assert (Hcd : c < d) by nia.
  destruct (shell_cases c n Hc Hcn) as [(j & Hj & ->) | (i & Hi & ->)].
  - rewrite locateBlock_below by assumption. unfold offDiagonal; simpl. lia.
  - rewrite locateBlock_above by assumption. unfold offDiagonal; simpl. lia.
Qed.

Lemma blockAt_range d i j :
  offDiagonal d (i, j) -> 1 <= blockAt (i, j) <= d * d - d.
Proof.
  unfold offDiagonal, blockAt; simpl. intros (Hi & Hj & Hne).
  destruct (Z.ltb_spec j i); nia.
Qed.

Lemma locateBlock_in_grid_iff d n :
  1 <= n -> 0 <= d -> offDiagonal d (locateBlock n) <-> n <= d * d - d.
Proof.
  intros Hn Hd. split.
  - intros Hoff. rewrite <- (blockAt_locateBlock n Hn).
    destruct (locateBlock n) as [i j]. apply (blockAt_range d i j Hoff).
  - intros Hle. apply locateBlock_range; lia.
Qed.

End Placement.

(** The dimensions up to [maxDimension] are those whose capacity is a block
    number below [maxInt]. *)
Lemma maxDimension_capacity d :
  1 <= d -> (d * d - d < maxInt <-> d <= maxDimension).
Proof. unfold maxInt, maxDimension. intros Hd. split; intros H; nia. Qed.

(** C1.  For every dimension [d >= 1] whose capacity [d*d - d] is an [int],
    that is up to [maxDimension], [locateBlock] restricted to the block
    numbers [1 .. d*d - d] is a bijection onto the off-diagonal cells of the
    [d] by [d] grid: every number in the range lands on an off-diagonal cell
    inside the grid, two numbers in the range with the same cell are equal,
    and every off-diagonal cell is the image of a number in the range.
    [locateBlock] takes the block number as its only argument, so its result
    depends on nothing else. *)
Theorem locateBlock_bijection (d : Z) :
  1 <= d <= maxDimension ->
  (forall n, 1 <= n <= d * d - d -> offDiagonal d (locateBlock n)) /\
  (forall n m, 1 <= n <= d * d - d -> 1 <= m <= d * d - d ->
               locateBlock n = locateBlock m -> n = m) /\
  (forall i j, offDiagonal d (i, j) ->
               exists n, 1 <= n <= d * d - d /\ locateBlock n = (i, j)).
Proof.
  intros [Hd _]. split; [|split].
  - intros n Hn. apply locateBlock_range; lia.
  - intros n m Hn Hm Heq.
    rewrite <- (blockAt_locateBlock n), <- (blockAt_locateBlock m) by lia.
    now rewrite Heq.
  - intros i j Hij. exists (blockAt (i, j)). split.
    + now apply blockAt_range.
    + destruct Hij as (Hi & Hj & Hne); simpl in *.
      apply locateBlock_blockAt; lia.
Qed.

Lemma locateBlock_bijection_witness :
  1 <= 3 <= maxDimension /\
  (forall n, 1 <= n <= 3 * 3 - 3 -> offDiagonal 3 (locateBlock n)) /\
  (forall n m, 1 <= n <= 3 * 3 - 3 -> 1 <= m <= 3 * 3 - 3 ->
               locateBlock n = locateBlock m -> n = m) /\
  (forall i j, offDiagonal 3 (i, j) ->
               exists n, 1 <= n <= 3 * 3 - 3 /\ locateBlock n = (i, j)).
Proof.
  assert (H3 : 1 <= 3 <= maxDimension) by (unfold maxDimension; lia).
  split; [exact H3 | apply (locateBlock_bijection 3 H3)].
Defined.

(** ** The block-number lists are the rows and columns of the placement *)

Lemma row_below_loop r n a acc :
  foldl (fun '(blocksNums, add) (col : Z) =>
           (blocksNums ++ [r * r - r + add], add + 2))
        (acc, 2 + 2 * a) (seqZ a n)
  = (acc ++ map (fun c => r * r - r + 2 + 2 * c) (seqZ a n),
     2 + 2 * (a + Z.max 0 n)).
Proof.
  revert a acc.
  induction n as [| n Hn IH |] using (Z.succ_pred_induction 0); intros a acc.
  - simpl. rewrite app_nil_r. f_equal. lia.
  - rewrite seqZ_cons by lia. rewrite Z.pred_succ. simpl.
    replace (2 + 2 * a + 2) with (2 + 2 * Z.succ a) by lia.
    rewrite IH, <- app_assoc. simpl. f_equal; [| lia].
    f_equal. f_equal. lia.
  - rewrite seqZ_nil by lia. simpl. rewrite app_nil_r. f_equal. lia.
Qed.

Lemma row_above_loop r n a acc :
  foldl (fun '(blocksNums, sub) (col : Z) =>
           (blocksNums ++ [col * col + col - sub], sub + 2))
        (acc, 1 + 2 * (a - (r + 1))) (seqZ a n)
  = (acc ++ map (fun c => c * c - c + 1 + 2 * r) (seqZ a n),
     1 + 2 * (a + Z.max 0 n - (r + 1))).
Proof.
  revert a acc.
  induction n as [| n Hn IH |] using (Z.succ_pred_induction 0); intros a acc.
  - simpl. rewrite app_nil_r. f_equal. lia.
  - rewrite seqZ_cons by lia. rewrite Z.pred_succ. simpl.
    replace (1 + 2 * (a - (r + 1)) + 2) with (1 + 2 * (Z.succ a - (r + 1))) by lia.
    rewrite IH, <- app_assoc. simpl. f_equal; [| lia].
    f_equal. f_equal. lia.
  - rewrite seqZ_nil by lia. simpl. rewrite app_nil_r. f_equal. lia.
Qed.

Lemma column_above_loop c n a acc :
  foldl (fun '(blocksNums, sub) (row : Z) =>
           (blocksNums ++ [c * c + c - sub], sub - 2))
        (acc, 2 * c - 1 - 2 * a) (seqZ a n)
  = (acc ++ map (fun r => c * c - c + 1 + 2 * r) (seqZ a n),
     2 * c - 1 - 2 * (a + Z.max 0 n)).
Proof.
  revert a acc.
  induction n as [| n Hn IH |] using (Z.succ_pred_induction 0); intros a acc.
  - simpl. rewrite app_nil_r. f_equal. lia.
  - rewrite seqZ_cons by lia. rewrite Z.pred_succ. simpl.
    replace (2 * c - 1 - 2 * a - 2) with (2 * c - 1 - 2 * Z.succ a) by lia.
    rewrite IH, <- app_assoc. simpl. f_equal; [| lia].
    f_equal. f_equal. lia.
  - rewrite seqZ_nil by lia. simpl. rewrite app_nil_r. f_equal. lia.
Qed.

Lemma column_below_loop c rows acc :
  foldl (fun blocksNums (row : Z) => blocksNums ++ [row * row - row + (2 * c + 2)])
        acc rows
  = acc ++ map (fun r => r * r - r + 2 + 2 * c) rows.
Proof.
  revert acc. induction rows as [| r rows IH]; intros acc; simpl.
  - now rewrite app_nil_r.
  - rewrite IH, <- app_assoc. simpl. f_equal. f_equal. lia.
Qed.

Lemma map_blockAt_below r cols :
  Forall (fun c => c < r) cols ->
  map (fun c => r * r - r + 2 + 2 * c) cols = map (fun c => blockAt (r, c)) cols.
Proof.
  induction 1 as [| c cols Hc _ IH]; simpl; [reflexivity |].
  rewrite IH. f_equal. destruct (Z.ltb_spec c r); lia.
Qed.

Lemma map_blockAt_above r cols :
  Forall (fun c => r < c) cols ->
  map (fun c => c * c - c + 1 + 2 * r) cols = map (fun c => blockAt (r, c)) cols.
Proof.
  induction 1 as [| c cols Hc _ IH]; simpl; [reflexivity |].
  rewrite IH. f_equal. destruct (Z.ltb_spec c r); lia.
Qed.

Lemma map_blockAt_column_above c rows :
  Forall (fun r => r < c) rows ->
  map (fun r => c * c - c + 1 + 2 * r) rows = map (fun r => blockAt (r, c)) rows.
Proof.
  induction 1 as [| r rows Hr _ IH]; simpl; [reflexivity |].
  rewrite IH. f_equal. destruct (Z.ltb_spec c r); lia.
Qed.

Lemma map_blockAt_column_below c rows :
  Forall (fun r => c < r) rows ->
  map (fun r => r * r - r + 2 + 2 * c) rows = map (fun r => blockAt (r, c)) rows.
Proof.
  induction 1 as [| r rows Hr _ IH]; simpl; [reflexivity |].
  rewrite IH. f_equal. destruct (Z.ltb_spec c r); lia.
Qed.

(** [rowBlockNumbers] lists the blocks of the row's cells in column order,
    the diagonal cell left out; [columnBlockNumbers] those of the column's
    cells in row order. *)
Lemma rowBlockNumbers_blockAt r blockCount :
  rowBlockNumbers r blockCount =
  map (fun c => blockAt (r, c))
      (seqZ 0 r ++ seqZ (r + 1) (Size blockCount - (r + 1))).
Proof.
  unfold rowBlockNumbers.
  pose proof (row_below_loop r r 0 []) as Hb.
  replace (2 + 2 * 0) with 2 in Hb by lia. rewrite Hb. cbn [fst].
  pose proof (row_above_loop r (Size blockCount - (r + 1)) (r + 1)
                ([] ++ map (fun c => r * r - r + 2 + 2 * c) (seqZ 0 r))) as Ha.
  replace (1 + 2 * (r + 1 - (r + 1))) with 1 in Ha by lia. rewrite Ha. cbn [fst].
  rewrite map_app. simpl. f_equal.
  - apply map_blockAt_below, Forall_seqZ. lia.
  - apply map_blockAt_above, Forall_seqZ. lia.
Qed.

Lemma columnBlockNumbers_blockAt c blockCount :
  columnBlockNumbers c blockCount =
  map (fun r => blockAt (r, c))
      (seqZ 0 c ++ seqZ (c + 1) (Size blockCount - (c + 1))).
Proof.
  unfold columnBlockNumbers.
  pose proof (column_above_loop c c 0 []) as Ha.
  replace (2 * c - 1 - 2 * 0) with (2 * c - 1) in Ha by lia. rewrite Ha. cbn [fst].
  rewrite column_below_loop. rewrite map_app. simpl. f_equal.
  - apply map_blockAt_column_above, Forall_seqZ. lia.
  - apply map_blockAt_column_below, Forall_seqZ. lia.
Qed.

(** Within the grid of [Size blockCount], the list of a row holds exactly
    the block numbers of the grid that [locateBlock] sends to that row, and
    likewise for a column. *)
Lemma rowBlockNumbers_locateBlock r blockCount n :
  0 <= r < Size blockCount ->
  n ∈ rowBlockNumbers r blockCount <->
  1 <= n <= Size blockCount * Size blockCount - Size blockCount /\
  fst (locateBlock n) = r.
Proof.
  intros Hr. rewrite rowBlockNumbers_blockAt, list_elem_of_fmap.
  setoid_rewrite elem_of_app. setoid_rewrite elem_of_seqZ. split.
  - intros (c & -> & Hc).
    assert (Hoff : offDiagonal (Size blockCount) (r, c))
      by (unfold offDiagonal; simpl; lia).
    split; [now apply blockAt_range |].
    rewrite locateBlock_blockAt; [reflexivity | lia | lia | lia].
  - intros [Hn Hrow].
    pose proof (locateBlock_range (Size blockCount) n Hn ltac:(lia)) as Hoff.
    pose proof (blockAt_locateBlock n ltac:(lia)) as Hinv.
    destruct (locateBlock n) as [i c]. simpl in Hrow. subst i.
    destruct Hoff as (_ & Hc & Hne). simpl in Hc, Hne.
    exists c. split; [now rewrite Hinv | lia].
Qed.

Lemma columnBlockNumbers_locateBlock c blockCount n :
  0 <= c < Size blockCount ->
  n ∈ columnBlockNumbers c blockCount <->
  1 <= n <= Size blockCount * Size blockCount - Size blockCount /\
  snd (locateBlock n) = c.
Proof.
  intros Hc. rewrite columnBlockNumbers_blockAt, list_elem_of_fmap.
  setoid_rewrite elem_of_app. setoid_rewrite elem_of_seqZ. split.
  - intros (r & -> & Hr).
    assert (Hoff : offDiagonal (Size blockCount) (r, c))
      by (unfold offDiagonal; simpl; lia).
    split; [now apply blockAt_range |].
    rewrite locateBlock_blockAt; [reflexivity | lia | lia | lia].
  - intros [Hn Hcol].
    pose proof (locateBlock_range (Size blockCount) n Hn ltac:(lia)) as Hoff.
    pose proof (blockAt_locateBlock n ltac:(lia)) as Hinv.
    destruct (locateBlock n) as [r j]. simpl in Hcol. subst j.
    destruct Hoff as (Hr & _ & Hne). simpl in Hr, Hne.
    exists r. split; [now rewrite Hinv | lia].
Qed.

(** ** The reference placement *)

(** C9, as stated, fails: block 3 already lies outside the 2 by 2 grid, in
    column 2, so blocks 1 to 4 do not all sit in the 2 by 2 grid and block 5
    is not the first block of the 3 by 3 shell. *)
Lemma placement_2x2_counterexample :
  locateBlock 3 = (0, 2) /\
  ~ (forall n, 1 <= n <= 4 -> offDiagonal 2 (locateBlock n)) /\
  ~ (forall n, 1 <= n -> ~ offDiagonal 2 (locateBlock n) -> 5 <= n).
Proof.
  split; [reflexivity | split].
  - intros H. specialize (H 3 ltac:(lia)).
    change (locateBlock 3) with (0, 2) in H.
    destruct H as (_ & H & _). simpl in H. lia.
  - intros H. specialize (H 3 ltac:(lia)).
    change (locateBlock 3) with (0, 2) in H.
    assert (Hout : ~ offDiagonal 2 (0, 2)).
    { intros (_ & Hc & _). simpl in Hc. lia. }
    specialize (H Hout). lia.
Qed.

(** C9, amended.  Block 1 maps to (row 0, column 1); block numbers 1 and 2
    occupy the two off-diagonal cells of the 2 by 2 grid and no other block
    lies in it; block 3 is the first block of the 3 by 3 shell, which is
    blocks 3 to 6, and block 7 is the first block outside the 3 by 3 grid. *)
Theorem placement_reference :
  locateBlock 1 = (0, 1) /\ locateBlock 2 = (1, 0) /\
  (forall n, 1 <= n -> offDiagonal 2 (locateBlock n) <-> n <= 2) /\
  (forall n, 1 <= n -> offDiagonal 3 (locateBlock n) <-> n <= 6) /\
  map locateBlock [3; 4; 5; 6] = [(0, 2); (2, 0); (1, 2); (2, 1)] /\
  Size 2 = 2 /\ Size 3 = 3 /\ Size 6 = 3 /\ Size 7 = 4.
Proof.
  split; [reflexivity | split; [reflexivity | split; [| split]]].
  - intros n Hn. rewrite locateBlock_in_grid_iff by lia. lia.
  - intros n Hn. rewrite locateBlock_in_grid_iff by lia. lia.
  - repeat apply conj; reflexivity.
Qed.

(** ** Stepping through the store monad *)

Lemma GetBlockMatrixInfo_stored db v :
  db !! "info" = Some v -> GetBlockMatrixInfo db = (unmarshalInfo v, db).
Proof.
  intros Hv. unfold GetBlockMatrixInfo, bind, dbHas, dbGet, lift.
  rewrite bool_decide_eq_true_2 by (rewrite Hv; eauto).
  simpl. rewrite Hv. now destruct (unmarshalInfo v).
Qed.

Lemma storedInfo_Some db info :
  storedInfo db = Some info <-> db !! "info" = Some (VInfo info).
Proof.
  unfold storedInfo. destruct (db !! "info") as [[n | b | i] |]; split;
    intros H; try discriminate; congruence.
Qed.

Lemma Sprint_ne_info n : Sprint n <> "info".
Proof.
  assert (Hgo : forall x s, pretty_N_go x s = "info" -> s = "info").
  { intros x. induction (N.lt_wf_0 x) as [x _ IH]. intros s Hs.
    destruct (decide (x = 0)%N) as [-> | Hx].
    - now rewrite pretty_N_go_0 in Hs.
    - rewrite pretty_N_go_step in Hs by lia.
      apply IH in Hs; [| apply N.div_lt; lia].
      exfalso. injection Hs as Hc _. revert Hc.
      unfold pretty_N_char. repeat case_match; discriminate. }
  unfold Sprint, pretty, pretty_Z. destruct n as [| p | p]; [discriminate | |].
  - unfold pretty, pretty_positive, pretty, pretty_N.
    case_decide; [discriminate |].
    intros Hp. apply Hgo in Hp. discriminate.
  - discriminate.
Qed.

Lemma bind_Ok {A B} (m : M A) (f : A -> M B) db a db' :
  m db = (Ok a, db') -> bind m f db = f a db'.
Proof. intros H. unfold bind. now rewrite H. Qed.

Lemma bind_not_Ok {A B} (m : M A) (f : A -> M B) db :
  (forall a, fst (m db) <> Ok a) ->
  snd (bind m f db) = snd (m db) /\ forall b, fst (bind m f db) <> Ok b.
Proof.
  intros H. unfold bind. destruct (m db) as [[a | e |] db']; simpl in *.
  - now destruct (H a).
  - split; [reflexivity | discriminate].
  - split; [reflexivity | discriminate].
Qed.

Lemma forEach_put keys v db :
  forEach keys (fun i => dbPut (Sprint i) v) db = (Ok tt, putAll keys v db).
Proof.
  revert db. induction keys as [| i keys IH]; intros db; [reflexivity |].
  simpl. unfold bind at 1. unfold dbPut at 1. apply IH.
Qed.

Lemma putAll_info keys v db : putAll keys v db !! "info" = db !! "info".
Proof.
  unfold putAll. revert db.
  induction keys as [| i keys IH]; intros db; simpl; [reflexivity |].
  rewrite IH. apply lookup_insert_ne, Sprint_ne_info.
Qed.

(** Reading blocks and hashing them leaves the store as it is. *)
Lemma writeHashes_db blocks h db : snd (writeHashes blocks h db) = db.
Proof.
  revert h. induction blocks as [| bn blocks IH]; intros h; [reflexivity |].
  simpl. unfold bind, GetBlockByNumber, bind, dbGet, lift.
  destruct (db !! Sprint bn) as [v |]; [| reflexivity].
  destruct (unmarshalBlock v); [apply IH | reflexivity | reflexivity].
Qed.

Lemma calculateRowHash_db row blockCount db :
  snd (calculateRowHash row blockCount db) = db.
Proof.
  unfold calculateRowHash, bind.
  pose proof (writeHashes_db (rowBlockNumbers row blockCount) [] db) as H.
  destruct (writeHashes _ _ db) as [[h | e |] db']; simpl in *; now subst.
Qed.

Lemma calculateColumnHash_db col blockCount db :
  snd (calculateColumnHash col blockCount db) = db.
Proof.
  unfold calculateColumnHash, bind.
  pose proof (writeHashes_db (columnBlockNumbers col blockCount) [] db) as H.
  destruct (writeHashes _ _ db) as [[h | e |] db']; simpl in *; now subst.
Qed.

Lemma assignIndex_cases l i (m : M slice) db :
  snd (m db) = db ->
  (exists h, m db = (Ok h, db) /\ 0 <= i < Z.of_nat (length l) /\
             assignIndex l i m db = (Ok (<[Z.to_nat i := h]> l), db)) \/
  (snd (assignIndex l i m db) = db /\ forall l', fst (assignIndex l i m db) <> Ok l').
Proof.
  intros Hdb. unfold assignIndex, setIndex.
  destruct (m db) as [[h | e |] db'] eqn:Hm; simpl in Hdb; subst db'.
  - destruct ((0 <=? i) && (i <? Z.of_nat (length l))) eqn:Hi.
    + left. exists h. repeat apply conj; [reflexivity | lia | lia | reflexivity].
    + right. split; [reflexivity | discriminate].
  - right. destruct ((0 <=? i) && (i <? Z.of_nat (length l)));
      (split; [reflexivity | discriminate]).
  - right. split; [reflexivity | discriminate].
Qed.

(** Both revisions are instances of the common shape. *)
Lemma AddBlock_later : AddBlock = AddBlockOf later.
Proof. reflexivity. Qed.

Lemma AddBlock_earlier : Legacy.AddBlock = AddBlockOf earlier.
Proof. reflexivity. Qed.

Lemma readsOnly_later : readsOnly later.
Proof.
  intros info i db _. split; [apply calculateRowHash_db | apply calculateColumnHash_db].
Qed.

Lemma updateHashes_db index (blockNumFunc : Z -> M (list Z)) hashes db :
  snd (blockNumFunc index db) = db ->
  snd (Legacy.updateHashes index blockNumFunc hashes db) = db.
Proof.
  intros Hf. unfold Legacy.updateHashes. unfold bind at 1.
  destruct (blockNumFunc index db) as [[blockNums | e |] db'];
    simpl in Hf; subst db'; [| reflexivity | reflexivity].
  unfold bind. pose proof (writeHashes_db blockNums [] db) as H.
  destruct (writeHashes _ _ db) as [[h | e |] db']; simpl in *; now subst.
Qed.

Lemma readsOnly_earlier : readsOnly earlier.
Proof.
  intros info i db [v Hv]. cbn [rowHash colHash earlier].
  split; apply updateHashes_db.
  - unfold Legacy.RowBlockNumbers, Legacy.GetBlockmatrixInfo, bind.
    rewrite (GetBlockMatrixInfo_stored db v Hv). now destruct (unmarshalInfo v).
  - unfold Legacy.ColumnBlockNumbers, Legacy.GetBlockmatrixInfo, bind.
    rewrite (GetBlockMatrixInfo_stored db v Hv). now destruct (unmarshalInfo v).
Qed.

(** [updateBlockMatrixInfo] either fails and leaves the store as it is, or
    stores the metadata with the digest of the block's row and of its column
    replaced and nothing else changed. *)
Lemma updateBlockMatrixInfoOf_cases rev info blockNum db :
  readsOnly rev -> is_Some (db !! "info") ->
  (exists hr hc,
      let row := fst (locateBlock blockNum) in
      let col := snd (locateBlock blockNum) in
      let info' := setCols (setRows info (<[Z.to_nat row := hr]> (Rows info)))
                           (<[Z.to_nat col := hc]> (Cols info)) in
      rowHash rev info row db = (Ok hr, db) /\
      0 <= row < Z.of_nat (length (Rows info)) /\
      0 <= col < Z.of_nat (length (Cols info)) /\
      updateBlockMatrixInfoOf rev info blockNum db =
        (Ok info', <["info" := VInfo info']> db)) \/
  (snd (updateBlockMatrixInfoOf rev info blockNum db) = db /\
   forall info', fst (updateBlockMatrixInfoOf rev info blockNum db) <> Ok info').
Proof.
  intros Hrev Hsome.
  unfold updateBlockMatrixInfoOf. destruct (locateBlock blockNum) as [row col].
  cbn [fst snd].
  destruct (assignIndex_cases (Rows info) row (rowHash rev info row) db
              (proj1 (Hrev info row db Hsome)))
    as [(hr & Hhr & Hrow & Hset) | [Hdb Hfail]].
  - rewrite (bind_Ok _ _ _ _ _ Hset).
    set (info1 := setRows info (<[Z.to_nat row := hr]> (Rows info))).
    destruct (assignIndex_cases (Cols info1) col (colHash rev info1 col) db
                (proj2 (Hrev info1 col db Hsome)))
      as [(hc & Hhc & Hcol & Hset') | [Hdb Hfail]].
    + left. exists hr, hc. rewrite (bind_Ok _ _ _ _ _ Hset').
      repeat apply conj; try assumption; try reflexivity; apply Hrow || apply Hcol.
    + right. destruct (bind_not_Ok _
        (fun cols => dbPut "info" (VInfo (setCols info1 cols)) >>
                     ret (setCols info1 cols))
        db Hfail) as [H1 H2].
      split; [now rewrite H1 | exact H2].
  - right. destruct (bind_not_Ok _
        (fun rows =>
           let* cols := assignIndex (Cols (setRows info rows)) col
                          (colHash rev (setRows info rows) col) in
           dbPut "info" (VInfo (setCols (setRows info rows) cols)) >>
           ret (setCols (setRows info rows) cols))
        db Hfail) as [H1 H2].
    split; [now rewrite H1 | exact H2].
Qed.

(** ** Block numbers in the test scenario *)

Lemma blockNumbers_by_Size idx blockCount blockCount' :
  Size blockCount = Size blockCount' ->
  rowBlockNumbers idx blockCount = rowBlockNumbers idx blockCount' /\
  columnBlockNumbers idx blockCount = columnBlockNumbers idx blockCount'.
Proof.
  intros Heq. unfold rowBlockNumbers, columnBlockNumbers.
  now rewrite Heq.
Qed.

(** With the block count read from the store, the earlier revision's
    [RowBlockNumbers] and [ColumnBlockNumbers] return the lists of the later
    revision's pure functions. *)
Lemma Legacy_BlockNumbers_stored db info idx :
  db !! "info" = Some (VInfo info) ->
  Legacy.RowBlockNumbers idx db = (Ok (rowBlockNumbers idx (BlockCount info)), db) /\
  Legacy.ColumnBlockNumbers idx db = (Ok (columnBlockNumbers idx (BlockCount info)), db).
Proof.
  intros Hinfo.
  unfold Legacy.RowBlockNumbers, Legacy.ColumnBlockNumbers,
    Legacy.GetBlockmatrixInfo, bind.
  rewrite (GetBlockMatrixInfo_stored db _ Hinfo). split; reflexivity.
Qed.

(** C2.  With 5 blocks in the matrix [RowBlockNumbers(2)] is [[4, 6]] and
    [ColumnBlockNumbers(1)] is [[1, 6]]; with 25 blocks [RowBlockNumbers(0)]
    is [[1, 3, 7, 13, 21]] and [ColumnBlockNumbers(3)] is
    [[7, 9, 11, 20, 28]].  This holds for the pure functions at block counts
    5 and 25, for the store-reading functions on every store whose metadata
    has that block count, and so on the stores the test builds (5 inserts,
    then 20 more); two block counts with the same [Size] give the same
    lists. *)
Theorem block_numbers_at_5_and_25 :
  (rowBlockNumbers 2 5 = [4; 6] /\ columnBlockNumbers 1 5 = [1; 6] /\
   rowBlockNumbers 0 25 = [1; 3; 7; 13; 21] /\
   columnBlockNumbers 3 25 = [7; 9; 11; 20; 28]) /\
  (forall db info,
      storedInfo db = Some info -> BlockCount info = 5 ->
      Legacy.RowBlockNumbers 2 db = (Ok [4; 6], db) /\
      Legacy.ColumnBlockNumbers 1 db = (Ok [1; 6], db)) /\
  (forall db info,
      storedInfo db = Some info -> BlockCount info = 25 ->
      Legacy.RowBlockNumbers 0 db = (Ok [1; 3; 7; 13; 21], db) /\
      Legacy.ColumnBlockNumbers 3 db = (Ok [7; 9; 11; 20; 28], db)) /\
  (let db5 := run (createTestBlocks Legacy.AddBlock 5) fresh in
   let db25 := run (createTestBlocks Legacy.AddBlock 20) db5 in
   fst (createTestBlocks Legacy.AddBlock 5 fresh) = Ok tt /\
   BlockCount <$> storedInfo db5 = Some 5 /\
   fst (Legacy.RowBlockNumbers 2 db5) = Ok [4; 6] /\
   fst (Legacy.ColumnBlockNumbers 1 db5) = Ok [1; 6] /\
   fst (createTestBlocks Legacy.AddBlock 20 db5) = Ok tt /\
   BlockCount <$> storedInfo db25 = Some 25 /\
   fst (Legacy.RowBlockNumbers 0 db25) = Ok [1; 3; 7; 13; 21] /\
   fst (Legacy.ColumnBlockNumbers 3 db25) = Ok [7; 9; 11; 20; 28]) /\
  (forall idx blockCount blockCount',
      Size blockCount = Size blockCount' ->
      rowBlockNumbers idx blockCount = rowBlockNumbers idx blockCount' /\
      columnBlockNumbers idx blockCount = columnBlockNumbers idx blockCount').
Proof.
  split; [| split; [| split; [| split]]].
  - repeat apply conj; reflexivity.
  - intros db info Hstored Hc. apply storedInfo_Some in Hstored.
    destruct (Legacy_BlockNumbers_stored db info 2 Hstored) as [Hr _].
    destruct (Legacy_BlockNumbers_stored db info 1 Hstored) as [_ Hk].
    rewrite Hc in Hr, Hk. auto.
  - intros db info Hstored Hc. apply storedInfo_Some in Hstored.
    destruct (Legacy_BlockNumbers_stored db info 0 Hstored) as [Hr _].
    destruct (Legacy_BlockNumbers_stored db info 3 Hstored) as [_ Hk].
    rewrite Hc in Hr, Hk. auto.
  - vm_compute. repeat apply conj; reflexivity.
  - apply blockNumbers_by_Size.
Qed.

(** ** [AddBlock], step by step *)

Lemma AddBlockOf_unfold rev key data db info :
  db !! "info" = Some (VInfo info) ->
  AddBlockOf rev key data db =
  (let* _ := updateBlockMatrixInfoOf rev (infoBeforeDigests info) (BlockCount info + 1) in
   ret tt) (storeBeforeDigests rev key data info db).
Proof.
  intros Hinfo. unfold AddBlockOf.
  rewrite (bind_Ok _ _ _ _ _ (GetBlockMatrixInfo_stored db _ Hinfo)).
  unfold infoBeforeDigests, storeBeforeDigests, grows. cbn [BlockCount setBlockCount Info.Size].
  destruct (Size (BlockCount info + 1) >? Info.Size info).
  - unfold updateBlockMatrixSizeOf. cbn [BlockCount setBlockCount setSize Info.Size].
    unfold bind at 1. unfold bind at 1. rewrite forEach_put. cbn [ret].
    unfold bind at 1. unfold dbPut at 1. unfold bind at 1. unfold dbPut at 1.
    reflexivity.
  - unfold bind at 1. cbn [ret]. unfold bind at 1. unfold dbPut at 1.
    unfold bind at 1. unfold dbPut at 1. reflexivity.
Qed.

Lemma AddBlockOf_unreadable rev key data db n :
  db !! "info" = Some (VNum n) ->
  AddBlockOf rev key data db = (Err ErrUnmarshal, db).
Proof.
  intros Hinfo. unfold AddBlockOf, bind.
  now rewrite (GetBlockMatrixInfo_stored db _ Hinfo).
Qed.

Lemma storeBeforeDigests_info rev key data info db :
  storeBeforeDigests rev key data info db !! "info" =
  if decide (key = "info") then Some (VNum (BlockCount info + 1)) else db !! "info".
Proof.
  unfold storeBeforeDigests.
  rewrite lookup_insert_ne by apply Sprint_ne_info.
  rewrite lookup_insert. destruct (decide (key = "info")); [reflexivity |].
  destruct (grows info); [apply putAll_info | reflexivity].
Qed.

(** The outcomes of [AddBlock] on readable metadata: it succeeds and stores
    metadata that differs from [infoBeforeDigests] in the digest of the new
    block's row and of its column only, or it fails and the metadata record
    is the old one, or the number record of the key ["info"]. *)
Lemma AddBlockOf_cases rev key data db info :
  readsOnly rev ->
  db !! "info" = Some (VInfo info) ->
  let blockNum := BlockCount info + 1 in
  let row := fst (locateBlock blockNum) in
  let col := snd (locateBlock blockNum) in
  let info1 := infoBeforeDigests info in
  (exists hr hc,
      let info' := setCols (setRows info1 (<[Z.to_nat row := hr]> (Rows info1)))
                           (<[Z.to_nat col := hc]> (Cols info1)) in
      0 <= row < Z.of_nat (length (Rows info1)) /\
      0 <= col < Z.of_nat (length (Cols info1)) /\
      AddBlockOf rev key data db =
        (Ok tt, <["info" := VInfo info']> (storeBeforeDigests rev key data info db))) \/
  ((forall u, fst (AddBlockOf rev key data db) <> Ok u) /\
   (run (AddBlockOf rev key data) db !! "info" = Some (VInfo info) \/
    run (AddBlockOf rev key data) db !! "info" = Some (VNum blockNum))).
Proof.
  intros Hrev Hinfo. cbv zeta. unfold run.
  rewrite (AddBlockOf_unfold _ _ _ _ _ Hinfo).
  assert (Hsome : is_Some (storeBeforeDigests rev key data info db !! "info")).
  { rewrite storeBeforeDigests_info. destruct (decide (key = "info")); eauto. }
  destruct (updateBlockMatrixInfoOf_cases rev (infoBeforeDigests info)
              (BlockCount info + 1) (storeBeforeDigests rev key data info db)
              Hrev Hsome)
    as [(hr & hc & _ & Hrow & Hcol & Hupd) | [Hdb Hfail]].
  - left. exists hr, hc. cbv zeta in Hupd.
    rewrite (bind_Ok _ _ _ _ _ Hupd). auto.
  - right. destruct (bind_not_Ok _ (fun _ : BlockMatrixInfo => ret tt) _ Hfail) as [H1 H2].
    split; [exact H2 |]. rewrite H1, Hdb, storeBeforeDigests_info.
    destruct (decide (key = "info")); auto.
Qed.

(** ** Growth policy *)

Lemma Size_least blockCount :
  1 <= blockCount -> leastDimension blockCount (Size blockCount).
Proof.
  intros Hbc. unfold leastDimension, Size, ceilSqrt.
  pose proof (Z.sqrt_up_spec blockCount ltac:(lia)) as Hs. cbv zeta in Hs.
  pose proof (Z.sqrt_up_nonneg blockCount) as H0.
  set (c := Z.sqrt_up blockCount) in *.
  replace (Z.pred c) with (c - 1) in Hs by lia.
  assert (Hc : 1 <= c) by nia.
  destruct (Z.ltb_spec (c * c - c) blockCount) as [Hlt | Hge].
  - repeat apply conj; [lia | nia |].
    intros m Hm Hfit. destruct (Z_le_gt_dec (c + 1) m); [assumption | nia].
  - repeat apply conj; [lia | lia |].
    intros m Hm Hfit. destruct (Z_le_gt_dec c m); [assumption | nia].
Qed.

Lemma leastDimension_unique blockCount n m :
  leastDimension blockCount n -> leastDimension blockCount m -> n = m.
Proof.
  intros (Hn1 & Hn2 & Hn3) (Hm1 & Hm2 & Hm3).
  specialize (Hn3 m Hm1 Hm2). specialize (Hm3 n Hn1 Hn2). lia.
Qed.

Lemma leastDimension_mono a b n m :
  a <= b -> leastDimension a n -> leastDimension b m -> n <= m.
Proof.
  intros Hab (_ & _ & Hn) (Hm1 & Hm2 & _). apply Hn; lia.
Qed.

Lemma leastDimension_0 : leastDimension 0 1.
Proof. unfold leastDimension. repeat apply conj; [lia | lia | intros; lia]. Qed.

Lemma infoBeforeDigests_dimension info :
  0 <= BlockCount info ->
  leastDimension (BlockCount info) (Info.Size info) ->
  BlockCount (infoBeforeDigests info) = BlockCount info + 1 /\
  Info.Size (infoBeforeDigests info) = Size (BlockCount info + 1) /\
  Info.Size info <= Size (BlockCount info + 1).
Proof.
  intros Hbc Hleast.
  pose proof (Size_least (BlockCount info + 1) ltac:(lia)) as Hnew.
  pose proof (leastDimension_mono (BlockCount info) (BlockCount info + 1) _ _
                ltac:(lia) Hleast Hnew) as Hle.
  unfold infoBeforeDigests, grows.
  destruct (Z.gtb_spec (Size (BlockCount info + 1)) (Info.Size info)) as [Hgt | Hngt];
    cbn [BlockCount Info.Size setBlockCount setSize setRows setCols];
    repeat apply conj; lia.
Qed.

Lemma revision_of addBlock :
  addBlock = AddBlock \/ addBlock = Legacy.AddBlock ->
  exists rev, readsOnly rev /\ addBlock = AddBlockOf rev.
Proof.
  intros [-> | ->].
  - exists later. split; [apply readsOnly_later | apply AddBlock_later].
  - exists earlier. split; [apply readsOnly_earlier | apply AddBlock_earlier].
Qed.

Lemma AddBlockOf_preserves_infoInvariant rev key data db :
  readsOnly rev ->
  infoInvariant db -> infoInvariant (run (AddBlockOf rev key data) db).
Proof.
  intros Hrev [(info & Hinfo & Hbc & Hleast) | (n & Hn)].
  - destruct (infoBeforeDigests_dimension info Hbc Hleast) as (Hc & Hs & _).
    destruct (AddBlockOf_cases rev key data db info Hrev Hinfo)
      as [(hr & hc & _ & _ & Hadd) | [_ [Hold | Hnum]]].
    + left. unfold run. rewrite Hadd. cbn [snd]. eexists. split.
      * apply lookup_insert_eq.
      * cbn [BlockCount Info.Size setRows setCols]. rewrite Hc, Hs.
        split; [lia | apply Size_least; lia].
    + left. exists info. auto.
    + right. eauto.
  - right. exists n. unfold run. now rewrite (AddBlockOf_unreadable _ _ _ _ _ Hn).
Qed.

Lemma fresh_info :
  fresh !! "info" = Some (VInfo {| Info.Size := 1; Info.BlockCount := 0;
                                   Info.Rows := [None]; Info.Cols := [None] |}).
Proof. reflexivity. Qed.

Lemma reachable_infoInvariant rev db :
  readsOnly rev -> reachable (AddBlockOf rev) db -> infoInvariant db.
Proof.
  intros Hrev. induction 1 as [| db key data _ IH].
  - left. eexists. split; [apply fresh_info |].
    cbn [BlockCount Info.Size]. split; [lia | apply leastDimension_0].
  - now apply AddBlockOf_preserves_infoInvariant.
Qed.

(** C3, as stated, fails in the freshly initialised matrix: the stored
    dimension is 1, while [Size] of the block count 0 is 0, and 0 is a
    smaller [n] with [n*n - n >= 0]. *)
Lemma dimension_counterexample :
  ~ (forall db info,
        reachable AddBlock db -> storedInfo db = Some info ->
        Info.Size info = Size (BlockCount info)) /\
  ~ (forall db info,
        reachable AddBlock db -> storedInfo db = Some info ->
        forall m, 0 <= m -> m * m - m >= BlockCount info -> Info.Size info <= m).
Proof.
  pose proof (proj2 (storedInfo_Some _ _) fresh_info) as Hstored.
  split; intros H.
  - specialize (H fresh _ (reachable_New _) Hstored).
    cbn [Info.Size BlockCount] in H. discriminate H.
  - specialize (H fresh _ (reachable_New _) Hstored 0 ltac:(lia)).
    cbn [Info.Size BlockCount] in H. lia.
Qed.

(** C3, amended.  In every state reachable from the freshly initialised
    matrix by [AddBlock] calls (of either revision), the stored dimension is
    the smallest [n] from 1 with [n*n - n >= blockCount], so
    [0 <= blockCount <= dimension^2 - dimension]; for a block count of at
    least 1 it is [Size(blockCount)]; a further [AddBlock] never lowers it,
    and a successful one stores block count plus one with dimension [Size] of
    the new block count. *)
Theorem dimension_invariant addBlock db info :
  addBlock = AddBlock \/ addBlock = Legacy.AddBlock ->
  reachable addBlock db -> storedInfo db = Some info ->
  leastDimension (BlockCount info) (Info.Size info) /\
  0 <= BlockCount info <= Info.Size info * Info.Size info - Info.Size info /\
  (1 <= BlockCount info -> Info.Size info = Size (BlockCount info)) /\
  (forall key data info',
      storedInfo (run (addBlock key data) db) = Some info' ->
      Info.Size info <= Info.Size info') /\
  (forall key data,
      fst (addBlock key data db) = Ok tt ->
      exists info',
        storedInfo (run (addBlock key data) db) = Some info' /\
        BlockCount info' = BlockCount info + 1 /\
        Info.Size info' = Size (BlockCount info')).
Proof.
  intros Hrevision Hreach Hstored. apply storedInfo_Some in Hstored.
  destruct (revision_of addBlock Hrevision) as (rev & Hrev & ->).
  destruct (reachable_infoInvariant rev db Hrev Hreach)
    as [(info0 & Hinfo & Hbc & Hleast) | (n & Hn)]; [| congruence].
  assert (info0 = info) by congruence. subst info0.
  destruct (infoBeforeDigests_dimension info Hbc Hleast) as (Hc & Hs & Hle).
  refine (conj Hleast (conj _ (conj _ (conj _ _)))).
  - destruct Hleast as (_ & Hfit & _). lia.
  - intros H1. apply (leastDimension_unique (BlockCount info)); [exact Hleast |].
    now apply Size_least.
  - intros key data info' Hstored'. apply storedInfo_Some in Hstored'.
    destruct (AddBlockOf_cases rev key data db info Hrev Hinfo)
      as [(hr & hc & _ & _ & Hadd) | [_ [Hold | Hnum]]].
    + unfold run in Hstored'. rewrite Hadd in Hstored'. cbn [snd] in Hstored'.
      rewrite lookup_insert_eq in Hstored'. injection Hstored' as <-.
      cbn [Info.Size setRows setCols]. lia.
    + assert (info' = info) by congruence. subst. lia.
    + congruence.
  - intros key data Hok.
    destruct (AddBlockOf_cases rev key data db info Hrev Hinfo)
      as [(hr & hc & _ & _ & Hadd) | [Hfail _]].
    + eexists. split.
      * apply storedInfo_Some. unfold run. rewrite Hadd. apply lookup_insert_eq.
      * cbn [BlockCount Info.Size setRows setCols]. rewrite Hc, Hs. auto.
    + now destruct (Hfail tt).
Qed.

Lemma dimension_invariant_witness :
  let db := run (AddBlock "k1" (Some [x01])) fresh in
  exists info,
    reachable AddBlock db /\ storedInfo db = Some info /\
    leastDimension (BlockCount info) (Info.Size info) /\
    BlockCount info = 1 /\ Info.Size info = 2.
Proof.
  cbv zeta. eexists.
  split; [apply reachable_AddBlock, reachable_New |].
  split; [vm_compute; reflexivity |].
  split; [| split; reflexivity].
  refine (proj1 (dimension_invariant AddBlock
                   (run (AddBlock "k1" (Some [x01])) fresh) _ _ _ _)).
  - left. reflexivity.
  - apply reachable_AddBlock, reachable_New.
  - vm_compute. reflexivity.
Defined.

(** ** Digest locality of an insert *)

Lemma filter_none {A} (P : A -> Prop) `{forall x, Decision (P x)} (l : list A) :
  (forall x, x ∈ l -> ~ P x) -> filter P l = [].
Proof.
  induction l as [| x l IH]; intros Hl; [reflexivity |].
  rewrite filter_cons. destruct (decide (P x)) as [Hx | _].
  - destruct (Hl x); [left | exact Hx].
  - apply IH. intros y Hy. apply Hl. now right.
Qed.

Lemma filter_at_most_one (P : nat -> Prop) `{forall x, Decision (P x)}
    (l : list nat) (r : nat) :
  NoDup l -> (forall i, i ∈ l -> P i -> i = r) ->
  (length (filter P l) <= 1)%nat.
Proof.
  induction 1 as [| x l Hx Hnd IH]; intros Hr; [simpl; lia |].
  rewrite filter_cons. destruct (decide (P x)) as [HPx | _].
  - rewrite filter_none; [simpl; lia |].
    intros y Hy HPy.
    assert (y = r) by (apply Hr; [now right | exact HPy]).
    assert (x = r) by (apply Hr; [left | exact HPx]).
    congruence.
  - apply IH. intros i Hi. apply Hr. now right.
Qed.

(** Two digest lists that agree everywhere but at position [r] differ in at
    most one position. *)
Lemma numChanged_at_most_one (old new : list slice) (r : nat) :
  (forall i, i <> r -> old !! i = new !! i) ->
  (numChanged old new <= 1)%nat.
Proof.
  intros Hframe. unfold numChanged.
  apply (filter_at_most_one _ _ r); [apply NoDup_seq |].
  intros i _ Hi. destruct (decide (i = r)) as [-> | Hne]; [reflexivity |].
  now destruct (Hi (Hframe i Hne)).
Qed.

Lemma infoBeforeDigests_Rows info :
  Rows (infoBeforeDigests info) =
  Rows info ++ (if grows info then [Some []] else []).
Proof.
  unfold infoBeforeDigests. destruct (grows info); cbn; [reflexivity |].
  now rewrite app_nil_r.
Qed.

Lemma infoBeforeDigests_Cols info :
  Cols (infoBeforeDigests info) =
  Cols info ++ (if grows info then [Some []] else []).
Proof.
  unfold infoBeforeDigests. destruct (grows info); cbn; [reflexivity |].
  now rewrite app_nil_r.
Qed.

Lemma insert_app_frame (l ext : list slice) (r i : nat) (h : slice) :
  (i < length l)%nat -> i <> r -> <[r := h]> (l ++ ext) !! i = l !! i.
Proof.
  intros Hi Hne. rewrite list_lookup_insert_ne by congruence.
  now apply lookup_app_l.
Qed.

Lemma frame_take (old new : list slice) (r : nat) :
  (length old <= length new)%nat ->
  (forall i, (i < length old)%nat -> i <> r -> new !! i = old !! i) ->
  forall i, i <> r -> old !! i = take (length old) new !! i.
Proof.
  intros Hlen Hframe i Hne. destruct (Nat.lt_ge_cases i (length old)) as [Hi | Hi].
  - rewrite lookup_take_lt by exact Hi. symmetry. now apply Hframe.
  - rewrite lookup_ge_None_2 by exact Hi.
    rewrite lookup_ge_None_2; [reflexivity |]. rewrite length_take. lia.
Qed.

(** C8, as stated, fails.  Inserting a fifth block whose data is the single
    byte 0 succeeds and leaves every column digest as it was: the block
    replaces an empty block with the same hash in column 2.  Inserting the
    third block grows the matrix: its column digest is a new entry, and none
    of the column digests that existed before differs. *)
Lemma insert_digest_counterexample :
  (let db := run (addNumbered AddBlock 4) fresh in
   let db' := run (AddBlock "k5" (Some [x00])) db in
   fst (AddBlock "k5" (Some [x00]) db) = Ok tt /\
   locateBlock 5 = (1, 2) /\
   exists info info',
     storedInfo db = Some info /\ storedInfo db' = Some info' /\
     Cols info' = Cols info /\ numChanged (Cols info) (Cols info') = 0%nat) /\
  (let db := run (addNumbered AddBlock 2) fresh in
   let db' := run (AddBlock "k3" (Some [x03])) db in
   fst (AddBlock "k3" (Some [x03]) db) = Ok tt /\
   locateBlock 3 = (0, 2) /\
   exists info info',
     storedInfo db = Some info /\ storedInfo db' = Some info' /\
     length (Cols info) = 2%nat /\ length (Cols info') = 3%nat /\
     take 2 (Cols info') = Cols info /\
     numChanged (Rows info) (Rows info') = 2%nat).
Proof.
  split; cbv zeta.
  - split; [vm_compute; reflexivity | split; [reflexivity |]].
    eexists. eexists.
    split; [vm_compute; reflexivity |].
    split; [vm_compute; reflexivity |].
    split; vm_compute; reflexivity.
  - split; [vm_compute; reflexivity | split; [reflexivity |]].
    eexists. eexists.
    split; [vm_compute; reflexivity |].
    split; [vm_compute; reflexivity |].
    repeat apply conj; vm_compute; reflexivity.
Qed.

(** C8, amended.  After a successful [AddBlock], every row digest and every
    column digest that existed before the insert, other than the one of the
    inserted block's row and the one of its column, is byte-identical to its
    value before the insert; so at most one row digest and at most one
    column digest among those that existed before differ.  An insert that
    grows the matrix appends one entry to each list. *)
Theorem AddBlock_digest_frame db key data info :
  storedInfo db = Some info ->
  fst (AddBlock key data db) = Ok tt ->
  exists info',
    storedInfo (run (AddBlock key data) db) = Some info' /\
    let row := Z.to_nat (fst (locateBlock (BlockCount info + 1))) in
    let col := Z.to_nat (snd (locateBlock (BlockCount info + 1))) in
    (forall i, (i < length (Rows info))%nat -> i <> row ->
               Rows info' !! i = Rows info !! i) /\
    (forall i, (i < length (Cols info))%nat -> i <> col ->
               Cols info' !! i = Cols info !! i) /\
    (numChanged (Rows info) (take (length (Rows info)) (Rows info')) <= 1)%nat /\
    (numChanged (Cols info) (take (length (Cols info)) (Cols info')) <= 1)%nat /\
    length (Rows info') = (length (Rows info) + if grows info then 1 else 0)%nat /\
    length (Cols info') = (length (Cols info) + if grows info then 1 else 0)%nat.
Proof.
  intros Hstored Hok. apply storedInfo_Some in Hstored.
  rewrite AddBlock_later in *.
  destruct (AddBlockOf_cases later key data db info readsOnly_later Hstored)
    as [(hr & hc & _ & _ & Hadd) | [Hfail _]]; [| now destruct (Hfail tt)].
  eexists. split.
  { apply storedInfo_Some. unfold run. rewrite Hadd. apply lookup_insert_eq. }
  cbv zeta. cbn [Rows Cols setRows setCols].
  rewrite infoBeforeDigests_Rows, infoBeforeDigests_Cols.
  assert (Hrows : forall i, (i < length (Rows info))%nat ->
            i <> Z.to_nat (fst (locateBlock (BlockCount info + 1))) ->
            <[Z.to_nat (fst (locateBlock (BlockCount info + 1))) := hr]>
              (Rows info ++ (if grows info then [Some []] else [])) !! i
            = Rows info !! i)
    by (intros; now apply insert_app_frame).
  assert (Hcols : forall i, (i < length (Cols info))%nat ->
            i <> Z.to_nat (snd (locateBlock (BlockCount info + 1))) ->
            <[Z.to_nat (snd (locateBlock (BlockCount info + 1))) := hc]>
              (Cols info ++ (if grows info then [Some []] else [])) !! i
            = Cols info !! i)
    by (intros; now apply insert_app_frame).
  assert (Hlr : forall (l : list slice) r h,
            length (<[r := h]> (l ++ (if grows info then [Some []] else [])))
            = (length l + if grows info then 1 else 0)%nat).
  { intros l r h. rewrite length_insert, length_app.
    now destruct (grows info). }
  refine (conj Hrows (conj Hcols (conj _ (conj _ (conj (Hlr _ _ _) (Hlr _ _ _)))))).
  - eapply numChanged_at_most_one, frame_take; [rewrite Hlr; lia | exact Hrows].
  - eapply numChanged_at_most_one, frame_take; [rewrite Hlr; lia | exact Hcols].
Qed.

Lemma AddBlock_digest_frame_witness :
  let db := run (addNumbered AddBlock 2) fresh in
  exists info,
    storedInfo db = Some info /\
    fst (AddBlock "k3" (Some [x03]) db) = Ok tt /\
    exists info',
      storedInfo (run (AddBlock "k3" (Some [x03])) db) = Some info' /\
      (numChanged (Rows info) (take (length (Rows info)) (Rows info')) <= 1)%nat /\
      (numChanged (Cols info) (take (length (Cols info)) (Cols info')) <= 1)%nat.
Proof.
  cbv zeta. eexists.
  split; [vm_compute; reflexivity |].
  split; [vm_compute; reflexivity |].
  destruct (AddBlock_digest_frame (run (addNumbered AddBlock 2) fresh)
              "k3" (Some [x03]) _ ltac:(vm_compute; reflexivity)
              ltac:(vm_compute; reflexivity))
    as (info' & Hstored & _ & _ & Hr & Hc & _).
  exists info'. auto.
Defined.

(** ** Inserts under ordinary keys succeed *)

Lemma Sprint_inj n m : Sprint n = Sprint m -> n = m.
Proof. unfold Sprint. apply pretty_Z_inj. Qed.

Lemma putAll_lookup keys v db n :
  putAll keys v db !! Sprint n =
  if decide (n ∈ keys) then Some v else db !! Sprint n.
Proof.
  unfold putAll. revert db.
  induction keys as [| k keys IH]; intros db; simpl; [reflexivity |].
  rewrite IH. destruct (decide (n ∈ keys)) as [Hin | Hnin].
  - rewrite decide_True by now right. reflexivity.
  - destruct (decide (n = k)) as [-> | Hne].
    + rewrite decide_True by left. apply lookup_insert_eq.
    + rewrite decide_False by (rewrite elem_of_cons; tauto).
      apply lookup_insert_ne. intros H. apply Hne. symmetry. now apply Sprint_inj.
Qed.

Lemma writeHashes_ok blocks h db :
  (forall n, n ∈ blocks -> exists b, db !! Sprint n = Some (VBlock b)) ->
  exists h', writeHashes blocks h db = (Ok h', db).
Proof.
  revert h. induction blocks as [| bn blocks IH]; intros h Hall.
  - exists h. reflexivity.
  - destruct (Hall bn ltac:(left)) as [b Hb].
    destruct (IH (h ++ content (Hash b))
                 (fun n Hn => Hall n ltac:(now right))) as [h' Hh'].
    exists h'. simpl. unfold bind at 1.
    unfold GetBlockByNumber, bind, dbGet, lift. rewrite Hb. exact Hh'.
Qed.

Lemma assignIndex_Ok l i (m : M slice) db h :
  m db = (Ok h, db) -> 0 <= i < Z.of_nat (length l) ->
  assignIndex l i m db = (Ok (<[Z.to_nat i := h]> l), db).
Proof.
  intros Hm Hi. unfold assignIndex, setIndex. rewrite Hm.
  replace ((0 <=? i) && (i <? Z.of_nat (length l))) with true
    by (symmetry; apply andb_true_intro; split; lia).
  reflexivity.
Qed.

(** When the matrix grows, the block count was at the capacity of the old
    dimension and the new dimension is one more. *)
Lemma grows_at_capacity info :
  0 <= BlockCount info ->
  leastDimension (BlockCount info) (Info.Size info) ->
  let size := Info.Size info in
  if grows info
  then BlockCount info = size * size - size /\ Size (BlockCount info + 1) = size + 1
  else BlockCount info + 1 <= size * size - size /\ Size (BlockCount info + 1) = size.
Proof.
  intros Hbc (Hs1 & Hfit & Hmin). cbv zeta. unfold grows.
  destruct (Size_least (BlockCount info + 1) ltac:(lia)) as (Hn1 & Hnfit & Hnmin).
  set (size := Info.Size info) in *. set (size' := Size (BlockCount info + 1)) in *.
  assert (Hle : size <= size') by (apply Hmin; lia).
  assert (Hup : size' <= size + 1) by (apply Hnmin; nia).
  destruct (Z.gtb_spec size' size) as [Hgt | Hngt].
  - split; [| lia].
    destruct (Z_le_gt_dec (BlockCount info + 1) (size * size - size)) as [Hroom |]; [| lia].
    specialize (Hnmin size Hs1 Hroom). lia.
  - assert (size' = size) by lia. split; [nia | assumption].
Qed.

Lemma storeBeforeDigests_blocks key data info db n :
  ordinaryKey key ->
  0 <= BlockCount info ->
  leastDimension (BlockCount info) (Info.Size info) ->
  (forall m, 1 <= m <= Info.Size info * Info.Size info - Info.Size info ->
             exists b, db !! Sprint m = Some (VBlock b)) ->
  let size' := Size (BlockCount info + 1) in
  1 <= n <= size' * size' - size' ->
  exists b, storeBeforeDigests later key data info db !! Sprint n = Some (VBlock b).
Proof.
  intros [_ Hkey] Hbc Hleast Hblocks. cbv zeta. intros Hn.
  pose proof (grows_at_capacity info Hbc Hleast) as Hg. cbv zeta in Hg.
  unfold storeBeforeDigests, Itoa.
  destruct (decide (n = BlockCount info + 1)) as [-> | Hne].
  - eexists. apply lookup_insert_eq.
  - rewrite lookup_insert_ne
      by (intros H; apply Hne; symmetry; now apply Sprint_inj).
    rewrite lookup_insert_ne by apply Hkey.
    destruct (grows info).
    + destruct Hg as [Hcap Hsize]. rewrite putAll_lookup.
      destruct (decide (n ∈ seqZ (BlockCount info + 1) (2 * Info.Size info)))
        as [_ | Hnin]; [eauto |].
      apply Hblocks. rewrite elem_of_seqZ in Hnin. nia.
    + destruct Hg as [Hcap Hsize]. apply Hblocks. rewrite Hsize in Hn. lia.
Qed.

(** On a well-formed store, [AddBlock] under an ordinary key succeeds, keeps
    the store well-formed, stores the next block number under the key and the
    new block under that number, so that [GetBlock] returns the block with
    the data and its hash. *)
Lemma AddBlock_succeeds key data db :
  wellFormed db -> ordinaryKey key ->
  fst (AddBlock key data db) = Ok tt /\
  wellFormed (run (AddBlock key data) db) /\
  (exists info,
      storedInfo db = Some info /\
      run (AddBlock key data) db !! key = Some (VNum (BlockCount info + 1)) /\
      run (AddBlock key data) db !! Sprint (BlockCount info + 1)
        = Some (VBlock (NewBlock data))) /\
  fst (GetBlock key (run (AddBlock key data) db)) = Ok (NewBlock data).
Proof.
  intros (info & Hinfo & Hbc & Hleast & Hrows & Hcols & Hblocks) Hkey.
  pose proof (infoBeforeDigests_dimension info Hbc Hleast) as (Hc & Hs & _).
  pose proof (grows_at_capacity info Hbc Hleast) as Hg. cbv zeta in Hg.
  pose proof (locateBlock_range (Size (BlockCount info + 1)) (BlockCount info + 1))
    as Hloc.
  destruct (Size_least (BlockCount info + 1) ltac:(lia)) as (Hn1 & Hnfit & _).
  specialize (Hloc ltac:(lia) ltac:(lia)).
  destruct Hloc as (Hrow & Hcol & _).
  set (blockNum := BlockCount info + 1) in *.
  set (db1 := storeBeforeDigests later key data info db).
  assert (Hdb1 : forall n,
             1 <= n <= Size blockNum * Size blockNum - Size blockNum ->
             exists b, db1 !! Sprint n = Some (VBlock b))
    by (intros n Hn; now apply storeBeforeDigests_blocks).
  assert (Hlen : forall l : list slice,
             Z.of_nat (length l) = Info.Size info ->
             Z.of_nat (length (l ++ (if grows info then [Some []] else [])))
             = Size blockNum).
  { intros l Hl. rewrite length_app. destruct (grows info); simpl; lia. }
  (* the two digests are computed *)
  destruct (writeHashes_ok (rowBlockNumbers (fst (locateBlock blockNum)) blockNum) [] db1)
    as [hr Hhr].
  { intros n Hn. apply Hdb1.
    now apply (rowBlockNumbers_locateBlock _ _ n Hrow). }
  destruct (writeHashes_ok (columnBlockNumbers (snd (locateBlock blockNum)) blockNum) [] db1)
    as [hc Hhc].
  { intros n Hn. apply Hdb1.
    now apply (columnBlockNumbers_locateBlock _ _ n Hcol). }
  (* so [updateBlockMatrixInfo] succeeds *)
  assert (Hupd : exists info',
             updateBlockMatrixInfoOf later (infoBeforeDigests info) blockNum db1
             = (Ok info', <["info" := VInfo info']> db1) /\
             BlockCount info' = blockNum /\ Info.Size info' = Size blockNum /\
             Z.of_nat (length (Rows info')) = Size blockNum /\
             Z.of_nat (length (Cols info')) = Size blockNum).
  { unfold updateBlockMatrixInfoOf.
    destruct (locateBlock blockNum) as [row col]. cbn [fst snd] in *.
    cbn [rowHash colHash later].
    assert (Hrowhash : calculateRowHash row (BlockCount (infoBeforeDigests info)) db1
                       = (Ok (Some (sha256 hr)), db1)).
    { rewrite Hc. unfold calculateRowHash. now rewrite (bind_Ok _ _ _ _ _ Hhr). }
    assert (Hrowlen : 0 <= row < Z.of_nat (length (Rows (infoBeforeDigests info)))).
    { rewrite infoBeforeDigests_Rows, (Hlen _ Hrows). lia. }
    rewrite (bind_Ok _ _ _ _ _ (assignIndex_Ok _ _ _ _ _ Hrowhash Hrowlen)).
    set (info1 := setRows (infoBeforeDigests info) _).
    assert (Hcolhash : calculateColumnHash col (BlockCount info1) db1
                       = (Ok (Some (sha256 hc)), db1)).
    { unfold info1. cbn [BlockCount setRows]. rewrite Hc.
      unfold calculateColumnHash. now rewrite (bind_Ok _ _ _ _ _ Hhc). }
    assert (Hcollen : 0 <= col < Z.of_nat (length (Cols info1))).
    { unfold info1. cbn [Cols setRows].
      rewrite infoBeforeDigests_Cols, (Hlen _ Hcols). lia. }
    rewrite (bind_Ok _ _ _ _ _ (assignIndex_Ok _ _ _ _ _ Hcolhash Hcollen)).
    unfold bind, dbPut, ret. eexists. split; [reflexivity |].
    unfold info1. cbn [BlockCount Info.Size Rows Cols setRows setCols].
    rewrite !length_insert, infoBeforeDigests_Rows, infoBeforeDigests_Cols,
      (Hlen _ Hrows), (Hlen _ Hcols). auto. }
  destruct Hupd as (info' & Hupd & Hc' & Hs' & Hr' & Hk').
  assert (Hrun : AddBlock key data db = (Ok tt, <["info" := VInfo info']> db1)).
  { rewrite AddBlock_later, (AddBlockOf_unfold later key data db info Hinfo).
    fold blockNum db1. now rewrite (bind_Ok _ _ _ _ _ Hupd). }
  destruct Hkey as [Hkinfo Hknum].
  assert (Hkeyrec : <["info" := VInfo info']> db1 !! key = Some (VNum blockNum)).
  { rewrite lookup_insert_ne by congruence. unfold db1, storeBeforeDigests.
    fold blockNum. rewrite lookup_insert_ne by (unfold Itoa; intros H; now apply (Hknum blockNum)).
    apply lookup_insert_eq. }
  assert (Hblockrec : <["info" := VInfo info']> db1 !! Sprint blockNum
                      = Some (VBlock (NewBlock data))).
  { rewrite lookup_insert_ne by (intros H; symmetry in H; now apply Sprint_ne_info in H).
    unfold db1, storeBeforeDigests. fold blockNum. apply lookup_insert_eq. }
  unfold run. rewrite Hrun. cbn [fst snd].
  split; [reflexivity | split; [| split]].
  - exists info'. rewrite lookup_insert_eq, Hc', Hs'.
    repeat apply conj; try assumption; try reflexivity; try lia.
    + apply Size_least. lia.
    + intros n Hn. rewrite lookup_insert_ne
        by (intros H; symmetry in H; now apply Sprint_ne_info in H).
      now apply Hdb1.
  - exists info. split; [now apply storedInfo_Some | split; assumption].
  - unfold GetBlock, bind, dbGet, lift. rewrite Hkeyrec. cbn [encode].
    unfold Itoa. fold (Sprint blockNum). rewrite Hblockrec. reflexivity.
Qed.

Lemma wellFormed_fresh : wellFormed fresh.
Proof.
  eexists. split; [apply fresh_info |].
  cbn [BlockCount Info.Size Rows Cols length].
  repeat apply conj; try reflexivity; lia.
Qed.

(** So every sequence of inserts under ordinary keys succeeds from the
    freshly initialised matrix. *)
Lemma ordinary_inserts_succeed (inserts : list (string * slice)) :
  Forall (fun kd => ordinaryKey (fst kd)) inserts ->
  fst (forEach inserts (fun kd => AddBlock (fst kd) (snd kd)) fresh) = Ok tt /\
  wellFormed (run (forEach inserts (fun kd => AddBlock (fst kd) (snd kd))) fresh).
Proof.
  generalize wellFormed_fresh. generalize fresh.
  induction inserts as [| [key data] inserts IH]; intros db Hwf Hkeys.
  - split; [reflexivity | exact Hwf].
  - apply Forall_cons in Hkeys as [Hkey Hkeys]. cbn [fst snd] in Hkey.
    destruct (AddBlock_succeeds key data db Hwf Hkey) as (Hok & Hwf' & _).
    destruct (IH _ Hwf' Hkeys) as [Hoks Hwfs].
    unfold run in *. cbn [forEach fst snd]. unfold bind.
    destruct (AddBlock key data db) as [[[] | e |] db']; cbn [fst snd] in *;
      try discriminate Hok.
    split; assumption.
Qed.

(** ** Key index *)

Lemma Atoi_stringOfByte_range c n : Atoi (stringOfByte c) = Ok n -> 0 <= n <= 9.
Proof.
  destruct c as [[] [] [] [] [] [] [] []]; intros H; compute in H;
    (discriminate H || (injection H as <-; lia)).
Qed.

(** [BlockNumber] never returns a number above 9, whatever is stored. *)
Lemma BlockNumber_at_most_9 key db n :
  fst (BlockNumber key db) = Ok n -> 0 <= n <= 9.
Proof.
  unfold BlockNumber, bind, dbGet, lift.
  destruct (db !! key) as [v |]; [| discriminate].
  destruct (encode v) as [| b0 rest]; [discriminate |].
  cbn [fst]. apply Atoi_stringOfByte_range.
Qed.

Lemma BlockNumber_db key db : snd (BlockNumber key db) = db.
Proof.
  unfold BlockNumber, bind, dbGet, lift.
  destruct (db !! key) as [v |]; [| reflexivity].
  now destruct (encode v).
Qed.

(** After an insert under an ordinary key on a well-formed store,
    [BlockNumber] returns the assigned block number exactly when that number
    is at most 9. *)
Lemma BlockNumber_after_AddBlock key data db info :
  wellFormed db -> ordinaryKey key -> storedInfo db = Some info ->
  fst (AddBlock key data db) = Ok tt /\
  (fst (BlockNumber key (run (AddBlock key data) db)) = Ok (BlockCount info + 1)
   <-> BlockCount info + 1 <= 9).
Proof.
  intros Hwf Hkey Hstored.
  destruct (AddBlock_succeeds key data db Hwf Hkey)
    as (Hok & _ & (info0 & Hstored0 & Hrec & _) & _).
  assert (info0 = info) by congruence. subst info0.
  split; [exact Hok | split].
  - intros Hbn. now apply BlockNumber_at_most_9 in Hbn.
  - intros Hle.
    assert (Hbc : 0 <= BlockCount info).
    { destruct Hwf as (i & Hi & Hbc & _). apply storedInfo_Some in Hstored.
      congruence. }
    unfold BlockNumber, bind, dbGet. rewrite Hrec. cbn [encode].
    assert (Hn : BlockCount info + 1 = 1 \/ BlockCount info + 1 = 2 \/
                 BlockCount info + 1 = 3 \/ BlockCount info + 1 = 4 \/
                 BlockCount info + 1 = 5 \/ BlockCount info + 1 = 6 \/
                 BlockCount info + 1 = 7 \/ BlockCount info + 1 = 8 \/
                 BlockCount info + 1 = 9) by lia.
    repeat (destruct Hn as [-> | Hn]; [reflexivity |]). now rewrite Hn.
Qed.

(** C5 fails on the code.  After ten successful inserts the key of the tenth
    is stored as the decimal text of 10, and [BlockNumber] returns 1: it
    parses the first byte only, so it never returns a number above 9, and
    after an insert it returns the assigned number exactly when that number
    is at most 9.  In the earlier revision [BlockNumber] returns the byte
    value of the first character, 49 for block 1. *)
Theorem BlockNumber_reads_first_byte_only :
  (let db := run (addNumbered AddBlock 10) fresh in
   fst (addNumbered AddBlock 10 fresh) = Ok tt /\
   db !! "k10" = Some (VNum 10) /\
   encode (VNum 10) = "10" /\
   fst (BlockNumber "k10" db) = Ok 1) /\
  (forall key db n, fst (BlockNumber key db) = Ok n -> 0 <= n <= 9) /\
  (forall key data db info,
      wellFormed db -> ordinaryKey key -> storedInfo db = Some info ->
      fst (AddBlock key data db) = Ok tt /\
      (fst (BlockNumber key (run (AddBlock key data) db)) = Ok (BlockCount info + 1)
       <-> BlockCount info + 1 <= 9)) /\
  (let db := run (Legacy.AddBlock "k1" (Some [x01])) fresh in
   fst (Legacy.AddBlock "k1" (Some [x01]) fresh) = Ok tt /\
   db !! "k1" = Some (VNum 1) /\
   fst (Legacy.BlockNumber "k1" db) = Ok 49).
Proof.
  split; [| split; [| split]].
  - vm_compute. repeat apply conj; reflexivity.
  - apply BlockNumber_at_most_9.
  - apply BlockNumber_after_AddBlock.
  - vm_compute. repeat apply conj; reflexivity.
Qed.

(** ** Redaction: what [EraseBlock] does *)

Lemma GetBlockMatrixInfo_absent db :
  db !! "info" = None ->
  let info := {| Info.Size := 0; Info.BlockCount := 0;
                 Info.Rows := [None]; Info.Cols := [None] |} in
  GetBlockMatrixInfo db = (Ok info, <["info" := VInfo info]> db).
Proof.
  intros Hv. unfold GetBlockMatrixInfo, bind, dbHas, dbPut, ret.
  rewrite bool_decide_eq_false_2; [reflexivity |].
  rewrite Hv. intros [? ?]. discriminate.
Qed.


(** A successful [EraseBlock] has read a number [n] with [BlockNumber],
    deleted the key record, put the empty block under the text of [n] and
    rewritten the metadata; no other record is touched. *)
Lemma EraseBlock_store key db :
  fst (EraseBlock key db) = Ok tt ->
  exists n,
    BlockNumber key db = (Ok n, db) /\
    forall k, k <> "info" ->
      run (EraseBlock key) db !! k =
      <[Sprint n := VBlock EmptyBlock]> (delete key db) !! k.
Proof.
  intros Hok. unfold run. pose proof (BlockNumber_db key db) as Hdb.
  destruct (BlockNumber key db) as [[n | e |] db0] eqn:Hbn;
    simpl in Hdb; subst db0;
    [| unfold EraseBlock, bind in Hok; rewrite Hbn in Hok; discriminate Hok ..].
  exists n. split; [reflexivity |]. intros k Hk.
  set (db1 := <[Sprint n := VBlock EmptyBlock]> (delete key db)).
  assert (Heq : EraseBlock key db =
            (let* info := GetBlockMatrixInfo in
             let* info' := updateBlockMatrixInfoOf later info n in
             let* ok := lift (checkValidErase info' (Rows info) (Cols info)) in
             if negb ok then fail ErrInvalidErase else ret tt) db1).
  { unfold EraseBlock. rewrite (bind_Ok _ _ _ _ _ Hbn). reflexivity. }
  rewrite Heq in Hok |- *. clear Heq.
  assert (Hget : match GetBlockMatrixInfo db1 with
                 | (Ok _, db2) => db2 !! k = db1 !! k /\ is_Some (db2 !! "info")
                 | _ => True
                 end).
  { destruct (db1 !! "info") as [v |] eqn:Hv.
    - rewrite (GetBlockMatrixInfo_stored db1 v Hv).
      destruct (unmarshalInfo v); eauto.
    - rewrite (GetBlockMatrixInfo_absent db1 Hv). split.
      + now rewrite lookup_insert_ne by congruence.
      + rewrite lookup_insert_eq. eauto. }
  destruct (GetBlockMatrixInfo db1) as [[info | e |] db2] eqn:Hgi;
    [| unfold bind in Hok; rewrite Hgi in Hok; discriminate Hok ..].
  destruct Hget as [Hk2 Hsome].
  rewrite (bind_Ok _ _ _ _ _ Hgi) in Hok |- *.
  destruct (updateBlockMatrixInfoOf_cases later info n db2 readsOnly_later Hsome)
    as [(hr & hc & _ & _ & _ & Hupd) | [Hdb2 Hfail]].
  - cbv zeta in Hupd. rewrite (bind_Ok _ _ _ _ _ Hupd) in Hok |- *.
    unfold bind, lift in Hok |- *.
    destruct (checkValidErase _ _ _) as [[] | |]; cbn in Hok |- *;
      try discriminate Hok.
    rewrite lookup_insert_ne by congruence. exact Hk2.
  - destruct (bind_not_Ok _
        (fun info' =>
           let* ok := lift (checkValidErase info' (Rows info) (Cols info)) in
           if negb ok then fail ErrInvalidErase else ret tt) db2 Hfail) as [_ H2].
    now destruct (H2 tt).
Qed.

(** So the empty block is written at a number from 0 to 9, whatever block
    number the key was stored with. *)
Lemma EraseBlock_sentinel_at_one_digit key db :
  fst (EraseBlock key db) = Ok tt ->
  exists n, 0 <= n <= 9 /\
            run (EraseBlock key) db !! Sprint n = Some (VBlock EmptyBlock).
Proof.
  intros Hok. destruct (EraseBlock_store key db Hok) as (n & Hbn & Hframe).
  exists n. split.
  - apply (BlockNumber_at_most_9 key db). now rewrite Hbn.
  - rewrite Hframe by apply Sprint_ne_info. apply lookup_insert_eq.
Qed.

(** A successful [EraseBlock] leaves no record under the key, unless the key
    is ["info"] or the text of the number that [BlockNumber] returned. *)
Lemma EraseBlock_deletes_key key db :
  fst (EraseBlock key db) = Ok tt ->
  key <> "info" ->
  (forall n, fst (BlockNumber key db) = Ok n -> key <> Sprint n) ->
  run (EraseBlock key) db !! key = None /\
  fst (GetBlock key (run (EraseBlock key) db)) = Err ErrNotFound /\
  fst (BlockNumber key (run (EraseBlock key) db)) = Err ErrNotFound.
Proof.
  intros Hok Hinfo Hnum.
  destruct (EraseBlock_store key db Hok) as (n & Hbn & Hframe).
  assert (Hnone : run (EraseBlock key) db !! key = None).
  { rewrite Hframe by exact Hinfo.
    rewrite lookup_insert_ne; [apply lookup_delete_eq |].
    intros Heq. apply (Hnum n); [now rewrite Hbn | congruence]. }
  split; [exact Hnone | split].
  - unfold GetBlock, bind, dbGet. now rewrite Hnone.
  - unfold BlockNumber, bind, dbGet. now rewrite Hnone.
Qed.

(** ** The erase self-check *)

Lemma index_lookup (l : list slice) (k : nat) (x : slice) :
  l !! k = Some x -> index l (Z.of_nat k) = Ok x.
Proof.
  intros Hk. unfold index. pose proof (lookup_lt_Some _ _ _ Hk) as Hlt.
  replace ((0 <=? Z.of_nat k) && (Z.of_nat k <? Z.of_nat (length l))) with true
    by (symmetry; apply andb_true_intro; split; lia).
  now rewrite Nat2Z.id, Hk.
Qed.

(** On digest lists of the length of the dimension, [checkValidErase]
    answers whether it counted one changed row digest and one changed column
    digest; a changed column digest is counted only where the row digest of
    the same index is unchanged. *)
Lemma checkValidErase_counts info oldRowHashes oldColHashes (n : nat) :
  Info.Size info = Z.of_nat n ->
  length oldRowHashes = n -> length (Rows info) = n ->
  length oldColHashes = n -> length (Cols info) = n ->
  checkValidErase info oldRowHashes oldColHashes =
  Ok ((Z.of_nat (rowsCounted oldRowHashes (Rows info) n) =? 1) &&
      (Z.of_nat (colsCounted oldRowHashes (Rows info) oldColHashes (Cols info) n) =? 1)).
Proof.
  intros Hsize Hor Hnr Hoc Hnc. unfold checkValidErase. cbv zeta.
  match goal with
  | |- context [foldl ?f _ _] => set (step := f)
  end.
  assert (Hloop : forall k, (k <= n)%nat ->
            foldl step (Ok (0, 0)) (seqZ 0 (Z.of_nat k)) =
            Ok (Z.of_nat (rowsCounted oldRowHashes (Rows info) k),
                Z.of_nat (colsCounted oldRowHashes (Rows info)
                                      oldColHashes (Cols info) k))).
  { induction k as [| k IH]; intros Hk; [reflexivity |].
    rewrite seqZ_S, foldl_app, IH by lia. simpl.
    destruct (lookup_lt_is_Some_2 oldRowHashes k ltac:(lia)) as [a Ha].
    destruct (lookup_lt_is_Some_2 (Rows info) k ltac:(lia)) as [b Hb].
    destruct (lookup_lt_is_Some_2 oldColHashes k ltac:(lia)) as [c Hc].
    destruct (lookup_lt_is_Some_2 (Cols info) k ltac:(lia)) as [d Hd].
    rewrite !Z.add_0_l.
    rewrite (index_lookup _ _ _ Ha), (index_lookup _ _ _ Hb),
      (index_lookup _ _ _ Hc), (index_lookup _ _ _ Hd).
    unfold rowsCounted, colsCounted, DeepEqual.
    rewrite !seq_S, !filter_app, !length_app. simpl.
    rewrite !filter_cons, !filter_nil, Ha, Hb, Hc, Hd.
    destruct (decide (a = b)) as [Hab | Hab].
    - rewrite (bool_decide_eq_true_2 _ Hab). simpl.
      rewrite (decide_False (P := Some a <> Some b)) by (intros H; apply H; congruence).
      destruct (decide (c = d)) as [Hcd | Hcd].
      + rewrite (bool_decide_eq_true_2 _ Hcd). simpl.
        rewrite (decide_False (P := Some a = Some b /\ Some c <> Some d))
          by (intros [_ H]; apply H; congruence).
        simpl. f_equal. f_equal; lia.
      + rewrite (bool_decide_eq_false_2 _ Hcd). simpl.
        rewrite (decide_True (P := Some a = Some b /\ Some c <> Some d))
          by (split; congruence).
        simpl. f_equal. f_equal; lia.
    - rewrite (bool_decide_eq_false_2 _ Hab). simpl.
      rewrite (decide_True (P := Some a <> Some b)) by congruence.
      rewrite (decide_False (P := Some a = Some b /\ _))
        by (intros [H _]; congruence).
      simpl. f_equal. f_equal; lia. }
  rewrite Hsize, (Hloop n (Nat.le_refl n)). reflexivity.
Qed.

(** So an erase that changed more than one row digest is reported invalid. *)
Lemma checkValidErase_rows info oldRowHashes oldColHashes (n : nat) :
  Info.Size info = Z.of_nat n ->
  length oldRowHashes = n -> length (Rows info) = n ->
  length oldColHashes = n -> length (Cols info) = n ->
  checkValidErase info oldRowHashes oldColHashes = Ok true ->
  numChanged oldRowHashes (Rows info) = 1%nat.
Proof.
  intros Hsize Hor Hnr Hoc Hnc.
  rewrite (checkValidErase_counts _ _ _ n Hsize Hor Hnr Hoc Hnc).
  intros [= H]. apply andb_prop in H as [H _].
  unfold numChanged. rewrite Hor, Hnr, Nat.max_id.
  unfold rowsCounted in H. lia.
Qed.

(** [checkValidErase] looks at a column digest only where the row digest
    of the same index is unchanged: with row digest 0 and both column digests
    changed it counts one changed column.  [EraseBlock] does not hand it such
    lists, see below. *)
Remark checkValidErase_same_index :
  let digest (b : byte) := calculateHash (Some [b]) in
  let oldRowHashes := [digest x01; digest x02] in
  let oldColHashes := [digest x03; digest x04] in
  let info := {| Info.Size := 2; Info.BlockCount := 2;
                 Info.Rows := [digest x05; digest x02];
                 Info.Cols := [digest x06; digest x07] |} in
  numChanged oldRowHashes (Rows info) = 1%nat /\
  numChanged oldColHashes (Cols info) = 2%nat /\
  checkValidErase info oldRowHashes oldColHashes = Ok true.
Proof. vm_compute. repeat apply conj; reflexivity. Qed.

(** ** What a successful redaction changes *)

Lemma BlockNumber_not_info db info n :
  db !! "info" = Some (VInfo info) -> fst (BlockNumber "info" db) <> Ok n.
Proof.
  intros Hinfo. unfold BlockNumber, bind, dbGet. rewrite Hinfo. discriminate.
Qed.

(** On readable metadata a successful [EraseBlock] stores the metadata with
    the digests of one row and one column recomputed, on which
    [checkValidErase] answered true. *)
Lemma EraseBlock_success key db info :
  db !! "info" = Some (VInfo info) ->
  fst (EraseBlock key db) = Ok tt ->
  exists n hr hc,
    let row := fst (locateBlock n) in
    let col := snd (locateBlock n) in
    let info' := setCols (setRows info (<[Z.to_nat row := hr]> (Rows info)))
                         (<[Z.to_nat col := hc]> (Cols info)) in
    BlockNumber key db = (Ok n, db) /\
    checkValidErase info' (Rows info) (Cols info) = Ok true /\
    run (EraseBlock key) db =
      <["info" := VInfo info']> (<[Sprint n := VBlock EmptyBlock]> (delete key db)).
Proof.
  intros Hinfo Hok. unfold run. pose proof (BlockNumber_db key db) as Hdb.
  destruct (BlockNumber key db) as [[n | e |] db0] eqn:Hbn;
    simpl in Hdb; subst db0;
    [| unfold EraseBlock, bind in Hok; rewrite Hbn in Hok; discriminate Hok ..].
  assert (Hkey : key <> "info").
  { intros ->. apply (BlockNumber_not_info db info n Hinfo). now rewrite Hbn. }
  set (db1 := <[Sprint n := VBlock EmptyBlock]> (delete key db)).
  assert (Hinfo1 : db1 !! "info" = Some (VInfo info)).
  { unfold db1. rewrite lookup_insert_ne by apply Sprint_ne_info.
    now rewrite lookup_delete_ne. }
  assert (Heq : EraseBlock key db =
            (let* info := GetBlockMatrixInfo in
             let* info' := updateBlockMatrixInfoOf later info n in
             let* ok := lift (checkValidErase info' (Rows info) (Cols info)) in
             if negb ok then fail ErrInvalidErase else ret tt) db1).
  { unfold EraseBlock. rewrite (bind_Ok _ _ _ _ _ Hbn). reflexivity. }
  rewrite Heq in Hok |- *. clear Heq.
  rewrite (bind_Ok _ _ _ _ _ (GetBlockMatrixInfo_stored db1 _ Hinfo1)) in Hok |- *.
  destruct (updateBlockMatrixInfoOf_cases later info n db1 readsOnly_later
              ltac:(rewrite Hinfo1; eauto))
    as [(hr & hc & _ & _ & _ & Hupd) | [_ Hfail]].
  - exists n, hr, hc. cbv zeta in Hupd |- *.
    rewrite (bind_Ok _ _ _ _ _ Hupd) in Hok |- *.
    unfold bind, lift in Hok |- *.
    destruct (checkValidErase _ _ _) as [[] | |]; cbn in Hok |- *;
      try discriminate Hok.
    auto.
  - destruct (bind_not_Ok _
        (fun info' =>
           let* ok := lift (checkValidErase info' (Rows info) (Cols info)) in
           if negb ok then fail ErrInvalidErase else ret tt) db1 Hfail) as [_ H2].
    now destruct (H2 tt).
Qed.

Lemma filter_length_le {A} (P Q : A -> Prop)
    `{forall x, Decision (P x)} `{forall x, Decision (Q x)} (l : list A) :
  (forall x, P x -> Q x) -> (length (filter P l) <= length (filter Q l))%nat.
Proof.
  intros HPQ. induction l as [| x l IH]; [reflexivity |].
  rewrite !filter_cons. destruct (decide (P x)) as [HP | HP].
  - rewrite decide_True by auto. simpl. lia.
  - destruct (decide (Q x)); simpl; lia.
Qed.

(** When the digest lists have one entry per row and column, a successful
    [EraseBlock] has changed exactly one row digest and exactly one column
    digest, deleted the key record and written the empty block under the
    number [BlockNumber] returned. *)
Lemma EraseBlock_locality key db info :
  db !! "info" = Some (VInfo info) ->
  Z.of_nat (length (Rows info)) = Info.Size info ->
  Z.of_nat (length (Cols info)) = Info.Size info ->
  fst (EraseBlock key db) = Ok tt ->
  exists info',
    storedInfo (run (EraseBlock key) db) = Some info' /\
    numChanged (Rows info) (Rows info') = 1%nat /\
    numChanged (Cols info) (Cols info') = 1%nat.
Proof.
  intros Hinfo Hrows Hcols Hok.
  destruct (EraseBlock_success key db info Hinfo Hok)
    as (n & hr & hc & _ & Hcheck & Hrun).
  cbv zeta in Hcheck, Hrun. eexists. split.
  { apply storedInfo_Some. rewrite Hrun. apply lookup_insert_eq. }
  cbn [Rows Cols setRows setCols].
  set (rows' := <[Z.to_nat (fst (locateBlock n)) := hr]> (Rows info)) in *.
  set (cols' := <[Z.to_nat (snd (locateBlock n)) := hc]> (Cols info)) in *.
  rewrite (checkValidErase_counts _ _ _ (length (Rows info))) in Hcheck;
    cbn [Info.Size Rows Cols setRows setCols];
    [| lia | reflexivity | apply length_insert | lia | unfold cols'; rewrite length_insert; lia].
  injection Hcheck as Hcheck. apply andb_prop in Hcheck as [Hr Hc].
  cbn [Rows Cols setRows setCols] in Hr, Hc. split.
  - unfold numChanged, rows'. rewrite length_insert, Nat.max_id.
    unfold rowsCounted in Hr. fold rows' in Hr |- *. lia.
  - assert (Hle : (numChanged (Cols info) cols' <= 1)%nat).
    { apply (numChanged_at_most_one _ _ (Z.to_nat (snd (locateBlock n)))).
      intros i Hi. unfold cols'. now rewrite list_lookup_insert_ne by congruence. }
    assert (Hge : (colsCounted (Rows info) rows' (Cols info) cols' (length (Rows info))
                   <= numChanged (Cols info) cols')%nat).
    { unfold colsCounted, numChanged, cols'. rewrite length_insert, Nat.max_id.
      replace (length (Cols info)) with (length (Rows info)) by lia.
      apply filter_length_le. tauto. }
    lia.
Qed.

(** ** The self-check as [EraseBlock] runs it *)





(** ** Redaction on the tenth block *)

Lemma NewBlock_10_not_empty : NewBlock (Some [byteOf 10]) <> EmptyBlock.
Proof. intros H. apply (f_equal Data) in H. simpl in H. discriminate H. Qed.

(** C6 fails on the code.  Key [k10] maps to block 10; [EraseBlock "k10"]
    succeeds, block 10 keeps its content and block 1 is overwritten with the
    empty block.  In general a successful [EraseBlock] writes the empty block
    at a number from 0 to 9; it does change exactly one row digest and
    exactly one column digest. *)
Theorem EraseBlock_overwrites_another_block :
  (let db := run (addNumbered AddBlock 10) fresh in
   let db' := run (EraseBlock "k10") db in
   db !! "k10" = Some (VNum 10) /\
   fst (EraseBlock "k10" db) = Ok tt /\
   fst (GetBlockByNumber 10 db') = Ok (NewBlock (Some [byteOf 10])) /\
   NewBlock (Some [byteOf 10]) <> EmptyBlock /\
   fst (GetBlockByNumber 1 db) = Ok (NewBlock (Some [byteOf 1])) /\
   fst (GetBlockByNumber 1 db') = Ok EmptyBlock) /\
  (forall key db,
      fst (EraseBlock key db) = Ok tt ->
      exists n, 0 <= n <= 9 /\
                run (EraseBlock key) db !! Sprint n = Some (VBlock EmptyBlock)) /\
  (forall key db info,
      db !! "info" = Some (VInfo info) ->
      Z.of_nat (length (Rows info)) = Info.Size info ->
      Z.of_nat (length (Cols info)) = Info.Size info ->
      fst (EraseBlock key db) = Ok tt ->
      exists info',
        storedInfo (run (EraseBlock key) db) = Some info' /\
        numChanged (Rows info) (Rows info') = 1%nat /\
        numChanged (Cols info) (Cols info') = 1%nat).
Proof.
  split; [| split].
  - cbv zeta. repeat apply conj; try (vm_compute; reflexivity).
    apply NewBlock_10_not_empty.
  - apply EraseBlock_sentinel_at_one_digit.
  - apply EraseBlock_locality.
Qed.

(** C10 fails on the code.  After the successful [EraseBlock "k10"] the key
    record is gone and [GetBlock] and [BlockNumber] report not-found, but
    the record of block 10 is not overwritten with the empty block.  And when
    the key is the text of the block number that [BlockNumber] returns (key
    [1] inserted as block 11), the successful [EraseBlock "1"] leaves a
    record under that key: the empty block, on which [BlockNumber] fails
    with a syntax error.  For any other key than ["info"] a successful
    [EraseBlock] leaves no record under the key. *)
Theorem EraseBlock_key_and_block_records :
  (let db := run (addNumbered AddBlock 10) fresh in
   let db' := run (EraseBlock "k10") db in
   fst (EraseBlock "k10" db) = Ok tt /\
   db' !! "k10" = None /\
   fst (GetBlock "k10" db') = Err ErrNotFound /\
   fst (BlockNumber "k10" db') = Err ErrNotFound /\
   db' !! Sprint 10 = Some (VBlock (NewBlock (Some [byteOf 10]))) /\
   db' !! Sprint 10 <> Some (VBlock EmptyBlock)) /\
  (let db := run (addNumbered AddBlock 10 >> AddBlock "1" (Some [byteOf 11])) fresh in
   let db' := run (EraseBlock "1") db in
   fst ((addNumbered AddBlock 10 >> AddBlock "1" (Some [byteOf 11])) fresh) = Ok tt /\
   db !! "1" = Some (VNum 11) /\
   fst (EraseBlock "1" db) = Ok tt /\
   db' !! "1" = Some (VBlock EmptyBlock) /\
   fst (BlockNumber "1" db') = Err ErrSyntax) /\
  (forall key db,
      fst (EraseBlock key db) = Ok tt ->
      key <> "info" ->
      (forall n, fst (BlockNumber key db) = Ok n -> key <> Sprint n) ->
      run (EraseBlock key) db !! key = None /\
      fst (GetBlock key (run (EraseBlock key) db)) = Err ErrNotFound /\
      fst (BlockNumber key (run (EraseBlock key) db)) = Err ErrNotFound).
Proof.
  split; [| split].
  - cbv zeta. repeat apply conj; try (vm_compute; reflexivity).
    assert (Hrec : run (EraseBlock "k10") (run (addNumbered AddBlock 10) fresh)
                     !! Sprint 10 = Some (VBlock (NewBlock (Some [byteOf 10]))))
      by (vm_compute; reflexivity).
    rewrite Hrec. intros H. apply NewBlock_10_not_empty. congruence.
  - cbv zeta. repeat apply conj; vm_compute; reflexivity.
  - apply EraseBlock_deletes_key.
Qed.

(** ** Verification *)

(** [IsValid] fails on every store whose first block is intact. *)
Lemma IsValid_intact_first_block db info block :
  db !! "info" = Some (VInfo info) -> 1 <= BlockCount info ->
  db !! "1" = Some (VBlock block) -> Hash block = CalculateHash block ->
  IsValid db = (Err (ErrBlockHashes 1), db).
Proof.
  intros Hinfo Hbc Hblock Hhash. unfold IsValid.
  rewrite (bind_Ok _ _ _ _ _ (GetBlockMatrixInfo_stored db _ Hinfo)).
  rewrite (seqZ_cons 1) by lia. cbn [forEach].
  unfold bind at 1. unfold bind at 1. unfold bind at 1.
  unfold GetBlockByNumber, bind, dbGet, lift.
  change (Sprint 1) with "1". rewrite Hblock. cbn [unmarshalBlock].
  unfold DeepEqual. rewrite bool_decide_eq_true_2 by exact Hhash.
  reflexivity.
Qed.

(** The digests that growth appends are empty, although the row and the
    column they stand for hold empty blocks: after the first insert the
    stored digest of row 1 is empty and differs from the recomputed one. *)
Lemma appended_digest_is_stale :
  let db := run (AddBlock "k1" (Some [x01])) fresh in
  (Rows <$> storedInfo db) = Some [calculateHash (Hash (NewBlock (Some [x01]))); Some []] /\
  fst (calculateRowHash 1 1 db) = Ok (calculateHash (Hash EmptyBlock)).
Proof. vm_compute. split; reflexivity. Qed.

(** C4 fails on the code.  After one well-formed insert [IsValid] returns
    the error for block 1, whose stored hash equals the recomputed one: the
    comparisons report equality as the failure, and so [IsValid] fails on
    every store with at least one block whose first block is intact.  With
    the stored hash of block 1 overwritten out of band, no stored hash or
    digest matches its recomputation and [IsValid] returns true. *)
Theorem IsValid_inverted_comparisons :
  (let db := run (AddBlock "k1" (Some [x01])) fresh in
   let corrupted :=
     <["1" := VBlock {| Data := Some [x01]; Hash := Some [xff] |}]> db in
   fst (AddBlock "k1" (Some [x01]) fresh) = Ok tt /\
   (exists block, fst (GetBlockByNumber 1 db) = Ok block /\
                  Hash block = CalculateHash block) /\
   fst (IsValid db) = Err (ErrBlockHashes 1) /\
   fst (IsValid corrupted) = Ok true) /\
  (forall db info block,
      storedInfo db = Some info -> 1 <= BlockCount info ->
      db !! "1" = Some (VBlock block) -> Hash block = CalculateHash block ->
      IsValid db = (Err (ErrBlockHashes 1), db)).
Proof.
  split.
  - cbv zeta. split; [vm_compute; reflexivity | split; [| split]].
    + exists (NewBlock (Some [x01])). split; [vm_compute; reflexivity | reflexivity].
    + vm_compute. reflexivity.
    + vm_compute. reflexivity.
  - intros db info block Hstored. apply storedInfo_Some in Hstored.
    now apply IsValid_intact_first_block.
Qed.

(** * Part III: further properties of the code *)

(** ** Shells, parity and order of the placement *)

(** X1.  [locateBlock] fills the grid shell by shell: block [n], from 1
    and below [maxInt], lies in the shell [c] that is the larger of its two
    coordinates, which holds the numbers [c*c - c + 1 .. c*c + c]; the
    smaller coordinate is between 0 and [c - 1]; and the even numbers are the
    cells below the diagonal, the odd ones the cells above it. *)
Theorem locateBlock_shell_parity n :
  1 <= n < maxInt ->
  let row := fst (locateBlock n) in
  let col := snd (locateBlock n) in
  let c := Z.max row col in
  c * c - c + 1 <= n <= c * c + c /\
  0 <= Z.min row col < c /\
  (Z.even n = true <-> col < row).
Proof.
  intros [Hn _]. cbv zeta.
  destruct (shell_exists n Hn) as (c & Hc & Hshell).
  destruct (pronic_even c) as [k Hk].
  destruct (shell_cases c n Hc Hshell) as [(j & Hj & ->) | (i & Hi & ->)].
  - rewrite (locateBlock_below c j Hj). cbn [fst snd].
    rewrite Z.max_l, Z.min_r by lia.
    split; [lia | split; [lia | split; [lia |]]].
    intros _. replace (c * c - c + 2 + 2 * j) with (2 * (k + 1 + j)) by lia.
    rewrite Z.even_mul. reflexivity.
  - rewrite (locateBlock_above c i Hi). cbn [fst snd].
    rewrite Z.max_r, Z.min_l by lia.
    split; [lia | split; [lia | split; [| lia]]].
    replace (c * c - c + 1 + 2 * i) with (2 * (k + i) + 1) by lia.
    rewrite Z.even_add, Z.even_mul. cbn [Z.even orb]. 
    destruct (Z.even (k + i)); discriminate.
Qed.

Lemma locateBlock_shell_parity_witness :
  let row := fst (locateBlock 14) in
  let col := snd (locateBlock 14) in
  let c := Z.max row col in
  c * c - c + 1 <= 14 <= c * c + c /\
  0 <= Z.min row col < c /\
  (Z.even 14 = true <-> col < row).
Proof. apply (locateBlock_shell_parity 14). unfold maxInt. lia. Defined.

(** ** Growth of the dimension, one block at a time *)

(** X2.  What [Size] gives for one block more: 2 for the first block, one
    more than before when the block count is the capacity [size*size - size]
    of the dimension [Size] gives for it, and the same dimension
    otherwise. *)
Theorem Size_step blockCount :
  0 <= blockCount ->
  Size (blockCount + 1) =
  if blockCount =? 0 then 2
  else if blockCount =? Size blockCount * Size blockCount - Size blockCount
       then Size blockCount + 1
       else Size blockCount.
Proof.
  intros Hbc. destruct (Z.eqb_spec blockCount 0) as [-> | Hne]; [reflexivity |].
  pose (info := {| Info.Size := Size blockCount; Info.BlockCount := blockCount;
                   Info.Rows := []; Info.Cols := [] |}).
  pose proof (grows_at_capacity info Hbc (Size_least blockCount ltac:(lia))) as Hg.
  cbv zeta in Hg. cbn [Info.Size BlockCount info] in Hg.
  destruct (grows info).
  - destruct Hg as [Hcap Hs]. rewrite Hs.
    destruct (Z.eqb_spec blockCount (Size blockCount * Size blockCount - Size blockCount));
      [reflexivity | contradiction].
  - destruct Hg as [Hcap Hs]. rewrite Hs.
    destruct (Z.eqb_spec blockCount (Size blockCount * Size blockCount - Size blockCount));
      [lia | reflexivity].
Qed.

Lemma Size_step_witness :
  Size (6 + 1) = if 6 =? 0 then 2
                 else if 6 =? Size 6 * Size 6 - Size 6 then Size 6 + 1 else Size 6.
Proof. apply (Size_step 6). lia. Defined.

(** ** Order and length of the block-number lists *)





(** X4.  For a block count whose dimension is at most [maxDimension] and
    an index within that dimension, [rowBlockNumbers] lists exactly the
    block numbers of the grid that [locateBlock] puts in that row, and
    [columnBlockNumbers] those that it puts in that column. *)
Theorem blockNumbers_are_rows_and_columns idx blockCount n :
  0 <= idx < Size blockCount -> Size blockCount <= maxDimension ->
  let size := Size blockCount in
  (n ∈ rowBlockNumbers idx blockCount <->
     1 <= n <= size * size - size /\ fst (locateBlock n) = idx) /\
  (n ∈ columnBlockNumbers idx blockCount <->
     1 <= n <= size * size - size /\ snd (locateBlock n) = idx).
Proof.
  intros Hidx _. split.
  - now apply rowBlockNumbers_locateBlock.
  - now apply columnBlockNumbers_locateBlock.
Qed.

Lemma blockNumbers_are_rows_and_columns_witness :
  let size := Size 25 in
  (12 ∈ rowBlockNumbers 3 25 <->
     1 <= 12 <= size * size - size /\ fst (locateBlock 12) = 3) /\
  (12 ∈ columnBlockNumbers 3 25 <->
     1 <= 12 <= size * size - size /\ snd (locateBlock 12) = 3).
Proof.
  apply (blockNumbers_are_rows_and_columns 3 25 12).
  - change (0 <= 3 < 6). lia.
  - change (6 <= 3037000500). lia.
Defined.

(** ** The store after an insert *)

(** The digest computations read block records only. *)
Lemma writeHashes_info blocks h v db :
  fst (writeHashes blocks h (<["info" := v]> db)) = fst (writeHashes blocks h db).
Proof.
  revert h. induction blocks as [| bn blocks IH]; intros h; [reflexivity |].
  simpl. unfold bind, GetBlockByNumber, bind, dbGet, lift.
  rewrite lookup_insert_ne by (intros H; symmetry in H; now apply Sprint_ne_info in H).
  destruct (db !! Sprint bn) as [w |]; [| reflexivity].
  destruct (unmarshalBlock w); [apply IH | reflexivity | reflexivity].
Qed.

Lemma calculateRowHash_info row blockCount v db :
  fst (calculateRowHash row blockCount (<["info" := v]> db))
  = fst (calculateRowHash row blockCount db).
Proof.
  unfold calculateRowHash, bind.
  pose proof (writeHashes_info (rowBlockNumbers row blockCount) [] v db) as H.
  destruct (writeHashes _ _ (<["info" := v]> db)) as [[h1 | e1 |] db1],
           (writeHashes _ _ db) as [[h2 | e2 |] db2];
    simpl in H |- *; congruence.
Qed.

Lemma calculateColumnHash_info col blockCount v db :
  fst (calculateColumnHash col blockCount (<["info" := v]> db))
  = fst (calculateColumnHash col blockCount db).
Proof.
  unfold calculateColumnHash, bind.
  pose proof (writeHashes_info (columnBlockNumbers col blockCount) [] v db) as H.
  destruct (writeHashes _ _ (<["info" := v]> db)) as [[h1 | e1 |] db1],
           (writeHashes _ _ db) as [[h2 | e2 |] db2];
    simpl in H |- *; congruence.
Qed.

(** On a well-formed store an insert under an ordinary key computes both
    digests on the store that holds the new records and then stores the
    metadata. *)
Lemma AddBlock_run key data db info :
  wellFormed db -> ordinaryKey key -> db !! "info" = Some (VInfo info) ->
  let blockNum := BlockCount info + 1 in
  let row := fst (locateBlock blockNum) in
  let col := snd (locateBlock blockNum) in
  let db1 := storeBeforeDigests later key data info db in
  let info1 := infoBeforeDigests info in
  exists hr hc,
    calculateRowHash row blockNum db1 = (Ok hr, db1) /\
    calculateColumnHash col blockNum db1 = (Ok hc, db1) /\
    0 <= row < Size blockNum /\ 0 <= col < Size blockNum /\
    Z.of_nat (length (Rows info1)) = Size blockNum /\
    Z.of_nat (length (Cols info1)) = Size blockNum /\
    AddBlock key data db =
      (Ok tt,
       <["info" := VInfo (setCols (setRows info1 (<[Z.to_nat row := hr]> (Rows info1)))
                                  (<[Z.to_nat col := hc]> (Cols info1)))]> db1).
Proof.
  intros (info0 & Hinfo0 & Hbc & Hleast & Hrows & Hcols & Hblocks) Hkey Hinfo.
  rewrite Hinfo in Hinfo0. injection Hinfo0 as <-. cbv zeta.
  pose proof (infoBeforeDigests_dimension info Hbc Hleast) as (Hc & Hs & _).
  pose proof (grows_at_capacity info Hbc Hleast) as Hg. cbv zeta in Hg.
  pose proof (locateBlock_range (Size (BlockCount info + 1)) (BlockCount info + 1))
    as Hloc.
  destruct (Size_least (BlockCount info + 1) ltac:(lia)) as (Hn1 & Hnfit & _).
  specialize (Hloc ltac:(lia) ltac:(lia)).
  destruct Hloc as (Hrow & Hcol & _).
  set (blockNum := BlockCount info + 1) in *.
  set (db1 := storeBeforeDigests later key data info db).
  assert (Hdb1 : forall n,
             1 <= n <= Size blockNum * Size blockNum - Size blockNum ->
             exists b, db1 !! Sprint n = Some (VBlock b))
    by (intros n Hn; now apply storeBeforeDigests_blocks).
  assert (Hlen : forall l : list slice,
             Z.of_nat (length l) = Info.Size info ->
             Z.of_nat (length (l ++ (if grows info then [Some []] else [])))
             = Size blockNum).
  { intros l Hl. rewrite length_app. destruct (grows info); simpl; lia. }
  destruct (writeHashes_ok (rowBlockNumbers (fst (locateBlock blockNum)) blockNum) [] db1)
    as [hr Hhr].
  { intros n Hn. apply Hdb1. now apply (rowBlockNumbers_locateBlock _ _ n Hrow). }
  destruct (writeHashes_ok (columnBlockNumbers (snd (locateBlock blockNum)) blockNum) [] db1)
    as [hc Hhc].
  { intros n Hn. apply Hdb1. now apply (columnBlockNumbers_locateBlock _ _ n Hcol). }
  exists (Some (sha256 hr)), (Some (sha256 hc)).
  assert (Hrowhash : calculateRowHash (fst (locateBlock blockNum)) blockNum db1
                     = (Ok (Some (sha256 hr)), db1)).
  { unfold calculateRowHash. now rewrite (bind_Ok _ _ _ _ _ Hhr). }
  assert (Hcolhash : calculateColumnHash (snd (locateBlock blockNum)) blockNum db1
                     = (Ok (Some (sha256 hc)), db1)).
  { unfold calculateColumnHash. now rewrite (bind_Ok _ _ _ _ _ Hhc). }
  assert (Hrl : Z.of_nat (length (Rows (infoBeforeDigests info))) = Size blockNum)
    by (rewrite infoBeforeDigests_Rows; now apply Hlen).
  assert (Hcl : Z.of_nat (length (Cols (infoBeforeDigests info))) = Size blockNum)
    by (rewrite infoBeforeDigests_Cols; now apply Hlen).
  split; [exact Hrowhash | split; [exact Hcolhash |]].
  split; [exact Hrow | split; [exact Hcol | split; [exact Hrl | split; [exact Hcl |]]]].
  rewrite AddBlock_later, (AddBlockOf_unfold later key data db info Hinfo).
  fold blockNum db1. unfold updateBlockMatrixInfoOf.
  destruct (locateBlock blockNum) as [row col]. cbn [fst snd] in *.
  cbn [rowHash colHash later]. rewrite Hc.
  assert (Hri : 0 <= row < Z.of_nat (length (Rows (infoBeforeDigests info)))) by lia.
  assert (Hci : 0 <= col < Z.of_nat (length (Cols (infoBeforeDigests info)))) by lia.
  unfold bind at 1. unfold bind at 1.
  rewrite (assignIndex_Ok _ _ _ _ _ Hrowhash Hri).
  unfold bind at 1. cbn [BlockCount setRows Cols]. rewrite Hc.
  rewrite (assignIndex_Ok _ _ _ _ _ Hcolhash Hci).
  reflexivity.
Qed.

(** The lists of a row and of a column at a block count lie within every
    grid that holds the row or column and is at least as large. *)
Lemma blockNumbers_in_grid idx blockCount d n :
  0 <= idx < d -> Size blockCount <= d ->
  n ∈ rowBlockNumbers idx blockCount \/ n ∈ columnBlockNumbers idx blockCount ->
  1 <= n <= d * d - d.
Proof.
  intros Hidx Hsize [Hin | Hin].
  - rewrite rowBlockNumbers_blockAt in Hin.
    apply list_elem_of_fmap in Hin as (c & -> & Hc).
    apply blockAt_range. rewrite elem_of_app, !elem_of_seqZ in Hc.
    unfold offDiagonal. cbn [fst snd]. lia.
  - rewrite columnBlockNumbers_blockAt in Hin.
    apply list_elem_of_fmap in Hin as (r & -> & Hr).
    apply blockAt_range. rewrite elem_of_app, !elem_of_seqZ in Hr.
    unfold offDiagonal. cbn [fst snd]. lia.
Qed.

Lemma storeBeforeDigests_records rev key data info db n :
  ordinaryKey key ->
  0 <= BlockCount info ->
  leastDimension (BlockCount info) (Info.Size info) ->
  (forall m, 1 <= m <= Info.Size info * Info.Size info - Info.Size info ->
             exists b, db !! Sprint m = Some (VBlock b)) ->
  let size' := Size (BlockCount info + 1) in
  1 <= n <= size' * size' - size' ->
  exists b, storeBeforeDigests rev key data info db !! Sprint n = Some (VBlock b).
Proof.
  intros [_ Hkey] Hbc Hleast Hblocks. cbv zeta. intros Hn.
  pose proof (grows_at_capacity info Hbc Hleast) as Hg. cbv zeta in Hg.
  unfold storeBeforeDigests, Itoa.
  destruct (decide (n = BlockCount info + 1)) as [-> | Hne].
  - eexists. apply lookup_insert_eq.
  - rewrite lookup_insert_ne
      by (intros H; apply Hne; symmetry; now apply Sprint_inj).
    rewrite lookup_insert_ne by apply Hkey.
    destruct (grows info).
    + destruct Hg as [Hcap Hsize]. rewrite putAll_lookup.
      destruct (decide (n ∈ seqZ (BlockCount info + 1) (2 * Info.Size info)))
        as [_ | Hnin]; [eauto |].
      apply Hblocks. rewrite elem_of_seqZ in Hnin. nia.
    + destruct Hg as [Hcap Hsize]. apply Hblocks. rewrite Hsize in Hn. lia.
Qed.

Lemma Legacy_RowBlockNumbers_stored idx db info :
  db !! "info" = Some (VInfo info) ->
  Legacy.RowBlockNumbers idx db = (Ok (rowBlockNumbers idx (BlockCount info)), db).
Proof.
  intros Hinfo. unfold Legacy.RowBlockNumbers, Legacy.GetBlockmatrixInfo.
  now rewrite (bind_Ok _ _ _ _ _ (eq_trans (GetBlockMatrixInfo_stored db _ Hinfo) eq_refl)).
Qed.

Lemma Legacy_ColumnBlockNumbers_stored idx db info :
  db !! "info" = Some (VInfo info) ->
  Legacy.ColumnBlockNumbers idx db = (Ok (columnBlockNumbers idx (BlockCount info)), db).
Proof.
  intros Hinfo. unfold Legacy.ColumnBlockNumbers, Legacy.GetBlockmatrixInfo.
  now rewrite (bind_Ok _ _ _ _ _ (eq_trans (GetBlockMatrixInfo_stored db _ Hinfo) eq_refl)).
Qed.

(** On a well-formed store an insert of the earlier revision under an
    ordinary key computes both digests, over the lists at the stored block
    count, and stores the metadata. *)
Lemma Legacy_AddBlock_run key data db info :
  wellFormed db -> ordinaryKey key -> db !! "info" = Some (VInfo info) ->
  let blockNum := BlockCount info + 1 in
  let row := fst (locateBlock blockNum) in
  let col := snd (locateBlock blockNum) in
  let db1 := storeBeforeDigests earlier key data info db in
  let info1 := infoBeforeDigests info in
  exists hr hc,
    0 <= row < Size blockNum /\ 0 <= col < Size blockNum /\
    Z.of_nat (length (Rows info1)) = Size blockNum /\
    Z.of_nat (length (Cols info1)) = Size blockNum /\
    Legacy.AddBlock key data db =
      (Ok tt,
       <["info" := VInfo (setCols (setRows info1 (<[Z.to_nat row := hr]> (Rows info1)))
                                  (<[Z.to_nat col := hc]> (Cols info1)))]> db1).
Proof.
  intros (info0 & Hinfo0 & Hbc & Hleast & Hrows & Hcols & Hblocks) Hkey Hinfo.
  rewrite Hinfo in Hinfo0. injection Hinfo0 as <-. cbv zeta.
  pose proof (infoBeforeDigests_dimension info Hbc Hleast) as (Hc & Hs & _).
  pose proof (grows_at_capacity info Hbc Hleast) as Hg. cbv zeta in Hg.
  pose proof (locateBlock_range (Size (BlockCount info + 1)) (BlockCount info + 1))
    as Hloc.
  destruct (Size_least (BlockCount info + 1) ltac:(lia)) as (Hn1 & Hnfit & _).
  specialize (Hloc ltac:(lia) ltac:(lia)).
  destruct Hloc as (Hrow & Hcol & _).
  assert (Hmono : Size (BlockCount info) <= Size (BlockCount info + 1)).
  { destruct (decide (BlockCount info = 0)) as [-> | H0]; [discriminate |].
    assert (H1 : 1 <= BlockCount info) by lia.
    assert (H2 : 1 <= BlockCount info + 1) by lia.
    apply (leastDimension_mono (BlockCount info) (BlockCount info + 1));
      [lia | now apply Size_least | now apply Size_least]. }
  set (blockNum := BlockCount info + 1) in *.
  set (db1 := storeBeforeDigests earlier key data info db).
  assert (Hdb1 : forall n,
             1 <= n <= Size blockNum * Size blockNum - Size blockNum ->
             exists b, db1 !! Sprint n = Some (VBlock b))
    by (intros n Hn; now apply storeBeforeDigests_records).
  assert (Hinfo1 : db1 !! "info" = Some (VInfo info)).
  { unfold db1. rewrite storeBeforeDigests_info.
    destruct Hkey as [Hki _]. now rewrite decide_False. }
  assert (Hlen : forall l : list slice,
             Z.of_nat (length l) = Info.Size info ->
             Z.of_nat (length (l ++ (if grows info then [Some []] else [])))
             = Size blockNum).
  { intros l Hl. rewrite length_app. destruct (grows info); simpl; lia. }
  destruct (writeHashes_ok (rowBlockNumbers (fst (locateBlock blockNum)) (BlockCount info))
              [] db1) as [hr Hhr].
  { intros n Hn. apply Hdb1.
    apply (blockNumbers_in_grid (fst (locateBlock blockNum)) (BlockCount info)); auto. }
  destruct (writeHashes_ok (columnBlockNumbers (snd (locateBlock blockNum)) (BlockCount info))
              [] db1) as [hc Hhc].
  { intros n Hn. apply Hdb1.
    apply (blockNumbers_in_grid (snd (locateBlock blockNum)) (BlockCount info)); auto. }
  exists (Some (sha256 hr)), (Some (sha256 hc)).
  assert (Hrl : Z.of_nat (length (Rows (infoBeforeDigests info))) = Size blockNum)
    by (rewrite infoBeforeDigests_Rows; now apply Hlen).
  assert (Hcl : Z.of_nat (length (Cols (infoBeforeDigests info))) = Size blockNum)
    by (rewrite infoBeforeDigests_Cols; now apply Hlen).
  split; [exact Hrow | split; [exact Hcol | split; [exact Hrl | split; [exact Hcl |]]]].
  rewrite AddBlock_earlier, (AddBlockOf_unfold earlier key data db info Hinfo).
  fold blockNum db1. unfold updateBlockMatrixInfoOf.
  destruct (locateBlock blockNum) as [row col]. cbn [fst snd] in *.
  cbn [rowHash colHash earlier].
  assert (Hrowhash : forall hashes,
             Legacy.updateHashes row Legacy.RowBlockNumbers hashes db1
             = (Ok (Some (sha256 hr)), db1)).
  { intros hashes. unfold Legacy.updateHashes.
    rewrite (bind_Ok _ _ _ _ _ (Legacy_RowBlockNumbers_stored row db1 info Hinfo1)).
    now rewrite (bind_Ok _ _ _ _ _ Hhr). }
  assert (Hcolhash : forall hashes,
             Legacy.updateHashes col Legacy.ColumnBlockNumbers hashes db1
             = (Ok (Some (sha256 hc)), db1)).
  { intros hashes. unfold Legacy.updateHashes.
    rewrite (bind_Ok _ _ _ _ _ (Legacy_ColumnBlockNumbers_stored col db1 info Hinfo1)).
    now rewrite (bind_Ok _ _ _ _ _ Hhc). }
  assert (Hri : 0 <= row < Z.of_nat (length (Rows (infoBeforeDigests info)))) by lia.
  assert (Hci : 0 <= col < Z.of_nat (length (Cols (infoBeforeDigests info)))) by lia.
  unfold bind at 1. unfold bind at 1.
  rewrite (assignIndex_Ok _ _ _ _ _ (Hrowhash _) Hri).
  unfold bind at 1. cbn [setRows Cols Rows].
  rewrite (assignIndex_Ok _ _ _ _ _ (Hcolhash _) Hci).
  reflexivity.
Qed.

Lemma putAll_other keys v db k :
  (forall n, k <> Sprint n) -> putAll keys v db !! k = db !! k.
Proof.
  intros Hk. unfold putAll. revert db.
  induction keys as [| i keys IH]; intros db; simpl; [reflexivity |].
  rewrite IH. apply lookup_insert_ne. intros H. now apply (Hk i).
Qed.

(** ** Inserts of either revision keep the store in shape *)

Lemma later_runs : insertsRun later.
Proof.
  intros key data db info Hwf Hkey Hinfo.
  destruct (AddBlock_run key data db info Hwf Hkey Hinfo)
    as (hr & hc & _ & _ & _ & _ & Hrl & Hcl & Hrun).
  destruct Hwf as (info0 & Hinfo0 & Hbc & Hleast & _).
  rewrite Hinfo in Hinfo0. injection Hinfo0 as <-.
  pose proof (infoBeforeDigests_dimension info Hbc Hleast) as (Hc & Hs & _).
  eexists. split; [exact Hrun |].
  cbn [BlockCount Info.Size Rows Cols setRows setCols]. rewrite !length_insert.
  auto.
Qed.

Lemma earlier_runs : insertsRun earlier.
Proof.
  intros key data db info Hwf Hkey Hinfo.
  destruct (Legacy_AddBlock_run key data db info Hwf Hkey Hinfo)
    as (hr & hc & _ & _ & Hrl & Hcl & Hrun).
  destruct Hwf as (info0 & Hinfo0 & Hbc & Hleast & _).
  rewrite Hinfo in Hinfo0. injection Hinfo0 as <-.
  pose proof (infoBeforeDigests_dimension info Hbc Hleast) as (Hc & Hs & _).
  eexists. split; [exact Hrun |].
  cbn [BlockCount Info.Size Rows Cols setRows setCols]. rewrite !length_insert.
  auto.
Qed.

Lemma shapedOf_wellFormed fill db : shapedOf fill db -> wellFormed db.
Proof.
  intros (info & Hinfo & Hbc & Hleast & Hrows & Hcols & Hold & Hnew & _).
  exists info.
  refine (conj Hinfo (conj Hbc (conj Hleast (conj Hrows (conj Hcols _))))).
  intros n Hn. destruct (Z_le_gt_dec n (BlockCount info)) as [Hle | Hgt].
  - destruct (Hold n ltac:(lia)) as (b & Hb & _). eauto.
  - eexists. apply Hnew. lia.
Qed.

Lemma fresh_store :
  fresh = <["info" := VInfo {| Info.Size := 1; Info.BlockCount := 0;
                               Info.Rows := [None]; Info.Cols := [None] |}]> ∅.
Proof. reflexivity. Qed.

Lemma fresh_lookup k : k <> "info" -> fresh !! k = None.
Proof.
  intros Hk. rewrite fresh_store, lookup_insert_ne by congruence. apply lookup_empty.
Qed.

Lemma shapedOf_fresh fill : shapedOf fill fresh.
Proof.
  eexists. split; [apply fresh_info |].
  cbn [BlockCount Info.Size Rows Cols length].
  split; [lia | split; [apply leastDimension_0 | split; [reflexivity | split; [reflexivity |]]]].
  split; [intros n Hn; lia | split; [intros n Hn; lia | split]].
  - intros n _. apply fresh_lookup, Sprint_ne_info.
  - intros k v Hk [Hki _]. rewrite fresh_lookup in Hk by exact Hki. discriminate Hk.
Qed.

Lemma tracksOf_fresh fill : tracksOf fill [] fresh.
Proof.
  split; [apply shapedOf_fresh | split; [| split]].
  - eexists. split; [apply fresh_info | reflexivity].
  - intros i kd Hi. discriminate Hi.
  - intros k [Hk _]. unfold contents. cbn [foldl]. rewrite lookup_empty.
    now apply fresh_lookup.
Qed.

Lemma forEach_app_Ok {A} (l l' : list A) (body : A -> M unit) db db1 :
  forEach l body db = (Ok tt, db1) ->
  forEach (l ++ l') body db = forEach l' body db1.
Proof.
  revert db. induction l as [| x l IH]; intros db Hl.
  - cbn in Hl. injection Hl as <-. reflexivity.
  - cbn [forEach app] in Hl |- *. unfold bind in Hl |- *.
    destruct (body x db) as [[[] | e |] db0]; try discriminate Hl.
    now apply IH.
Qed.

Lemma contents_snoc inserts key data :
  contents (inserts ++ [(key, data)]) = <[key := data]> (contents inserts).
Proof. unfold contents. now rewrite foldl_app. Qed.

Section Inserts.

Variable rev : revision.
Hypothesis rev_runs : insertsRun rev.

(** The records of the store after an insert: the block records, the
    records under ordinary keys, and the metadata. *)
Lemma AddBlockOf_lookup_number key data db info n :
  wellFormed db -> ordinaryKey key -> db !! "info" = Some (VInfo info) ->
  run (AddBlockOf rev key data) db !! Sprint n =
  if decide (n = BlockCount info + 1) then Some (VBlock (NewBlock data))
  else if grows info && bool_decide (BlockCount info + 1 <= n <= BlockCount info + 2 * Info.Size info)
       then Some (VBlock (filler rev))
       else db !! Sprint n.
Proof.
  intros Hwf Hkey Hinfo.
  destruct (rev_runs key data db info Hwf Hkey Hinfo) as (info' & Hrun & _).
  unfold run. rewrite Hrun. cbn [snd].
  rewrite lookup_insert_ne by (intros H; symmetry in H; now apply Sprint_ne_info in H).
  unfold storeBeforeDigests, Itoa. fold (Sprint (BlockCount info + 1)).
  destruct (decide (n = BlockCount info + 1)) as [-> | Hne].
  - apply lookup_insert_eq.
  - rewrite lookup_insert_ne by (intros H; apply Hne; symmetry; now apply Sprint_inj).
    rewrite lookup_insert_ne by apply Hkey.
    destruct (grows info); cbn [andb]; [| reflexivity].
    rewrite putAll_lookup.
    destruct (decide (n ∈ seqZ (BlockCount info + 1) (2 * Info.Size info))) as [Hin | Hnin];
      rewrite elem_of_seqZ in *.
    + rewrite bool_decide_eq_true_2 by lia. reflexivity.
    + rewrite bool_decide_eq_false_2 by lia. reflexivity.
Qed.

Lemma AddBlockOf_lookup_key key data db info k :
  wellFormed db -> ordinaryKey key -> db !! "info" = Some (VInfo info) ->
  ordinaryKey k ->
  run (AddBlockOf rev key data) db !! k =
  if decide (k = key) then Some (VNum (BlockCount info + 1)) else db !! k.
Proof.
  intros Hwf Hkey Hinfo [Hk1 Hk2].
  destruct (rev_runs key data db info Hwf Hkey Hinfo) as (info' & Hrun & _).
  unfold run. rewrite Hrun. cbn [snd].
  rewrite lookup_insert_ne by congruence.
  unfold storeBeforeDigests, Itoa.
  rewrite lookup_insert_ne by (intros H; now apply (Hk2 (BlockCount info + 1))).
  destruct (decide (k = key)) as [-> | Hne].
  - apply lookup_insert_eq.
  - rewrite lookup_insert_ne by congruence.
    destruct (grows info); [now apply putAll_other | reflexivity].
Qed.

Lemma AddBlockOf_lookup_info key data db info :
  wellFormed db -> ordinaryKey key -> db !! "info" = Some (VInfo info) ->
  exists info',
    run (AddBlockOf rev key data) db !! "info" = Some (VInfo info') /\
    BlockCount info' = BlockCount info + 1 /\
    Info.Size info' = Size (BlockCount info + 1) /\
    Z.of_nat (length (Rows info')) = Size (BlockCount info + 1) /\
    Z.of_nat (length (Cols info')) = Size (BlockCount info + 1).
Proof.
  intros Hwf Hkey Hinfo.
  destruct (rev_runs key data db info Hwf Hkey Hinfo) as (info' & Hrun & Hrest).
  exists info'. unfold run. rewrite Hrun. cbn [snd]. rewrite lookup_insert_eq.
  split; [reflexivity | exact Hrest].
Qed.

Lemma AddBlockOf_shaped key data db :
  shapedOf (filler rev) db -> ordinaryKey key ->
  shapedOf (filler rev) (run (AddBlockOf rev key data) db).
Proof.
  intros Hsh Hkey. pose proof (shapedOf_wellFormed _ db Hsh) as Hwf.
  destruct Hsh as (info & Hinfo & Hbc & Hleast & Hrows & Hcols & Hold & Hnew & Hout & Hkeys).
  destruct (AddBlockOf_lookup_info key data db info Hwf Hkey Hinfo)
    as (info' & Hinfo' & Hc' & Hs' & Hr' & Hk').
  pose proof (grows_at_capacity info Hbc Hleast) as Hg. cbv zeta in Hg.
  exists info'. rewrite Hc', Hs'.
  assert (Hbc1 : 0 <= BlockCount info + 1) by lia.
  assert (Hbc2 : 1 <= BlockCount info + 1) by lia.
  refine (conj Hinfo' (conj Hbc1 (conj (Size_least _ Hbc2)
           (conj Hr' (conj Hk' (conj _ (conj _ (conj _ _)))))))).
  - intros n Hn. rewrite (AddBlockOf_lookup_number key data db info n Hwf Hkey Hinfo).
    destruct (decide (n = BlockCount info + 1)) as [-> | Hne]; [eauto |].
    destruct (grows info); cbn [andb].
    + rewrite bool_decide_eq_false_2 by lia. apply Hold. lia.
    + apply Hold. lia.
  - intros n Hn. rewrite (AddBlockOf_lookup_number key data db info n Hwf Hkey Hinfo).
    rewrite decide_False by lia.
    destruct (grows info); cbn [andb].
    + destruct Hg as [Hcap Hsize]. rewrite Hsize in Hn.
      rewrite bool_decide_eq_true_2 by nia. reflexivity.
    + destruct Hg as [Hcap Hsize]. rewrite Hsize in Hn. apply Hnew. lia.
  - intros n Hn. rewrite (AddBlockOf_lookup_number key data db info n Hwf Hkey Hinfo).
    destruct (Size_least (BlockCount info + 1) Hbc2) as (Hn1 & Hnfit & _).
    rewrite decide_False by lia.
    destruct (grows info); cbn [andb].
    + destruct Hg as [Hcap Hsize]. rewrite Hsize in Hn.
      rewrite bool_decide_eq_false_2 by nia. apply Hout. nia.
    + destruct Hg as [Hcap Hsize]. rewrite Hsize in Hn. apply Hout. lia.
  - intros k v Hk Hord.
    rewrite (AddBlockOf_lookup_key key data db info k Hwf Hkey Hinfo Hord) in Hk.
    destruct (decide (k = key)) as [-> | Hne].
    + injection Hk as <-. eexists. split; [reflexivity | lia].
    + destruct (Hkeys k v Hk Hord) as (m & -> & Hm). exists m. split; [reflexivity | lia].
Qed.

Lemma AddBlockOf_tracks inserts key data db :
  tracksOf (filler rev) inserts db -> ordinaryKey key ->
  fst (AddBlockOf rev key data db) = Ok tt /\
  tracksOf (filler rev) (inserts ++ [(key, data)]) (run (AddBlockOf rev key data) db).
Proof.
  intros (Hsh & (info & Hinfo & Hcount) & Hnum & Hcont) Hkey.
  pose proof (shapedOf_wellFormed _ db Hsh) as Hwf.
  destruct (rev_runs key data db info Hwf Hkey Hinfo) as (info0 & Hrun & _).
  split; [now rewrite Hrun |]. clear info0 Hrun.
  destruct (AddBlockOf_lookup_info key data db info Hwf Hkey Hinfo)
    as (info' & Hinfo' & Hc' & _).
  assert (Hframe : forall n, 1 <= n <= BlockCount info ->
            run (AddBlockOf rev key data) db !! Sprint n = db !! Sprint n).
  { intros n Hn. rewrite (AddBlockOf_lookup_number key data db info n Hwf Hkey Hinfo).
    rewrite decide_False by lia. destruct (grows info); cbn [andb]; [| reflexivity].
    now rewrite bool_decide_eq_false_2 by lia. }
  assert (Hnew : run (AddBlockOf rev key data) db !! Sprint (BlockCount info + 1)
                 = Some (VBlock (NewBlock data))).
  { rewrite (AddBlockOf_lookup_number key data db info _ Hwf Hkey Hinfo).
    now rewrite decide_True. }
  split; [now apply AddBlockOf_shaped | split; [| split]].
  - exists info'. split; [exact Hinfo' |]. rewrite Hc', length_app. cbn. lia.
  - intros i kd Hi. apply lookup_app_Some in Hi as [Hi | [Hle Hi]].
    + rewrite Hframe; [now apply Hnum |].
      apply lookup_lt_Some in Hi. lia.
    + apply list_lookup_singleton_Some in Hi as [Hi <-]. cbn [snd].
      replace (Z.of_nat i + 1) with (BlockCount info + 1) by lia. exact Hnew.
  - intros k Hord. rewrite contents_snoc.
    rewrite (AddBlockOf_lookup_key key data db info k Hwf Hkey Hinfo Hord).
    destruct (decide (k = key)) as [-> | Hne].
    + rewrite lookup_insert_eq. eexists. split; [reflexivity | exact Hnew].
    + rewrite lookup_insert_ne by congruence.
      specialize (Hcont k Hord). destruct (contents inserts !! k) as [d |]; [| exact Hcont].
      destruct Hcont as (m & Hk & Hm). exists m. split; [exact Hk |].
      destruct Hsh as (info0 & Hinfo0 & _ & _ & _ & _ & _ & _ & _ & Hkeys).
      rewrite Hinfo in Hinfo0. injection Hinfo0 as <-.
      destruct (Hkeys k _ Hk Hord) as (m' & [= <-] & Hm').
      now rewrite Hframe.
Qed.

(** A sequence of inserts under ordinary keys, from a store that tracks the
    inserts before it. *)
Lemma insertAllOf_tracks_from inserts0 inserts db :
  tracksOf (filler rev) inserts0 db ->
  Forall (fun kd => ordinaryKey (fst kd)) inserts ->
  fst (insertAllOf (AddBlockOf rev) inserts db) = Ok tt /\
  tracksOf (filler rev) (inserts0 ++ inserts) (run (insertAllOf (AddBlockOf rev) inserts) db).
Proof.
  unfold insertAllOf. revert inserts0 db.
  induction inserts as [| [key data] inserts IH]; intros inserts0 db Htr Hkeys.
  - rewrite app_nil_r. split; [reflexivity | exact Htr].
  - apply Forall_cons in Hkeys as [Hkey Hkeys]. cbn [fst] in Hkey.
    destruct (AddBlockOf_tracks inserts0 key data db Htr Hkey) as [Hok Htr'].
    destruct (IH _ _ Htr' Hkeys) as [Hoks Htrs].
    unfold run in *. cbn [forEach fst snd]. unfold bind.
    destruct (AddBlockOf rev key data db) as [[[] | e |] db']; cbn [fst snd] in *;
      try discriminate Hok.
    rewrite <- app_assoc in Htrs. split; assumption.
Qed.

Lemma insertAllOf_tracks inserts :
  Forall (fun kd => ordinaryKey (fst kd)) inserts ->
  fst (insertAllOf (AddBlockOf rev) inserts fresh) = Ok tt /\
  tracksOf (filler rev) inserts (run (insertAllOf (AddBlockOf rev) inserts) fresh).
Proof.
  intros Hkeys.
  exact (insertAllOf_tracks_from [] inserts fresh (tracksOf_fresh _) Hkeys).
Qed.

End Inserts.

(** Both revisions run, so the lemmas of the section hold for either. *)
Lemma either_revision (addBlock : string -> slice -> M unit) :
  addBlock = AddBlock \/ addBlock = Legacy.AddBlock ->
  exists rev, insertsRun rev /\ addBlock = AddBlockOf rev /\
              (rev = later \/ rev = earlier).
Proof.
  intros [-> | ->].
  - exists later. split; [apply later_runs | split; [reflexivity | now left]].
  - exists earlier. split; [apply earlier_runs | split; [reflexivity | now right]].
Qed.

(** For the later revision: *)
Lemma AddBlock_lookup_number key data db info n :
  wellFormed db -> ordinaryKey key -> db !! "info" = Some (VInfo info) ->
  run (AddBlock key data) db !! Sprint n =
  if decide (n = BlockCount info + 1) then Some (VBlock (NewBlock data))
  else if grows info && bool_decide (BlockCount info + 1 <= n <= BlockCount info + 2 * Info.Size info)
       then Some (VBlock EmptyBlock)
       else db !! Sprint n.
Proof. exact (AddBlockOf_lookup_number later later_runs key data db info n). Qed.

Lemma AddBlock_lookup_key key data db info k :
  wellFormed db -> ordinaryKey key -> db !! "info" = Some (VInfo info) ->
  ordinaryKey k ->
  run (AddBlock key data) db !! k =
  if decide (k = key) then Some (VNum (BlockCount info + 1)) else db !! k.
Proof. exact (AddBlockOf_lookup_key later later_runs key data db info k). Qed.

Lemma AddBlock_lookup_info key data db info :
  wellFormed db -> ordinaryKey key -> db !! "info" = Some (VInfo info) ->
  exists info',
    run (AddBlock key data) db !! "info" = Some (VInfo info') /\
    BlockCount info' = BlockCount info + 1 /\
    Info.Size info' = Size (BlockCount info + 1) /\
    Z.of_nat (length (Rows info')) = Size (BlockCount info + 1) /\
    Z.of_nat (length (Cols info')) = Size (BlockCount info + 1).
Proof. exact (AddBlockOf_lookup_info later later_runs key data db info). Qed.

Lemma shaped_wellFormed db : shaped db -> wellFormed db.
Proof. apply shapedOf_wellFormed. Qed.

Lemma shaped_fresh : shaped fresh.
Proof. apply shapedOf_fresh. Qed.

Lemma AddBlock_shaped key data db :
  shaped db -> ordinaryKey key -> shaped (run (AddBlock key data) db).
Proof. exact (AddBlockOf_shaped later later_runs key data db). Qed.

Lemma insertAll_tracks inserts :
  Forall (fun kd => ordinaryKey (fst kd)) inserts ->
  fst (insertAll inserts fresh) = Ok tt /\
  tracks inserts (run (insertAll inserts) fresh).
Proof. exact (insertAllOf_tracks later later_runs inserts). Qed.

(** ** The decimal text of a number *)

Lemma pretty_N_go_head x s :
  (0 < x)%N ->
  exists d rest, (1 <= d <= 9)%N /\ (d <= x)%N /\
                 pretty_N_go x s = String (pretty_N_char d) rest.
Proof.
  revert s. induction (N.lt_wf_0 x) as [x _ IH]. intros s Hx.
  rewrite pretty_N_go_step by assumption.
  destruct (decide (x < 10)%N) as [Hlt | Hge].
  - rewrite N.div_small, N.mod_small, pretty_N_go_0 by assumption.
    exists x, s. repeat apply conj; try lia. reflexivity.
  - assert (Hdiv : (0 < x `div` 10)%N) by (apply N.div_str_pos; lia).
    assert (Hdlt : (x `div` 10 < x)%N) by (apply N.div_lt; lia).
    destruct (IH _ Hdlt (String (pretty_N_char (x `mod` 10)) s) Hdiv)
      as (d & rest & Hd & Hle & Heq).
    exists d, rest. repeat apply conj; try lia. exact Heq.
Qed.

(** The text of a number from 1 starts with its leading digit, which is
    between 1 and 9 and at most the number. *)
Lemma Sprint_head n :
  1 <= n ->
  exists d rest, 1 <= d <= 9 /\ d <= n /\
                 Sprint n = String (pretty_N_char (Z.to_N d)) rest.
Proof.
  intros Hn. destruct n as [| p | p]; try lia.
  unfold Sprint, pretty, pretty_Z, pretty, pretty_positive, pretty, pretty_N.
  rewrite decide_False by discriminate.
  destruct (pretty_N_go_head (N.pos p) EmptyString ltac:(lia))
    as (d & rest & Hd & Hle & Heq).
  exists (Z.of_N d), rest. rewrite N2Z.id. repeat apply conj; try lia. exact Heq.
Qed.

Lemma Sprint_head_cases n :
  exists c rest, Sprint n = String c rest /\
                 (c = "-"%char \/ exists d, digitVal c = Some d).
Proof.
  destruct n as [| p | p].
  - exists "0"%char, EmptyString. split; [reflexivity | right]. now exists 0.
  - destruct (Sprint_head (Z.pos p) ltac:(lia)) as (d & rest & Hd & _ & Heq).
    exists (pretty_N_char (Z.to_N d)), rest. split; [exact Heq | right].
    assert (d = 1 \/ d = 2 \/ d = 3 \/ d = 4 \/ d = 5 \/ d = 6 \/ d = 7 \/ d = 8 \/ d = 9)
      as Hcases by lia.
    exists d. repeat (destruct Hcases as [-> | Hcases]; [reflexivity |]).
    subst d. reflexivity.
  - exists "-"%char. eexists. split; [reflexivity | now left].
Qed.

(** A key that starts with neither a digit nor a minus sign, and is not
    ["info"], is ordinary. *)
Lemma ordinaryKey_head c rest :
  digitVal c = None -> c <> "-"%char -> String c rest <> "info" ->
  ordinaryKey (String c rest).
Proof.
  intros Hd Hm Hi. split; [exact Hi |]. intros n Heq.
  destruct (Sprint_head_cases n) as (c' & rest' & Hs & [-> | [d Hd']]);
    rewrite Hs in Heq; injection Heq as Hc _; congruence.
Qed.

(** On a record that holds the number [m], [BlockNumber] returns the leading
    digit of [m]. *)
Lemma BlockNumber_leading_digit key db m :
  db !! key = Some (VNum m) -> 1 <= m ->
  exists d, 1 <= d <= 9 /\ d <= m /\ BlockNumber key db = (Ok d, db).
Proof.
  intros Hkey Hm. destruct (Sprint_head m Hm) as (d & rest & Hd & Hle & Heq).
  exists d. split; [exact Hd | split; [exact Hle |]].
  unfold BlockNumber, bind, dbGet. rewrite Hkey. cbn [encode].
  unfold Itoa. fold (Sprint m). rewrite Heq.
  assert (d = 1 \/ d = 2 \/ d = 3 \/ d = 4 \/ d = 5 \/ d = 6 \/ d = 7 \/ d = 8 \/ d = 9)
    as Hcases by lia.
  repeat (destruct Hcases as [-> | Hcases]; [reflexivity |]).
  subst d. reflexivity.
Qed.

(** ** Lookups after a sequence of inserts *)

Lemma GetBlockByNumber_block n b db :
  db !! Sprint n = Some (VBlock b) -> GetBlockByNumber n db = (Ok b, db).
Proof. intros H. unfold GetBlockByNumber, bind, dbGet, lift. now rewrite H. Qed.

Lemma GetBlockByNumber_absent n db :
  db !! Sprint n = None -> GetBlockByNumber n db = (Err ErrNotFound, db).
Proof. intros H. unfold GetBlockByNumber, bind, dbGet. now rewrite H. Qed.

(** X5.  After [New] on an empty store and any sequence of inserts under
    ordinary keys, every insert has returned without error, the block count
    is the number of inserts, and [GetBlock] behaves as a map in which the
    last insert under a key wins: it returns the block with the data last
    inserted under the key and the SHA-256 of that data, and not-found for a
    key never inserted; it leaves the store as it is. *)
Theorem GetBlock_after_inserts inserts :
  Forall (fun kd => ordinaryKey (fst kd)) inserts ->
  let db := run (insertAll inserts) fresh in
  fst (insertAll inserts fresh) = Ok tt /\
  BlockCount <$> storedInfo db = Some (Z.of_nat (length inserts)) /\
  forall key, ordinaryKey key ->
    GetBlock key db =
    (match contents inserts !! key with
     | Some data => Ok (NewBlock data)
     | None => Err ErrNotFound
     end, db).
Proof.
  intros Hkeys. cbv zeta.
  destruct (insertAll_tracks inserts Hkeys)
    as (Hok & Hsh & (info & Hinfo & Hcount) & Hnum & Hcont).
  split; [exact Hok | split].
  - unfold storedInfo. rewrite Hinfo. cbn. now rewrite Hcount.
  - intros key Hord. specialize (Hcont key Hord).
    unfold GetBlock, bind, dbGet, lift.
    destruct (contents inserts !! key) as [d |].
    + destruct Hcont as (m & -> & Hm). cbn [encode]. unfold Itoa.
      fold (Sprint m). now rewrite Hm.
    + now rewrite Hcont.
Qed.

Lemma ordinaryKey_a : ordinaryKey "a".
Proof. apply ordinaryKey_head; [reflexivity | discriminate | discriminate]. Qed.

Lemma ordinaryKey_b : ordinaryKey "b".
Proof. apply ordinaryKey_head; [reflexivity | discriminate | discriminate]. Qed.

Lemma GetBlock_after_inserts_witness :
  let inserts := [("a", Some ["001"%byte]); ("b", None); ("a", Some ["002"%byte])] in
  let db := run (insertAll inserts) fresh in
  fst (insertAll inserts fresh) = Ok tt /\
  BlockCount <$> storedInfo db = Some (Z.of_nat (length inserts)) /\
  forall key, ordinaryKey key ->
    GetBlock key db =
    (match contents inserts !! key with
     | Some data => Ok (NewBlock data)
     | None => Err ErrNotFound
     end, db).
Proof.
  apply (GetBlock_after_inserts
           [("a", Some ["001"%byte]); ("b", None); ("a", Some ["002"%byte])]).
  apply Forall_cons_2; [exact ordinaryKey_a |].
  apply Forall_cons_2; [exact ordinaryKey_b |].
  apply Forall_cons_2; [exact ordinaryKey_a | apply Forall_nil_2].
Defined.

(** X6.  After the same inserts the dimension is 1 for no insert and [Size]
    of their number otherwise, and [GetBlockByNumber] returns the block of
    the i-th insert for the number i, the empty block for the numbers above
    the block count up to the capacity of the dimension, and not-found for
    every other number. *)
Theorem GetBlockByNumber_after_inserts inserts :
  Forall (fun kd => ordinaryKey (fst kd)) inserts ->
  let db := run (insertAll inserts) fresh in
  let count := Z.of_nat (length inserts) in
  let size := if count =? 0 then 1 else Size count in
  Info.Size <$> storedInfo db = Some size /\
  (forall (i : nat) kd, inserts !! i = Some kd ->
     GetBlockByNumber (Z.of_nat i + 1) db = (Ok (NewBlock (snd kd)), db)) /\
  (forall n, count < n <= size * size - size ->
     GetBlockByNumber n db = (Ok EmptyBlock, db)) /\
  (forall n, n < 1 \/ size * size - size < n ->
     GetBlockByNumber n db = (Err ErrNotFound, db)).
Proof.
  intros Hkeys. cbv zeta.
  destruct (insertAll_tracks inserts Hkeys)
    as (Hok & Hsh & (info & Hinfo & Hcount) & Hnum & Hcont).
  destruct Hsh as (info0 & Hinfo0 & Hbc & Hleast & _ & _ & _ & Hnew & Hout & _).
  rewrite Hinfo in Hinfo0. injection Hinfo0 as <-.
  assert (Hsize : Info.Size info =
                  if Z.of_nat (length inserts) =? 0 then 1
                  else Size (Z.of_nat (length inserts))).
  { rewrite <- Hcount. destruct (Z.eqb_spec (BlockCount info) 0) as [H0 | H0].
    - rewrite H0 in Hleast. apply (leastDimension_unique 0); [exact Hleast | apply leastDimension_0].
    - apply (leastDimension_unique (BlockCount info)); [exact Hleast |].
      apply Size_least. lia. }
  rewrite <- Hsize, <- Hcount.
  split; [| split; [| split]].
  - unfold storedInfo. now rewrite Hinfo.
  - intros i kd Hi. apply GetBlockByNumber_block. now apply Hnum.
  - intros n Hn. apply GetBlockByNumber_block. now apply Hnew.
  - intros n Hn. apply GetBlockByNumber_absent. now apply Hout.
Qed.

Lemma GetBlockByNumber_after_inserts_witness :
  let inserts := [("a", Some ["001"%byte]); ("b", None); ("a", Some ["002"%byte])] in
  let db := run (insertAll inserts) fresh in
  let count := Z.of_nat (length inserts) in
  let size := if count =? 0 then 1 else Size count in
  Info.Size <$> storedInfo db = Some size /\
  (forall (i : nat) kd, inserts !! i = Some kd ->
     GetBlockByNumber (Z.of_nat i + 1) db = (Ok (NewBlock (snd kd)), db)) /\
  (forall n, count < n <= size * size - size ->
     GetBlockByNumber n db = (Ok EmptyBlock, db)) /\
  (forall n, n < 1 \/ size * size - size < n ->
     GetBlockByNumber n db = (Err ErrNotFound, db)).
Proof.
  apply (GetBlockByNumber_after_inserts
           [("a", Some ["001"%byte]); ("b", None); ("a", Some ["002"%byte])]).
  apply Forall_cons_2; [exact ordinaryKey_a |].
  apply Forall_cons_2; [exact ordinaryKey_b |].
  apply Forall_cons_2; [exact ordinaryKey_a | apply Forall_nil_2].
Defined.

(** ** One insert on a well-formed store *)

(** X7.  On a well-formed store, [AddBlock] under an ordinary key returns
    without error; [GetBlock] of the key then returns the data with its
    SHA-256, and so does [GetBlockByNumber] of the next block number; the
    block count is one more; and the records of the blocks up to the old
    block count and of every other ordinary key are as before. *)
Theorem AddBlock_round_trip_and_frame key data db info :
  wellFormed db -> ordinaryKey key -> storedInfo db = Some info ->
  let db' := run (AddBlock key data) db in
  fst (AddBlock key data db) = Ok tt /\
  GetBlock key db' = (Ok {| Data := data; Hash := Some (sha256 (content data)) |}, db') /\
  GetBlockByNumber (BlockCount info + 1) db' = GetBlock key db' /\
  BlockCount <$> storedInfo db' = Some (BlockCount info + 1) /\
  (forall n, 1 <= n <= BlockCount info -> db' !! Sprint n = db !! Sprint n) /\
  (forall k, ordinaryKey k -> k <> key -> db' !! k = db !! k).
Proof.
  intros Hwf Hkey Hinfo. apply storedInfo_Some in Hinfo. cbv zeta.
  destruct (AddBlock_run key data db info Hwf Hkey Hinfo)
    as (hr & hc & _ & _ & _ & _ & _ & _ & Hrun).
  destruct (AddBlock_lookup_info key data db info Hwf Hkey Hinfo)
    as (info' & Hinfo' & Hc' & _).
  pose proof (AddBlock_lookup_number key data db info (BlockCount info + 1) Hwf Hkey Hinfo)
    as Hnew. rewrite decide_True in Hnew by reflexivity.
  pose proof (AddBlock_lookup_key key data db info key Hwf Hkey Hinfo Hkey) as Hk.
  rewrite decide_True in Hk by reflexivity.
  assert (Hget : GetBlock key (run (AddBlock key data) db)
                 = (Ok (NewBlock data), run (AddBlock key data) db)).
  { unfold GetBlock, bind, dbGet, lift. rewrite Hk. cbn [encode]. unfold Itoa.
    fold (Sprint (BlockCount info + 1)). now rewrite Hnew. }
  split; [now rewrite Hrun | split; [exact Hget | split; [| split; [| split]]]].
  - rewrite Hget. now apply GetBlockByNumber_block.
  - unfold storedInfo. rewrite Hinfo'. cbn. now rewrite Hc'.
  - intros n Hn. rewrite (AddBlock_lookup_number key data db info n Hwf Hkey Hinfo).
    rewrite decide_False by lia. destruct (grows info); cbn [andb]; [| reflexivity].
    now rewrite bool_decide_eq_false_2 by lia.
  - intros k Hord Hne.
    rewrite (AddBlock_lookup_key key data db info k Hwf Hkey Hinfo Hord).
    now rewrite decide_False.
Qed.

Lemma AddBlock_round_trip_and_frame_witness :
  let key := "a" in
  let data := Some ["007"%byte] in
  let db := fresh in
  let info := {| Info.Size := 1; Info.BlockCount := 0;
                 Info.Rows := [None]; Info.Cols := [None] |} in
  let db' := run (AddBlock key data) db in
  fst (AddBlock key data db) = Ok tt /\
  GetBlock key db' = (Ok {| Data := data; Hash := Some (sha256 (content data)) |}, db') /\
  GetBlockByNumber (BlockCount info + 1) db' = GetBlock key db' /\
  BlockCount <$> storedInfo db' = Some (BlockCount info + 1) /\
  (forall n, 1 <= n <= BlockCount info -> db' !! Sprint n = db !! Sprint n) /\
  (forall k, ordinaryKey k -> k <> key -> db' !! k = db !! k).
Proof.
  apply (AddBlock_round_trip_and_frame "a" (Some ["007"%byte]) fresh).
  - apply wellFormed_fresh.
  - apply ordinaryKey_a.
  - reflexivity.
Defined.

(** X8.  After such an insert the digest stored for the row of the new
    block is the one [calculateRowHash] computes for that row on the store
    the insert leaves, at the new block count, and likewise for its column;
    and the new block is among the blocks these two digests cover. *)
Theorem AddBlock_digests_current key data db info :
  wellFormed db -> ordinaryKey key -> storedInfo db = Some info ->
  let db' := run (AddBlock key data) db in
  let blockNum := BlockCount info + 1 in
  let row := fst (locateBlock blockNum) in
  let col := snd (locateBlock blockNum) in
  exists info' hr hc,
    storedInfo db' = Some info' /\
    index (Rows info') row = Ok hr /\
    calculateRowHash row (BlockCount info') db' = (Ok hr, db') /\
    index (Cols info') col = Ok hc /\
    calculateColumnHash col (BlockCount info') db' = (Ok hc, db') /\
    blockNum ∈ rowBlockNumbers row (BlockCount info') /\
    blockNum ∈ columnBlockNumbers col (BlockCount info').
Proof.
  intros Hwf Hkey Hinfo. apply storedInfo_Some in Hinfo. cbv zeta.
  destruct (AddBlock_run key data db info Hwf Hkey Hinfo)
    as (hr & hc & Hhr & Hhc & Hrow & Hcol & Hrl & Hcl & Hrun).
  destruct Hwf as (info0 & Hinfo0 & Hbc & Hleast & _).
  rewrite Hinfo in Hinfo0. injection Hinfo0 as <-.
  pose proof (infoBeforeDigests_dimension info Hbc Hleast) as (Hc & Hs & _).
  destruct (Size_least (BlockCount info + 1) ltac:(lia)) as (Hn1 & Hnfit & _).
  set (blockNum := BlockCount info + 1) in *.
  set (row := fst (locateBlock blockNum)) in *.
  set (col := snd (locateBlock blockNum)) in *.
  set (db1 := storeBeforeDigests later key data info db) in *.
  set (info1 := infoBeforeDigests info) in *.
  set (info' := setCols (setRows info1 (<[Z.to_nat row := hr]> (Rows info1)))
                        (<[Z.to_nat col := hc]> (Cols info1))) in *.
  assert (Hcount : BlockCount info' = blockNum) by exact Hc.
  exists info', hr, hc. unfold run. rewrite Hrun. cbn [snd]. rewrite Hcount.
  split; [| split; [| split; [| split; [| split; [| split]]]]].
  - apply storedInfo_Some, lookup_insert_eq.
  - replace row with (Z.of_nat (Z.to_nat row)) at 1 by lia. apply index_lookup.
    unfold info'. cbn [Rows setRows setCols]. apply list_lookup_insert_eq. lia.
  - pose proof (calculateRowHash_info row blockNum (VInfo info') db1) as Hf.
    pose proof (calculateRowHash_db row blockNum (<["info" := VInfo info']> db1)) as Hd.
    rewrite Hhr in Hf. cbn [fst] in Hf.
    destruct (calculateRowHash row blockNum (<["info" := VInfo info']> db1)) as [r d].
    cbn [fst snd] in *. now subst.
  - replace col with (Z.of_nat (Z.to_nat col)) at 1 by lia. apply index_lookup.
    unfold info'. cbn [Cols setRows setCols]. apply list_lookup_insert_eq. lia.
  - pose proof (calculateColumnHash_info col blockNum (VInfo info') db1) as Hf.
    pose proof (calculateColumnHash_db col blockNum (<["info" := VInfo info']> db1)) as Hd.
    rewrite Hhc in Hf. cbn [fst] in Hf.
    destruct (calculateColumnHash col blockNum (<["info" := VInfo info']> db1)) as [r d].
    cbn [fst snd] in *. now subst.
  - apply (rowBlockNumbers_locateBlock row blockNum blockNum Hrow). split; [lia | reflexivity].
  - apply (columnBlockNumbers_locateBlock col blockNum blockNum Hcol). split; [lia | reflexivity].
Qed.

Lemma AddBlock_digests_current_witness :
  let key := "a" in
  let data := Some ["007"%byte] in
  let db := fresh in
  let info := {| Info.Size := 1; Info.BlockCount := 0;
                 Info.Rows := [None]; Info.Cols := [None] |} in
  let db' := run (AddBlock key data) db in
  let blockNum := BlockCount info + 1 in
  let row := fst (locateBlock blockNum) in
  let col := snd (locateBlock blockNum) in
  exists info' hr hc,
    storedInfo db' = Some info' /\
    index (Rows info') row = Ok hr /\
    calculateRowHash row (BlockCount info') db' = (Ok hr, db') /\
    index (Cols info') col = Ok hc /\
    calculateColumnHash col (BlockCount info') db' = (Ok hc, db') /\
    blockNum ∈ rowBlockNumbers row (BlockCount info') /\
    blockNum ∈ columnBlockNumbers col (BlockCount info').
Proof.
  apply (AddBlock_digests_current "a" (Some ["007"%byte]) fresh).
  - apply wellFormed_fresh.
  - apply ordinaryKey_a.
  - reflexivity.
Defined.

(** ** The grid that [Matrix] returns *)

Lemma square_makeGrid size : 0 <= size -> square size (makeGrid size).
Proof.
  intros Hs. unfold makeGrid. split.
  - rewrite length_replicate. lia.
  - intros row Hrow. apply elem_of_replicate in Hrow as [-> _].
    rewrite length_replicate. lia.
Qed.

Lemma cell_makeGrid size i j :
  0 <= i < size -> 0 <= j < size -> cell (makeGrid size) i j = Some None.
Proof.
  intros Hi Hj. unfold cell, makeGrid.
  replace ((0 <=? i) && (0 <=? j)) with true by (symmetry; apply andb_true_intro; split; lia).
  cbv iota. rewrite lookup_replicate_2 by lia. cbn. apply lookup_replicate_2. lia.
Qed.

Lemma setCell_square d matrix i j block :
  square d matrix -> 0 <= i < d -> 0 <= j < d ->
  exists matrix',
    setCell matrix i j block = Ok matrix' /\ square d matrix' /\
    forall i' j', 0 <= i' -> 0 <= j' ->
      cell matrix' i' j' =
      if decide (i' = i /\ j' = j) then Some (Some block) else cell matrix i' j'.
Proof.
  intros [Hlen Hrows] Hi Hj. unfold setCell.
  replace ((0 <=? i) && (i <? Z.of_nat (length matrix))) with true
    by (symmetry; apply andb_true_intro; split; lia).
  destruct (matrix !! Z.to_nat i) as [row |] eqn:Hrow;
    [| apply lookup_ge_None in Hrow; lia].
  pose proof (Hrows row (list_elem_of_lookup_2 _ _ _ Hrow)) as Hrl.
  replace ((0 <=? j) && (j <? Z.of_nat (length row))) with true
    by (symmetry; apply andb_true_intro; split; lia).
  eexists. split; [reflexivity | split; [split |]].
  - now rewrite length_insert.
  - intros r Hr. apply list_elem_of_lookup in Hr as [k Hk].
    destruct (decide (k = Z.to_nat i)) as [-> | Hne].
    + rewrite list_lookup_insert_eq in Hk by (apply lookup_lt_Some in Hrow; lia).
      injection Hk as <-. now rewrite length_insert.
    + rewrite list_lookup_insert_ne in Hk by congruence.
      apply Hrows. now apply list_elem_of_lookup_2 in Hk.
  - intros i' j' Hi' Hj'. unfold cell.
    replace ((0 <=? i') && (0 <=? j')) with true
      by (symmetry; apply andb_true_intro; split; lia).
    cbv iota.
    destruct (decide (i' = i)) as [-> | Hne].
    + rewrite list_lookup_insert_eq by (apply lookup_lt_Some in Hrow; lia).
      rewrite Hrow. cbn.
      destruct (decide (j' = j)) as [-> | Hnej].
      * rewrite decide_True by auto. apply list_lookup_insert_eq. lia.
      * rewrite decide_False by tauto. apply list_lookup_insert_ne. lia.
    + rewrite decide_False by tauto.
      rewrite list_lookup_insert_ne by lia. reflexivity.
Qed.

(** The loop leaves the store as it is. *)
Lemma populate_db empty blockNums matrix db :
  snd (populate empty blockNums matrix db) = db.
Proof.
  revert matrix. induction blockNums as [| n blockNums IH]; intros matrix; [reflexivity |].
  cbn [populate]. destruct (locateBlock n) as [i j].
  unfold bind, dbGet, lift. destruct (db !! Sprint n) as [v |]; [| reflexivity].
  destruct (unmarshalInto empty v); [| reflexivity | reflexivity].
  destruct (setCell matrix i j a); [apply IH | reflexivity | reflexivity].
Qed.

(** With a block record under every number of the list, the loop puts each
    block into its cell. *)
Lemma populate_cells empty db d blockNums matrix :
  0 <= d -> square d matrix ->
  (forall n, n ∈ blockNums -> 1 <= n <= d * d - d) ->
  (forall n, n ∈ blockNums -> exists b, db !! Sprint n = Some (VBlock b)) ->
  exists matrix',
    populate empty blockNums matrix db = (Ok matrix', db) /\ square d matrix' /\
    (forall n b, n ∈ blockNums -> db !! Sprint n = Some (VBlock b) ->
       cell matrix' (fst (locateBlock n)) (snd (locateBlock n)) = Some (Some b)) /\
    (forall i j, 0 <= i -> 0 <= j ->
       (forall n, n ∈ blockNums -> locateBlock n <> (i, j)) ->
       cell matrix' i j = cell matrix i j).
Proof.
  intros Hd. revert matrix.
  induction blockNums as [| n blockNums IH]; intros matrix Hsq Hrange Hrec.
  - exists matrix. split; [reflexivity | split; [exact Hsq | split]].
    + intros n b Hn. now apply elem_of_nil in Hn.
    + reflexivity.
  - destruct (Hrec n ltac:(left)) as [b Hb].
    pose proof (Hrange n ltac:(left)) as Hn.
    destruct (locateBlock_range d n Hn Hd) as (Hi & Hj & Hne).
    destruct (setCell_square d matrix (fst (locateBlock n)) (snd (locateBlock n)) b Hsq Hi Hj)
      as (matrix1 & Hset & Hsq1 & Hcell1).
    destruct (IH matrix1 Hsq1 (fun m Hm => Hrange m ltac:(now right))
                (fun m Hm => Hrec m ltac:(now right)))
      as (matrix' & Hpop & Hsq' & Hhit & Hmiss).
    exists matrix'. split; [| split; [exact Hsq' | split]].
    + cbn [populate]. destruct (locateBlock n) as [i j]. cbn [fst snd] in *.
      unfold bind at 1. unfold dbGet. rewrite Hb.
      unfold bind at 1. unfold lift at 1. cbn [unmarshalInto].
      unfold bind, lift. rewrite Hset. exact Hpop.
    + intros m b' Hm Hb'.
      destruct (decide (m ∈ blockNums)) as [Hin | Hnin]; [now apply Hhit |].
      apply elem_of_cons in Hm as [-> | Hm]; [| contradiction].
      rewrite Hb in Hb'. injection Hb' as <-.
      rewrite Hmiss; [| lia | lia |].
      * rewrite Hcell1 by lia. now rewrite decide_True.
      * intros m Hm Heq. apply Hnin.
        replace n with m; [exact Hm |].
        rewrite <- (blockAt_locateBlock m), <- (blockAt_locateBlock n);
          [| lia | pose proof (Hrange m ltac:(now right)); lia].
        f_equal. rewrite Heq. now destruct (locateBlock n).
    + intros i j Hi0 Hj0 Hnone.
      rewrite Hmiss by (try assumption; intros m Hm; apply Hnone; now right).
      rewrite Hcell1 by assumption. rewrite decide_False; [reflexivity |].
      intros [-> ->]. apply (Hnone n ltac:(left)). now destruct (locateBlock n).
Qed.

Lemma populate_empty empty1 empty2 db blockNums matrix :
  (forall n, n ∈ blockNums -> exists b, db !! Sprint n = Some (VBlock b)) ->
  populate empty1 blockNums matrix db = populate empty2 blockNums matrix db.
Proof.
  revert matrix. induction blockNums as [| n blockNums IH]; intros matrix Hrec;
    [reflexivity |].
  destruct (Hrec n ltac:(left)) as [b Hb].
  cbn [populate]. destruct (locateBlock n) as [i j].
  unfold bind, dbGet, lift. rewrite Hb. cbn [unmarshalInto].
  destruct (setCell matrix i j b); try reflexivity.
  apply IH. intros m Hm. apply Hrec. now right.
Qed.

(** The grid on a well-formed store. *)
Lemma Matrix_on_wellFormed db info :
  wellFormed db -> storedInfo db = Some info ->
  let d := Size (BlockCount info) in
  exists matrix,
    Matrix db = (Ok matrix, db) /\
    Legacy.Matrix db = (Ok matrix, db) /\
    square d matrix /\
    (forall n, 1 <= n <= d * d - d ->
       exists b, cell matrix (fst (locateBlock n)) (snd (locateBlock n)) = Some (Some b) /\
                 GetBlockByNumber n db = (Ok b, db)) /\
    (forall i, 0 <= i < d -> cell matrix i i = Some None).
Proof.
  intros (info0 & Hinfo0 & Hbc & Hleast & _ & _ & Hblocks) Hinfo.
  apply storedInfo_Some in Hinfo. rewrite Hinfo in Hinfo0. injection Hinfo0 as <-.
  cbv zeta. set (d := Size (BlockCount info)).
  assert (Hd : 0 <= d /\ Info.Size info * Info.Size info - Info.Size info = d * d - d).
  { unfold d. destruct (decide (BlockCount info = 0)) as [H0 | H0].
    - rewrite H0 in *. rewrite (leastDimension_unique 0 _ 1 Hleast leastDimension_0).
      split; [discriminate | reflexivity].
    - rewrite (leastDimension_unique _ _ _ Hleast (Size_least (BlockCount info) ltac:(lia))).
      destruct (Size_least (BlockCount info) ltac:(lia)) as (H1 & _). split; [lia | reflexivity]. }
  destruct Hd as [Hd Hcap].
  assert (Hin : forall n, n ∈ seqZ 1 (Info.Size info * Info.Size info - Info.Size info)
                          <-> 1 <= n <= d * d - d).
  { intros n. rewrite elem_of_seqZ, Hcap. lia. }
  assert (Hpop : forall empty, exists matrix,
             populate empty (seqZ 1 (Info.Size info * Info.Size info - Info.Size info))
               (makeGrid d) db = (Ok matrix, db) /\ square d matrix /\
             (forall n b, 1 <= n <= d * d - d -> db !! Sprint n = Some (VBlock b) ->
                cell matrix (fst (locateBlock n)) (snd (locateBlock n)) = Some (Some b)) /\
             (forall i, 0 <= i < d -> cell matrix i i = Some None)).
  { intros empty.
    destruct (populate_cells empty db d
                (seqZ 1 (Info.Size info * Info.Size info - Info.Size info))
                (makeGrid d) Hd (square_makeGrid d Hd))
      as (matrix & Hrun & Hsq & Hhit & Hmiss).
    - intros n Hn. now apply Hin.
    - intros n Hn. apply Hblocks. apply Hin in Hn. lia.
    - exists matrix. split; [exact Hrun | split; [exact Hsq | split]].
      + intros n b Hn. apply Hhit. now apply Hin.
      + intros i Hi. rewrite Hmiss; [now apply cell_makeGrid | lia | lia |].
        intros n Hn Heq. apply Hin in Hn.
        destruct (locateBlock_range d n Hn Hd) as (_ & _ & Hne).
        rewrite Heq in Hne. now apply Hne. }
  destruct (Hpop EmptyBlock) as (matrix & Hrun & Hsq & Hhit & Hdiag).
  exists matrix.
  assert (Hget : GetBlockMatrixInfo db = (Ok info, db))
    by (rewrite (GetBlockMatrixInfo_stored db _ Hinfo); reflexivity).
  split; [| split; [| split; [exact Hsq | split; [| exact Hdiag]]]].
  - unfold Matrix. rewrite (bind_Ok _ _ _ _ _ Hget). exact Hrun.
  - unfold Legacy.Matrix, Legacy.GetBlockmatrixInfo. rewrite (bind_Ok _ _ _ _ _ Hget).
    fold d. rewrite <- Hrun. apply populate_empty.
    intros n Hn. apply Hblocks. apply Hin in Hn. lia.
  - intros n Hn. destruct (Hblocks n ltac:(lia)) as [b Hb].
    exists b. split; [now apply Hhit | now apply GetBlockByNumber_block].
Qed.

(** X9.  On a well-formed store [Matrix], in either revision, returns
    without error and without writing a grid of [Size blockCount] rows and
    columns in which the cell that [locateBlock] gives for the number [n], up
    to the capacity, holds the block that [GetBlockByNumber n] returns, and
    the cells of the diagonal are nil. *)
Theorem Matrix_is_the_placement db info :
  wellFormed db -> storedInfo db = Some info ->
  let d := Size (BlockCount info) in
  exists matrix,
    Matrix db = (Ok matrix, db) /\
    Legacy.Matrix db = (Ok matrix, db) /\
    square d matrix /\
    (forall n, 1 <= n <= d * d - d ->
       exists b, cell matrix (fst (locateBlock n)) (snd (locateBlock n)) = Some (Some b) /\
                 GetBlockByNumber n db = (Ok b, db)) /\
    (forall i, 0 <= i < d -> cell matrix i i = Some None).
Proof. exact (Matrix_on_wellFormed db info). Qed.

Lemma Matrix_is_the_placement_witness :
  let db := run (AddBlock "b" None) (run (AddBlock "a" (Some ["007"%byte])) fresh) in
  let info := default {| Info.Size := 0; Info.BlockCount := 0;
                         Info.Rows := []; Info.Cols := [] |} (storedInfo db) in
  let d := Size (BlockCount info) in
  exists matrix,
    Matrix db = (Ok matrix, db) /\
    Legacy.Matrix db = (Ok matrix, db) /\
    square d matrix /\
    (forall n, 1 <= n <= d * d - d ->
       exists b, cell matrix (fst (locateBlock n)) (snd (locateBlock n)) = Some (Some b) /\
                 GetBlockByNumber n db = (Ok b, db)) /\
    (forall i, 0 <= i < d -> cell matrix i i = Some None).
Proof.
  apply (Matrix_is_the_placement
           (run (AddBlock "b" None) (run (AddBlock "a" (Some ["007"%byte])) fresh))).
  - apply shaped_wellFormed, AddBlock_shaped; [| apply ordinaryKey_b].
    apply AddBlock_shaped; [apply shaped_fresh | apply ordinaryKey_a].
  - vm_compute. reflexivity.
Defined.

(** ** Redaction in the earlier revision *)

Lemma writeHashes_missing blocks h db n :
  n ∈ blocks -> db !! Sprint n = None ->
  forall h', fst (writeHashes blocks h db) <> Ok h'.
Proof.
  revert h. induction blocks as [| bn blocks IH]; intros h Hin Hnone h'.
  - now apply elem_of_nil in Hin.
  - cbn [writeHashes]. unfold bind, GetBlockByNumber, bind, dbGet, lift.
    destruct (decide (bn = n)) as [-> | Hne].
    + rewrite Hnone. discriminate.
    + apply elem_of_cons in Hin as [-> | Hin]; [contradiction |].
      destruct (db !! Sprint bn) as [v |]; [| discriminate].
      destruct (unmarshalBlock v); [now apply IH | discriminate | discriminate].
Qed.

Lemma updateHashes_missing idx (blockNumFunc : Z -> M (list Z)) hashes db n :
  snd (blockNumFunc idx db) = db ->
  (forall l, fst (blockNumFunc idx db) = Ok l -> n ∈ l) ->
  db !! Sprint n = None ->
  forall h, fst (Legacy.updateHashes idx blockNumFunc hashes db) <> Ok h.
Proof.
  intros Hdb Hin Hnone h. unfold Legacy.updateHashes. unfold bind at 1.
  destruct (blockNumFunc idx db) as [[l | e |] db']; cbn [fst snd] in *;
    [subst db' | discriminate | discriminate].
  unfold bind. pose proof (writeHashes_missing l [] db n (Hin l eq_refl) Hnone) as Hw.
  destruct (writeHashes l [] db) as [[h0 | e |] db']; cbn [fst] in *;
    [now destruct (Hw h0) | discriminate | discriminate].
Qed.

Lemma assignIndex_not_Ok l i (m : M slice) db :
  (forall h, fst (m db) <> Ok h) -> forall l', fst (assignIndex l i m db) <> Ok l'.
Proof.
  intros Hm l'. unfold assignIndex.
  destruct (m db) as [[h | e |] db']; cbn [fst] in *.
  - now destruct (Hm h).
  - destruct (setIndex l i None); discriminate.
  - discriminate.
Qed.

Lemma blockAt_in_row r c blockCount :
  0 <= c < r -> blockAt (r, c) ∈ rowBlockNumbers r blockCount.
Proof.
  intros Hc. rewrite rowBlockNumbers_blockAt. apply list_elem_of_fmap.
  exists c. split; [reflexivity |]. apply elem_of_app. left.
  apply elem_of_seqZ. lia.
Qed.

Lemma blockAt_in_column r c blockCount :
  0 <= r < c -> blockAt (r, c) ∈ columnBlockNumbers c blockCount.
Proof.
  intros Hr. rewrite columnBlockNumbers_blockAt. apply list_elem_of_fmap.
  exists r. split; [reflexivity |]. apply elem_of_app. left.
  apply elem_of_seqZ. lia.
Qed.

(** Whatever the block count, a block is in the list of its row when it
    lies below the diagonal and in the list of its column when it lies above
    it. *)
Lemma locateBlock_listed n :
  1 <= n ->
  (forall blockCount, n ∈ rowBlockNumbers (fst (locateBlock n)) blockCount) \/
  (forall blockCount, n ∈ columnBlockNumbers (snd (locateBlock n)) blockCount).
Proof.
  intros Hn. pose proof (blockAt_locateBlock n Hn) as Hinv.
  destruct (shell_exists n Hn) as (c & Hc & Hshell).
  destruct (shell_cases c n Hc Hshell) as [(j & Hj & Heq) | (i & Hi & Heq)].
  - left. intros blockCount. rewrite Heq in Hinv |- *.
    rewrite (locateBlock_below c j Hj) in Hinv |- *. cbn [fst].
    rewrite <- Hinv at 1. now apply blockAt_in_row.
  - right. intros blockCount. rewrite Heq in Hinv |- *.
    rewrite (locateBlock_above c i Hi) in Hinv |- *. cbn [snd].
    rewrite <- Hinv at 1. now apply blockAt_in_column.
Qed.

Lemma Legacy_RowBlockNumbers_lists idx db l :
  fst (Legacy.RowBlockNumbers idx db) = Ok l ->
  exists blockCount, l = rowBlockNumbers idx blockCount.
Proof.
  unfold Legacy.RowBlockNumbers, bind.
  destruct (Legacy.GetBlockmatrixInfo db) as [[info | e |] db']; cbn; try discriminate.
  intros [= <-]. eauto.
Qed.

Lemma Legacy_ColumnBlockNumbers_lists idx db l :
  fst (Legacy.ColumnBlockNumbers idx db) = Ok l ->
  exists blockCount, l = columnBlockNumbers idx blockCount.
Proof.
  unfold Legacy.ColumnBlockNumbers, bind.
  destruct (Legacy.GetBlockmatrixInfo db) as [[info | e |] db']; cbn; try discriminate.
  intros [= <-]. eauto.
Qed.

Lemma Legacy_BlockNumbers_db idx db :
  is_Some (db !! "info") ->
  snd (Legacy.RowBlockNumbers idx db) = db /\ snd (Legacy.ColumnBlockNumbers idx db) = db.
Proof.
  intros [v Hv].
  unfold Legacy.RowBlockNumbers, Legacy.ColumnBlockNumbers, Legacy.GetBlockmatrixInfo, bind.
  rewrite (GetBlockMatrixInfo_stored db v Hv). now destruct (unmarshalInfo v).
Qed.

(** Without the record of block [blockNum], the earlier
    [updateBlockMatrixInfo] cannot compute both digests. *)
Lemma Legacy_updateBlockMatrixInfo_missing info blockNum db :
  1 <= blockNum -> db !! Sprint blockNum = None -> is_Some (db !! "info") ->
  forall info', fst (Legacy.updateBlockMatrixInfo info blockNum db) <> Ok info'.
Proof.
  intros Hn Hnone Hsome.
  destruct (Legacy_BlockNumbers_db (fst (locateBlock blockNum)) db Hsome) as [Hrdb _].
  destruct (Legacy_BlockNumbers_db (snd (locateBlock blockNum)) db Hsome) as [_ Hcdb].
  pose proof (locateBlock_listed blockNum Hn) as Hlisted.
  unfold Legacy.updateBlockMatrixInfo.
  destruct (locateBlock blockNum) as [row col]. cbn [fst snd] in *.
  destruct Hlisted as [Hrow | Hcol].
  - apply bind_not_Ok. apply assignIndex_not_Ok.
    apply (updateHashes_missing _ _ _ _ blockNum Hrdb); [| exact Hnone].
    intros l Hl. apply Legacy_RowBlockNumbers_lists in Hl as [bc ->]. apply Hrow.
  - intros info'. unfold bind at 1.
    pose proof (assignIndex_cases (Rows info) row
                  (Legacy.updateHashes row Legacy.RowBlockNumbers (Rows info)) db
                  (updateHashes_db _ _ _ _ Hrdb)) as Hcases.
    destruct Hcases as [(hr & _ & _ & Hset) | [_ Hfail]].
    + rewrite Hset. apply bind_not_Ok. apply assignIndex_not_Ok.
      apply (updateHashes_missing _ _ _ _ blockNum Hcdb); [| exact Hnone].
      intros l Hl. apply Legacy_ColumnBlockNumbers_lists in Hl as [bc ->]. apply Hcol.
    + destruct (assignIndex _ _ _ db) as [[rows | e |] db']; cbn [fst] in *;
        [now destruct (Hfail rows) | discriminate | discriminate].
Qed.

Lemma encode_head v :
  exists c rest, encode v = String c rest /\ 1 <= Z.of_N (N_of_ascii c).
Proof.
  destruct v as [n | b | info].
  - destruct (Sprint_head_cases n) as (c & rest & Heq & Hc).
    exists c, rest. split; [exact Heq |].
    destruct Hc as [-> | [d Hd]]; [cbn; lia |].
    unfold digitVal in Hd.
    destruct ((48 <=? Z.of_N (N_of_ascii c)) && (Z.of_N (N_of_ascii c) <=? 57)) eqn:Hr;
      [lia | discriminate].
  - eexists "{"%char, _. split; [reflexivity | cbn; lia].
  - eexists "{"%char, _. split; [reflexivity | cbn; lia].
Qed.

Lemma Legacy_BlockNumber_head key db v :
  db !! key = Some v ->
  exists c rest, encode v = String c rest /\ 1 <= Z.of_N (N_of_ascii c) /\
                 Legacy.BlockNumber key db = (Ok (Z.of_N (N_of_ascii c)), db).
Proof.
  intros Hv. destruct (encode_head v) as (c & rest & Heq & Hc).
  exists c, rest. split; [exact Heq | split; [exact Hc |]].
  unfold Legacy.BlockNumber, bind, dbGet. rewrite Hv, Heq. reflexivity.
Qed.

(** Once the key resolves to [blockNum], the earlier [EraseBlock] deletes
    the two records and then fails in [updateBlockMatrixInfo]. *)
Lemma Legacy_EraseBlock_run key db blockNum :
  Legacy.BlockNumber key db = (Ok blockNum, db) -> 1 <= blockNum ->
  fst (Legacy.EraseBlock key db) <> Ok tt /\
  forall k, k <> "info" ->
    run (Legacy.EraseBlock key) db !! k = delete (Sprint blockNum) (delete key db) !! k.
Proof.
  intros Hbn Hn. unfold run.
  set (db1 := delete (Sprint blockNum) (delete key db)).
  assert (Heq : Legacy.EraseBlock key db =
            (let* info := Legacy.GetBlockmatrixInfo in
             let* _ := Legacy.updateBlockMatrixInfo info blockNum in
             ret tt) db1).
  { unfold Legacy.EraseBlock. rewrite (bind_Ok _ _ _ _ _ Hbn). reflexivity. }
  rewrite Heq. clear Heq.
  assert (Hnone : db1 !! Sprint blockNum = None) by apply lookup_delete_eq.
  assert (Hget : match Legacy.GetBlockmatrixInfo db1 with
                 | (Ok _, db2) => (forall k, k <> "info" -> db2 !! k = db1 !! k) /\
                                  is_Some (db2 !! "info")
                 | (_, db2) => db2 = db1
                 end).
  { unfold Legacy.GetBlockmatrixInfo. destruct (db1 !! "info") as [v |] eqn:Hv.
    - rewrite (GetBlockMatrixInfo_stored db1 v Hv).
      destruct (unmarshalInfo v); eauto.
    - rewrite (GetBlockMatrixInfo_absent db1 Hv). split.
      + intros k Hk. now rewrite lookup_insert_ne by congruence.
      + rewrite lookup_insert_eq. eauto. }
  destruct (Legacy.GetBlockmatrixInfo db1) as [[info | e |] db2] eqn:Hgi.
  2, 3: subst db2;
    destruct (bind_not_Ok Legacy.GetBlockmatrixInfo
                (fun info => let* _ := Legacy.updateBlockMatrixInfo info blockNum in ret tt)
                db1) as [Hs Hf];
    [rewrite Hgi; discriminate
    | rewrite Hs, Hgi; split; [apply Hf | reflexivity]].
  destruct Hget as [Hframe Hsome].
  rewrite (bind_Ok _ _ _ _ _ Hgi).
  assert (Hnone2 : db2 !! Sprint blockNum = None)
    by (rewrite Hframe; [exact Hnone | apply Sprint_ne_info]).
  pose proof (Legacy_updateBlockMatrixInfo_missing info blockNum db2 Hn Hnone2 Hsome)
    as Hfail.
  destruct (updateBlockMatrixInfoOf_cases earlier info blockNum db2 readsOnly_earlier Hsome)
    as [(hr & hc & _ & _ & _ & Hupd) | [Hdb2 _]].
  - cbv zeta in Hupd.
    change (updateBlockMatrixInfoOf earlier) with Legacy.updateBlockMatrixInfo in Hupd.
    exfalso. eapply Hfail. rewrite Hupd. reflexivity.
  - change (updateBlockMatrixInfoOf earlier) with Legacy.updateBlockMatrixInfo in Hdb2.
    destruct (bind_not_Ok (Legacy.updateBlockMatrixInfo info blockNum)
                (fun _ => ret tt) db2 Hfail) as [Hs Hf].
    rewrite Hs, Hdb2. split; [apply Hf | exact Hframe].
Qed.

(** X10.  In the earlier revision [EraseBlock] never returns without an
    error or a panic: a key without a record is not found, and for any other
    key the block number is the value of the first byte of its record, the
    record under the key and the one under that number are deleted, and the
    digest that [updateBlockMatrixInfo] then recomputes needs the deleted
    block.  Both deletions stay. *)
Theorem Legacy_EraseBlock_never_succeeds key db :
  fst (Legacy.EraseBlock key db) <> Ok tt /\
  (db !! key = None -> Legacy.EraseBlock key db = (Err ErrNotFound, db)) /\
  (forall v, db !! key = Some v ->
     exists c rest, encode v = String c rest /\
       let blockNum := Z.of_N (N_of_ascii c) in
       forall k, k <> "info" ->
         run (Legacy.EraseBlock key) db !! k = delete (Sprint blockNum) (delete key db) !! k).
Proof.
  assert (Hmiss : db !! key = None -> Legacy.EraseBlock key db = (Err ErrNotFound, db)).
  { intros Hnone. unfold Legacy.EraseBlock, Legacy.BlockNumber, bind, dbGet.
    now rewrite Hnone. }
  split; [| split; [exact Hmiss |]].
  - destruct (db !! key) as [v |] eqn:Hv.
    + destruct (Legacy_BlockNumber_head key db v Hv) as (c & rest & _ & Hc & Hbn).
      apply (Legacy_EraseBlock_run key db _ Hbn Hc).
    + rewrite (Hmiss eq_refl). discriminate.
  - intros v Hv.
    destruct (Legacy_BlockNumber_head key db v Hv) as (c & rest & Heq & Hc & Hbn).
    exists c, rest. split; [exact Heq |]. cbv zeta.
    apply (Legacy_EraseBlock_run key db _ Hbn Hc).
Qed.

(** ** Reading does not write *)

Lemma forEach_db {A} (l : list A) (body : A -> M unit) db :
  (forall x, snd (body x db) = db) -> snd (forEach l body db) = db.
Proof.
  intros Hbody. induction l as [| x l IH]; [reflexivity |].
  cbn [forEach]. unfold bind. specialize (Hbody x).
  destruct (body x db) as [[[] | e |] db']; cbn [snd] in *; subst db';
    [exact IH | reflexivity | reflexivity].
Qed.

Lemma GetBlockByNumber_db n db : snd (GetBlockByNumber n db) = db.
Proof.
  unfold GetBlockByNumber, bind, dbGet, lift.
  destruct (db !! Sprint n) as [v |]; [| reflexivity]. now destruct (unmarshalBlock v).
Qed.

Lemma GetBlock_db key db : snd (GetBlock key db) = db.
Proof.
  unfold GetBlock, bind, dbGet, lift.
  destruct (db !! key) as [v |]; [| reflexivity].
  destruct (db !! encode v) as [w |]; [| reflexivity]. now destruct (unmarshalBlock w).
Qed.

Lemma Legacy_BlockNumber_db key db : snd (Legacy.BlockNumber key db) = db.
Proof.
  unfold Legacy.BlockNumber, bind, dbGet.
  destruct (db !! key) as [v |]; [| reflexivity]. now destruct (encode v).
Qed.

Lemma bind_db {A B} (m : M A) (f : A -> M B) db :
  snd (m db) = db -> (forall a, snd (f a db) = db) -> snd (bind m f db) = db.
Proof.
  intros Hm Hf. unfold bind. destruct (m db) as [[a | e |] db']; cbn [snd] in *;
    subst db'; [apply Hf | reflexivity | reflexivity].
Qed.

Lemma IsValid_body_db info db :
  snd ((forEach (seqZ 1 (BlockCount info))
         (fun i =>
            let* block := GetBlockByNumber i in
            if DeepEqual (Hash block) (CalculateHash block)
            then fail (ErrBlockHashes i) else ret tt) >>
        let size := Size (BlockCount info) in
        forEach (seqZ 0 size)
          (fun i =>
             let* hash := calculateRowHash i (BlockCount info) in
             let* stored := lift (index (Rows info) i) in
             if DeepEqual stored hash then fail (ErrRowHashes i) else ret tt) >>
        forEach (seqZ 0 size)
          (fun i =>
             let* hash := calculateColumnHash i (BlockCount info) in
             let* stored := lift (index (Cols info) i) in
             if DeepEqual stored hash then fail (ErrColumnHashes i) else ret tt) >>
        ret true) db) = db.
Proof.
  apply bind_db; [| intros _; apply bind_db; [| intros _; apply bind_db; [| reflexivity]]].
  - apply forEach_db. intros i. apply bind_db; [apply GetBlockByNumber_db |].
    intros block. now destruct (DeepEqual _ _).
  - apply forEach_db. intros i. apply bind_db; [apply calculateRowHash_db |].
    intros hash. apply bind_db; [reflexivity |].
    intros stored. now destruct (DeepEqual _ _).
  - apply forEach_db. intros i. apply bind_db; [apply calculateColumnHash_db |].
    intros hash. apply bind_db; [reflexivity |].
    intros stored. now destruct (DeepEqual _ _).
Qed.

(** X11.  On a store that has a metadata record, [GetBlockMatrixInfo],
    [Matrix], [IsValid], the earlier [RowBlockNumbers] and
    [ColumnBlockNumbers], [GetBlock], [GetBlockByNumber] and [BlockNumber]
    leave the store as it is, whatever they return. *)
Theorem reads_leave_the_store db :
  is_Some (db !! "info") ->
  snd (GetBlockMatrixInfo db) = db /\
  snd (Matrix db) = db /\
  snd (Legacy.Matrix db) = db /\
  snd (IsValid db) = db /\
  (forall i, snd (Legacy.RowBlockNumbers i db) = db /\
             snd (Legacy.ColumnBlockNumbers i db) = db) /\
  (forall key, snd (GetBlock key db) = db /\
               snd (BlockNumber key db) = db /\
               snd (Legacy.BlockNumber key db) = db) /\
  (forall n, snd (GetBlockByNumber n db) = db).
Proof.
  intros [v Hv].
  assert (Hget : snd (GetBlockMatrixInfo db) = db)
    by now rewrite (GetBlockMatrixInfo_stored db v Hv).
  split; [exact Hget | split; [| split; [| split; [| split; [| split]]]]].
  - unfold Matrix. apply bind_db; [exact Hget |]. intros info. apply populate_db.
  - unfold Legacy.Matrix. apply bind_db; [exact Hget |]. intros info. apply populate_db.
  - unfold IsValid. apply bind_db; [exact Hget |]. intros info. apply IsValid_body_db.
  - intros i. apply Legacy_BlockNumbers_db. eauto.
  - intros key. split; [apply GetBlock_db | split; [apply BlockNumber_db |
      apply Legacy_BlockNumber_db]].
  - intros n. apply GetBlockByNumber_db.
Qed.

Lemma reads_leave_the_store_witness :
  snd (GetBlockMatrixInfo fresh) = fresh /\
  snd (Matrix fresh) = fresh /\
  snd (Legacy.Matrix fresh) = fresh /\
  snd (IsValid fresh) = fresh /\
  (forall i, snd (Legacy.RowBlockNumbers i fresh) = fresh /\
             snd (Legacy.ColumnBlockNumbers i fresh) = fresh) /\
  (forall key, snd (GetBlock key fresh) = fresh /\
               snd (BlockNumber key fresh) = fresh /\
               snd (Legacy.BlockNumber key fresh) = fresh) /\
  (forall n, snd (GetBlockByNumber n fresh) = fresh).
Proof. apply (reads_leave_the_store fresh). rewrite fresh_info. eexists. reflexivity. Defined.

(** X12.  On a store without a metadata record, [GetBlockMatrixInfo] writes
    one of dimension 0 with no block and returns it, so [Matrix] returns the
    empty grid, [IsValid] returns true and the earlier [RowBlockNumbers]
    returns the list at block count 0, each leaving that record behind; [New]
    on the same store writes dimension 1. *)
Theorem reads_initialise_missing_metadata db :
  db !! "info" = None ->
  let info := {| Info.Size := 0; Info.BlockCount := 0;
                 Info.Rows := [None]; Info.Cols := [None] |} in
  let db' := <["info" := VInfo info]> db in
  GetBlockMatrixInfo db = (Ok info, db') /\
  Matrix db = (Ok [], db') /\
  IsValid db = (Ok true, db') /\
  (forall i, Legacy.RowBlockNumbers i db = (Ok (rowBlockNumbers i 0), db')) /\
  New db = (Ok tt, <["info" := VInfo (setSize info 1)]> db).
Proof.
  intros Hnone. cbv zeta.
  pose proof (GetBlockMatrixInfo_absent db Hnone) as Hget. cbv zeta in Hget.
  split; [exact Hget | split; [| split; [| split]]].
  - unfold Matrix. rewrite (bind_Ok _ _ _ _ _ Hget). reflexivity.
  - unfold IsValid. rewrite (bind_Ok _ _ _ _ _ Hget). reflexivity.
  - intros i. unfold Legacy.RowBlockNumbers, Legacy.GetBlockmatrixInfo.
    rewrite (bind_Ok _ _ _ _ _ Hget). reflexivity.
  - unfold New, bind, dbHas, InfoKey. rewrite Hnone.
    rewrite bool_decide_eq_false_2 by (intros [x Hx]; discriminate Hx). reflexivity.
Qed.

Lemma reads_initialise_missing_metadata_witness :
  let db : DB := ∅ in
  let info := {| Info.Size := 0; Info.BlockCount := 0;
                 Info.Rows := [None]; Info.Cols := [None] |} in
  let db' := <["info" := VInfo info]> db in
  GetBlockMatrixInfo db = (Ok info, db') /\
  Matrix db = (Ok [], db') /\
  IsValid db = (Ok true, db') /\
  (forall i, Legacy.RowBlockNumbers i db = (Ok (rowBlockNumbers i 0), db')) /\
  New db = (Ok tt, <["info" := VInfo (setSize info 1)]> db).
Proof. apply (reads_initialise_missing_metadata ∅). reflexivity. Defined.

(** ** [Matrix] needs every record of the grid *)




(** ** Redaction: errors and what they leave behind *)

(** X14.  For a key without a record, [GetBlock], [BlockNumber] and
    [EraseBlock], in both revisions, return the store's not-found error and
    write nothing. *)
Theorem missing_key_is_not_found key db :
  db !! key = None ->
  GetBlock key db = (Err ErrNotFound, db) /\
  BlockNumber key db = (Err ErrNotFound, db) /\
  EraseBlock key db = (Err ErrNotFound, db) /\
  Legacy.BlockNumber key db = (Err ErrNotFound, db) /\
  Legacy.EraseBlock key db = (Err ErrNotFound, db).
Proof.
  intros Hnone.
  unfold GetBlock, EraseBlock, BlockNumber, Legacy.EraseBlock, Legacy.BlockNumber,
    bind, dbGet.
  rewrite Hnone. repeat apply conj; reflexivity.
Qed.

Lemma missing_key_is_not_found_witness :
  GetBlock "a" fresh = (Err ErrNotFound, fresh) /\
  BlockNumber "a" fresh = (Err ErrNotFound, fresh) /\
  EraseBlock "a" fresh = (Err ErrNotFound, fresh) /\
  Legacy.BlockNumber "a" fresh = (Err ErrNotFound, fresh) /\
  Legacy.EraseBlock "a" fresh = (Err ErrNotFound, fresh).
Proof. apply (missing_key_is_not_found "a" fresh). reflexivity. Defined.

(** Once the key resolves, every outcome of [EraseBlock] leaves the
    records other than the metadata as the two writes made them. *)
Lemma EraseBlock_writes key db n :
  BlockNumber key db = (Ok n, db) ->
  forall k, k <> "info" ->
    run (EraseBlock key) db !! k =
    <[Sprint n := VBlock EmptyBlock]> (delete key db) !! k.
Proof.
  intros Hbn k Hk. unfold run.
  set (db1 := <[Sprint n := VBlock EmptyBlock]> (delete key db)).
  assert (Heq : EraseBlock key db =
            (let* info := GetBlockMatrixInfo in
             let* info' := updateBlockMatrixInfoOf later info n in
             let* ok := lift (checkValidErase info' (Rows info) (Cols info)) in
             if negb ok then fail ErrInvalidErase else ret tt) db1).
  { unfold EraseBlock. rewrite (bind_Ok _ _ _ _ _ Hbn). reflexivity. }
  rewrite Heq. clear Heq.
  assert (Hget : match GetBlockMatrixInfo db1 with
                 | (Ok _, db2) => db2 !! k = db1 !! k /\ is_Some (db2 !! "info")
                 | (_, db2) => db2 = db1
                 end).
  { destruct (db1 !! "info") as [v |] eqn:Hv.
    - rewrite (GetBlockMatrixInfo_stored db1 v Hv).
      destruct (unmarshalInfo v); eauto.
    - rewrite (GetBlockMatrixInfo_absent db1 Hv). split.
      + now rewrite lookup_insert_ne by congruence.
      + rewrite lookup_insert_eq. eauto. }
  destruct (GetBlockMatrixInfo db1) as [[info | e |] db2] eqn:Hgi.
  2, 3: subst db2;
    destruct (bind_not_Ok GetBlockMatrixInfo
                (fun info =>
                   let* info' := updateBlockMatrixInfoOf later info n in
                   let* ok := lift (checkValidErase info' (Rows info) (Cols info)) in
                   if negb ok then fail ErrInvalidErase else ret tt)
                db1) as [Hs _];
    [rewrite Hgi; discriminate | rewrite Hs, Hgi; reflexivity].
  destruct Hget as [Hk2 Hsome].
  rewrite (bind_Ok _ _ _ _ _ Hgi).
  destruct (updateBlockMatrixInfoOf_cases later info n db2 readsOnly_later Hsome)
    as [(hr & hc & _ & _ & _ & Hupd) | [Hdb2 Hfail]].
  - cbv zeta in Hupd. rewrite (bind_Ok _ _ _ _ _ Hupd).
    unfold bind, lift.
    destruct (checkValidErase _ _ _) as [[] | |]; cbn [negb snd fail ret];
      rewrite lookup_insert_ne by congruence; exact Hk2.
  - destruct (bind_not_Ok _
        (fun info' =>
           let* ok := lift (checkValidErase info' (Rows info) (Cols info)) in
           if negb ok then fail ErrInvalidErase else ret tt) db2 Hfail) as [Hs _].
    rewrite Hs, Hdb2. exact Hk2.
Qed.

(** X15.  Once [BlockNumber] has given a number for the key, the two
    writes of [EraseBlock] stay whatever it returns afterwards, an error of
    the digest recomputation or of the self-check included: the block of that
    number is the empty block, the key has no record (unless it is ["info"]
    or the text of that number), and every record other than these and the
    metadata is as before. *)
Theorem EraseBlock_not_rolled_back key db n :
  fst (BlockNumber key db) = Ok n ->
  let db' := run (EraseBlock key) db in
  db' !! Sprint n = Some (VBlock EmptyBlock) /\
  (key <> "info" -> key <> Sprint n -> db' !! key = None) /\
  (forall k, k <> "info" -> k <> key -> k <> Sprint n -> db' !! k = db !! k).
Proof.
  intros Hok. cbv zeta.
  pose proof (BlockNumber_db key db) as Hdb.
  destruct (BlockNumber key db) as [r db0] eqn:Hbn. cbn [fst snd] in *. subst r db0.
  pose proof (EraseBlock_writes key db n Hbn) as Hw.
  split; [| split].
  - rewrite Hw by apply Sprint_ne_info. apply lookup_insert_eq.
  - intros Hki Hkn. rewrite Hw by exact Hki.
    rewrite lookup_insert_ne by congruence. apply lookup_delete_eq.
  - intros k Hk1 Hk2 Hk3. rewrite Hw by exact Hk1.
    rewrite lookup_insert_ne by congruence. now apply lookup_delete_ne.
Qed.

Lemma EraseBlock_not_rolled_back_witness :
  let db := run (AddBlock "a" (Some ["000"%byte])) fresh in
  fst (EraseBlock "a" db) = Err ErrInvalidErase /\
  let db' := run (EraseBlock "a") db in
  db' !! Sprint 1 = Some (VBlock EmptyBlock) /\
  ("a" <> "info" -> "a" <> Sprint 1 -> db' !! "a" = None) /\
  (forall k, k <> "info" -> k <> "a" -> k <> Sprint 1 -> db' !! k = db !! k).
Proof.
  split; [vm_compute; reflexivity |].
  apply (EraseBlock_not_rolled_back "a" (run (AddBlock "a" (Some ["000"%byte])) fresh) 1).
  vm_compute. reflexivity.
Defined.

(** ** Redaction keeps the store in shape *)

(** With a record for every block of the grid, the digests of the row and
    the column of a block of the grid are computed and stored. *)
Lemma updateBlockMatrixInfo_succeeds info n db :
  1 <= BlockCount info ->
  leastDimension (BlockCount info) (Info.Size info) ->
  Z.of_nat (length (Rows info)) = Info.Size info ->
  Z.of_nat (length (Cols info)) = Info.Size info ->
  (forall m, 1 <= m <= Info.Size info * Info.Size info - Info.Size info ->
             exists b, db !! Sprint m = Some (VBlock b)) ->
  1 <= n <= Info.Size info * Info.Size info - Info.Size info ->
  exists hr hc,
    let info' := setCols (setRows info (<[Z.to_nat (fst (locateBlock n)) := hr]> (Rows info)))
                         (<[Z.to_nat (snd (locateBlock n)) := hc]> (Cols info)) in
    updateBlockMatrixInfo info n db = (Ok info', <["info" := VInfo info']> db).
Proof.
  intros Hbc Hleast Hrows Hcols Hblocks Hn.
  pose proof (leastDimension_unique _ _ _ Hleast (Size_least _ Hbc)) as Hsize.
  destruct Hleast as (Hs1 & _).
  destruct (locateBlock_range (Info.Size info) n Hn ltac:(lia)) as (Hrow & Hcol & _).
  rewrite Hsize in Hrow, Hcol, Hblocks.
  destruct (writeHashes_ok (rowBlockNumbers (fst (locateBlock n)) (BlockCount info)) [] db)
    as [hr Hhr].
  { intros m Hm. apply Hblocks. now apply (rowBlockNumbers_locateBlock _ _ m Hrow). }
  destruct (writeHashes_ok (columnBlockNumbers (snd (locateBlock n)) (BlockCount info)) [] db)
    as [hc Hhc].
  { intros m Hm. apply Hblocks. now apply (columnBlockNumbers_locateBlock _ _ m Hcol). }
  exists (Some (sha256 hr)), (Some (sha256 hc)). cbv zeta.
  unfold updateBlockMatrixInfo. destruct (locateBlock n) as [row col]. cbn [fst snd] in *.
  assert (Hrowhash : calculateRowHash row (BlockCount info) db = (Ok (Some (sha256 hr)), db)).
  { unfold calculateRowHash. now rewrite (bind_Ok _ _ _ _ _ Hhr). }
  assert (Hcolhash : calculateColumnHash col (BlockCount info) db = (Ok (Some (sha256 hc)), db)).
  { unfold calculateColumnHash. now rewrite (bind_Ok _ _ _ _ _ Hhc). }
  assert (Hri : 0 <= row < Z.of_nat (length (Rows info))) by lia.
  assert (Hci : 0 <= col < Z.of_nat (length (Cols info))) by lia.
  unfold bind at 1. rewrite (assignIndex_Ok _ _ _ _ _ Hrowhash Hri).
  unfold bind at 1. cbn [BlockCount setRows Cols].
  rewrite (assignIndex_Ok _ _ _ _ _ Hcolhash Hci).
  reflexivity.
Qed.

(** On a shaped store the redaction of a key that has a record runs to the
    self-check. *)
Lemma EraseBlock_on_shaped key db v :
  shaped db -> ordinaryKey key -> db !! key = Some v ->
  let db' := run (EraseBlock key) db in
  (fst (EraseBlock key db) = Ok tt \/ fst (EraseBlock key db) = Err ErrInvalidErase) /\
  shaped db' /\
  db' !! key = None /\
  BlockCount <$> storedInfo db' = BlockCount <$> storedInfo db /\
  Info.Size <$> storedInfo db' = Info.Size <$> storedInfo db /\
  exists d, 1 <= d <= 9 /\ BlockNumber key db = (Ok d, db) /\
            db' !! Sprint d = Some (VBlock EmptyBlock) /\
            forall n, n <> d -> db' !! Sprint n = db !! Sprint n.
Proof.
  intros Hsh Hkey Hv. cbv zeta.
  pose proof (shaped_wellFormed db Hsh) as Hwf.
  destruct Hsh as (info & Hinfo & Hbc & Hleast & Hrows & Hcols & Hold & Hnew & Hout & Hkeys).
  destruct (Hkeys key v Hv Hkey) as (m & -> & Hm).
  destruct (BlockNumber_leading_digit key db m Hv ltac:(lia)) as (d & Hd & Hdm & Hbn).
  destruct Hkey as [Hki Hkn].
  set (db1 := <[Sprint d := VBlock EmptyBlock]> (delete key db)).
  assert (Hinfo1 : db1 !! "info" = Some (VInfo info)).
  { unfold db1. rewrite lookup_insert_ne by apply Sprint_ne_info.
    rewrite lookup_delete_ne by congruence. exact Hinfo. }
  assert (Hnum1 : forall n, db1 !! Sprint n =
                    if decide (n = d) then Some (VBlock EmptyBlock) else db !! Sprint n).
  { intros n. unfold db1. destruct (decide (n = d)) as [-> | Hne].
    - apply lookup_insert_eq.
    - rewrite lookup_insert_ne by (intros H; apply Hne; symmetry; now apply Sprint_inj).
      apply lookup_delete_ne. apply Hkn. }
  assert (Hcapd : 1 <= d <= Info.Size info * Info.Size info - Info.Size info)
    by (destruct Hleast as (_ & Hfit & _); lia).
  assert (Hblocks1 : forall n, 1 <= n <= Info.Size info * Info.Size info - Info.Size info ->
                               exists b, db1 !! Sprint n = Some (VBlock b)).
  { intros n Hn. rewrite Hnum1. destruct (decide (n = d)); [eauto |].
    destruct Hwf as (info0 & Hinfo0 & _ & _ & _ & _ & Hblocks).
    rewrite Hinfo in Hinfo0. injection Hinfo0 as <-. now apply Hblocks. }
  destruct (updateBlockMatrixInfo_succeeds info d db1 ltac:(lia) Hleast Hrows Hcols
              Hblocks1 Hcapd) as (hr & hc & Hupd).
  cbv zeta in Hupd.
  set (info' := setCols (setRows info (<[Z.to_nat (fst (locateBlock d)) := hr]> (Rows info)))
                        (<[Z.to_nat (snd (locateBlock d)) := hc]> (Cols info))) in *.
  set (db2 := <["info" := VInfo info']> db1) in *.
  assert (Hcheck : exists ok, checkValidErase info' (Rows info) (Cols info) = Ok ok).
  { destruct Hleast as (Hs1 & _). eexists.
    apply (checkValidErase_counts info' (Rows info) (Cols info) (Z.to_nat (Info.Size info)));
      unfold info'; cbn [Info.Size Rows Cols setRows setCols];
      rewrite ?length_insert; lia. }
  destruct Hcheck as [ok Hcheck].
  assert (Hrun : EraseBlock key db =
                 (if ok then Ok tt else Err ErrInvalidErase, db2)).
  { unfold EraseBlock. rewrite (bind_Ok _ _ _ _ _ Hbn).
    unfold bind at 1. unfold dbDelete. unfold bind at 1. unfold dbPut at 1.
    fold db1. rewrite (bind_Ok _ _ _ _ _ (eq_trans (GetBlockMatrixInfo_stored db1 _ Hinfo1) eq_refl)).
    rewrite (bind_Ok _ _ _ _ _ Hupd). unfold bind, lift. rewrite Hcheck.
    now destruct ok. }
  unfold run. rewrite Hrun. cbn [fst snd].
  assert (Hnum2 : forall n, db2 !! Sprint n =
                    if decide (n = d) then Some (VBlock EmptyBlock) else db !! Sprint n).
  { intros n. unfold db2.
    rewrite lookup_insert_ne by (intros H; symmetry in H; now apply Sprint_ne_info in H).
    apply Hnum1. }
  assert (Hkey2 : db2 !! key = None).
  { unfold db2, db1. rewrite lookup_insert_ne by congruence.
    rewrite lookup_insert_ne by (intros H; now apply (Hkn d)).
    apply lookup_delete_eq. }
  assert (Hinfo2 : db2 !! "info" = Some (VInfo info')) by apply lookup_insert_eq.
  split; [destruct ok; auto | split; [| split; [exact Hkey2 | split; [| split]]]].
  - exists info'.
    change (BlockCount info') with (BlockCount info).
    change (Info.Size info') with (Info.Size info).
    refine (conj Hinfo2 (conj Hbc (conj Hleast (conj _ (conj _ (conj _ (conj _ (conj _ _)))))))).
    + unfold info'. cbn [Rows setRows setCols]. now rewrite length_insert.
    + unfold info'. cbn [Cols setRows setCols]. now rewrite length_insert.
    + intros n Hn. rewrite Hnum2. destruct (decide (n = d)); [| now apply Hold].
      exists EmptyBlock. split; reflexivity.
    + intros n Hn. rewrite Hnum2. rewrite decide_False by lia. now apply Hnew.
    + intros n Hn. rewrite Hnum2. rewrite decide_False by lia. now apply Hout.
    + intros k w Hk Hord. destruct (decide (k = key)) as [-> | Hne]; [congruence |].
      apply (Hkeys k w); [| exact Hord].
      destruct Hord as [Hoi Hon]. unfold db2, db1 in Hk.
      rewrite lookup_insert_ne in Hk by congruence.
      rewrite lookup_insert_ne in Hk by (intros H; now apply (Hon d)).
      now rewrite lookup_delete_ne in Hk by congruence.
  - unfold storedInfo. now rewrite Hinfo2, Hinfo.
  - unfold storedInfo. now rewrite Hinfo2, Hinfo.
  - exists d. split; [exact Hd | split; [exact Hbn | split]].
    + rewrite Hnum2. now rewrite decide_True.
    + intros n Hne. rewrite Hnum2. now rewrite decide_False.
Qed.

(** X16.  On a shaped store, [EraseBlock] of an ordinary key that has a
    record returns without error or with the invalid-erase error, never with
    a panic or another error; the store stays shaped, the key has no record
    any more, block count and dimension are unchanged, and the only block
    record written is the one of the number that [BlockNumber] gave, a number
    from 1 to 9, which holds the empty block. *)
Theorem EraseBlock_keeps_shape key db v :
  shaped db -> ordinaryKey key -> db !! key = Some v ->
  let db' := run (EraseBlock key) db in
  (fst (EraseBlock key db) = Ok tt \/ fst (EraseBlock key db) = Err ErrInvalidErase) /\
  shaped db' /\
  db' !! key = None /\
  BlockCount <$> storedInfo db' = BlockCount <$> storedInfo db /\
  Info.Size <$> storedInfo db' = Info.Size <$> storedInfo db /\
  exists d, 1 <= d <= 9 /\ BlockNumber key db = (Ok d, db) /\
            db' !! Sprint d = Some (VBlock EmptyBlock) /\
            forall n, n <> d -> db' !! Sprint n = db !! Sprint n.
Proof. exact (EraseBlock_on_shaped key db v). Qed.

Lemma EraseBlock_keeps_shape_witness :
  let db := run (AddBlock "a" (Some ["007"%byte])) fresh in
  let db' := run (EraseBlock "a") db in
  (fst (EraseBlock "a" db) = Ok tt \/ fst (EraseBlock "a" db) = Err ErrInvalidErase) /\
  shaped db' /\
  db' !! "a" = None /\
  BlockCount <$> storedInfo db' = BlockCount <$> storedInfo db /\
  Info.Size <$> storedInfo db' = Info.Size <$> storedInfo db /\
  exists d, 1 <= d <= 9 /\ BlockNumber "a" db = (Ok d, db) /\
            db' !! Sprint d = Some (VBlock EmptyBlock) /\
            forall n, n <> d -> db' !! Sprint n = db !! Sprint n.
Proof.
  apply (EraseBlock_keeps_shape "a" (run (AddBlock "a" (Some ["007"%byte])) fresh) (VNum 1)).
  - apply AddBlock_shaped; [apply shaped_fresh | apply ordinaryKey_a].
  - apply ordinaryKey_a.
  - vm_compute. reflexivity.
Defined.

Lemma built_shaped db : built db -> shaped db.
Proof.
  induction 1 as [| db key data _ IH Hkey | db key _ IH Hkey].
  - apply shaped_fresh.
  - now apply AddBlock_shaped.
  - destruct (db !! key) as [v |] eqn:Hv.
    + now apply (EraseBlock_on_shaped key db v).
    + unfold run, EraseBlock, BlockNumber, bind, dbGet. rewrite Hv. exact IH.
Qed.

(** X17.  Every store built from the freshly initialised one by [AddBlock]
    and [EraseBlock] under ordinary keys, whatever each call returned, is
    shaped; on it [AddBlock] under an ordinary key returns without error,
    and [EraseBlock] under an ordinary key returns without error, with the
    invalid-erase error, or with not-found and the store unchanged. *)
Theorem built_in_shape db :
  built db ->
  shaped db /\
  (forall key data, ordinaryKey key -> fst (AddBlock key data db) = Ok tt) /\
  (forall key, ordinaryKey key ->
     fst (EraseBlock key db) = Ok tt \/
     fst (EraseBlock key db) = Err ErrInvalidErase \/
     EraseBlock key db = (Err ErrNotFound, db)).
Proof.
  intros Hb. pose proof (built_shaped db Hb) as Hsh.
  split; [exact Hsh | split].
  - intros key data Hkey.
    destruct (shaped_wellFormed db Hsh) as (info & Hinfo & Hrest).
    destruct (AddBlock_run key data db info (shaped_wellFormed db Hsh) Hkey Hinfo)
      as (hr & hc & _ & _ & _ & _ & _ & _ & Hrun).
    now rewrite Hrun.
  - intros key Hkey. destruct (db !! key) as [v |] eqn:Hv.
    + destruct (EraseBlock_on_shaped key db v Hsh Hkey Hv) as ([H | H] & _); auto.
    + right. right. unfold EraseBlock, BlockNumber, bind, dbGet. now rewrite Hv.
Qed.

Lemma built_in_shape_witness :
  let db := run (EraseBlock "a") (run (AddBlock "a" None) fresh) in
  shaped db /\
  (forall key data, ordinaryKey key -> fst (AddBlock key data db) = Ok tt) /\
  (forall key, ordinaryKey key ->
     fst (EraseBlock key db) = Ok tt \/
     fst (EraseBlock key db) = Err ErrInvalidErase \/
     EraseBlock key db = (Err ErrNotFound, db)).
Proof.
  apply (built_in_shape (run (EraseBlock "a") (run (AddBlock "a" None) fresh))).
  apply built_EraseBlock; [| apply ordinaryKey_a].
  apply built_AddBlock; [apply built_New | apply ordinaryKey_a].
Defined.

(** ** A key that is the text of a number *)




(** ** The row digest of the earlier revision *)

Lemma index_insert (l : list slice) i x :
  0 <= i < Z.of_nat (length l) -> index (<[Z.to_nat i := x]> l) i = Ok x.
Proof.
  intros Hi. unfold index. rewrite length_insert.
  replace ((0 <=? i) && (i <? Z.of_nat (length l))) with true
    by (symmetry; apply andb_true_intro; split; lia).
  rewrite list_lookup_insert_eq by lia. reflexivity.
Qed.

(** The first block of a new shell is not in the list of its row at the
    dimension before the growth. *)
Lemma new_shell_not_listed info :
  0 <= BlockCount info ->
  leastDimension (BlockCount info) (Info.Size info) ->
  let blockNum := BlockCount info + 1 in
  let row := fst (locateBlock blockNum) in
  if grows info
  then blockNum ∉ rowBlockNumbers row (BlockCount info)
  else rowBlockNumbers row (BlockCount info) = rowBlockNumbers row blockNum.
Proof.
  intros Hbc Hleast. cbv zeta.
  pose proof (grows_at_capacity info Hbc Hleast) as Hg. cbv zeta in Hg.
  assert (Hsize : Size (BlockCount info) <= Info.Size info).
  { destruct (decide (BlockCount info = 0)) as [-> | H0].
    - destruct Hleast as (H1 & _). change (Size 0) with 0. lia.
    - assert (H1 : 1 <= BlockCount info) by lia.
      rewrite (leastDimension_unique _ _ _ Hleast (Size_least _ H1)). lia. }
  destruct (grows info).
  - destruct Hg as [Hcap Hnew]. destruct Hleast as (Hs1 & _).
    set (c := Info.Size info) in *.
    replace (BlockCount info + 1) with (c * c - c + 1 + 2 * 0) by lia.
    rewrite (locateBlock_above c 0 ltac:(lia)). cbn [fst].
    rewrite rowBlockNumbers_blockAt. intros Hin.
    apply list_elem_of_fmap in Hin as (j & Hj & Hin).
    apply elem_of_app in Hin as [Hin | Hin]; apply elem_of_seqZ in Hin; [lia |].
    unfold blockAt in Hj. destruct (Z.ltb_spec j 0); [lia |]. nia.
  - destruct Hg as [Hcap Hsame].
    assert (H0 : BlockCount info <> 0).
    { intros H0. rewrite H0 in *. change (Size (0 + 1)) with 2 in Hsame.
      pose proof (leastDimension_unique 0 _ 1 Hleast leastDimension_0). lia. }
    assert (H1 : 1 <= BlockCount info) by lia.
    apply blockNumbers_by_Size.
    rewrite Hsame. symmetry.
    apply (leastDimension_unique _ _ _ Hleast (Size_least _ H1)).
Qed.

(** X19.  In the earlier revision the row digest that a successful insert
    stores is taken over the list of the row at the block count before the
    insert.  When the insert grows the matrix that list does not contain the
    new block; otherwise it is the list at the new block count. *)
Theorem Legacy_AddBlock_row_digest_lags key data db info :
  reachable Legacy.AddBlock db -> storedInfo db = Some info -> key <> "info" ->
  fst (Legacy.AddBlock key data db) = Ok tt ->
  let db' := run (Legacy.AddBlock key data) db in
  let blockNum := BlockCount info + 1 in
  let row := fst (locateBlock blockNum) in
  exists info' h,
    storedInfo db' = Some info' /\
    fst (writeHashes (rowBlockNumbers row (BlockCount info)) [] db') = Ok h /\
    index (Rows info') row = Ok (Some (sha256 h)) /\
    if grows info
    then blockNum ∉ rowBlockNumbers row (BlockCount info)
    else rowBlockNumbers row (BlockCount info) = rowBlockNumbers row blockNum.
Proof.
  intros Hreach Hinfo Hkey Hok. apply storedInfo_Some in Hinfo. cbv zeta.
  rewrite AddBlock_earlier in Hreach.
  destruct (reachable_infoInvariant earlier db readsOnly_earlier Hreach)
    as [(info0 & Hinfo0 & Hbc & Hleast) | (n & Hn)]; [| congruence].
  rewrite Hinfo in Hinfo0. injection Hinfo0 as <-.
  unfold run. rewrite AddBlock_earlier in Hok |- *.
  rewrite (AddBlockOf_unfold earlier key data db info Hinfo) in Hok |- *.
  set (db1 := storeBeforeDigests earlier key data info db) in *.
  set (info1 := infoBeforeDigests info) in *.
  assert (Hinfo1 : db1 !! "info" = Some (VInfo info)).
  { unfold db1. rewrite storeBeforeDigests_info. now rewrite decide_False. }
  destruct (updateBlockMatrixInfoOf_cases earlier info1 (BlockCount info + 1) db1
              readsOnly_earlier ltac:(eauto))
    as [(hr & hc & Hhr & Hrow & _ & Hupd) | [_ Hfail]].
  2: { destruct (bind_not_Ok _ (fun _ => ret tt) db1 Hfail) as [_ Hf].
       now destruct (Hf tt). }
  cbv zeta in Hhr, Hrow, Hupd. rewrite (bind_Ok _ _ _ _ _ Hupd). cbn [ret snd].
  set (row := fst (locateBlock (BlockCount info + 1))) in *.
  cbn [rowHash earlier] in Hhr. unfold Legacy.updateHashes in Hhr.
  rewrite (bind_Ok _ _ _ _ _ (Legacy_RowBlockNumbers_stored row db1 info Hinfo1)) in Hhr.
  unfold bind in Hhr.
  pose proof (writeHashes_db (rowBlockNumbers row (BlockCount info)) [] db1) as Hwdb.
  destruct (writeHashes (rowBlockNumbers row (BlockCount info)) [] db1)
    as [[h | e |] db2] eqn:Hw; try discriminate Hhr.
  injection Hhr as <- _.
  eexists _, h. split; [apply storedInfo_Some, lookup_insert_eq | split; [| split]].
  - rewrite writeHashes_info, Hw. reflexivity.
  - cbn [Rows setRows setCols]. now apply index_insert.
  - exact (new_shell_not_listed info Hbc Hleast).
Qed.

Lemma Legacy_AddBlock_row_digest_lags_witness :
  let key := "a" in
  let data := Some ["007"%byte] in
  let db := fresh in
  let info := {| Info.Size := 1; Info.BlockCount := 0;
                 Info.Rows := [None]; Info.Cols := [None] |} in
  let db' := run (Legacy.AddBlock key data) db in
  let blockNum := BlockCount info + 1 in
  let row := fst (locateBlock blockNum) in
  exists info' h,
    storedInfo db' = Some info' /\
    fst (writeHashes (rowBlockNumbers row (BlockCount info)) [] db') = Ok h /\
    index (Rows info') row = Ok (Some (sha256 h)) /\
    if grows info
    then blockNum ∉ rowBlockNumbers row (BlockCount info)
    else rowBlockNumbers row (BlockCount info) = rowBlockNumbers row blockNum.
Proof.
  apply (Legacy_AddBlock_row_digest_lags "a" (Some ["007"%byte]) fresh).
  - apply reachable_New.
  - reflexivity.
  - discriminate.
  - vm_compute. reflexivity.
Defined.

(** ** Redaction of the metadata key *)

Lemma encode_VInfo info : exists rest, encode (VInfo info) = String "{"%char rest.
Proof. eexists. reflexivity. Qed.

(** X20.  With metadata in the store, [EraseBlock "info"] of the later
    revision returns a syntax error and writes nothing; the one of the
    earlier revision fails, and leaves metadata of dimension 0 with no block
    in place of the stored one. *)
Theorem EraseBlock_of_the_metadata_key db info :
  db !! "info" = Some (VInfo info) ->
  let zero := {| Info.Size := 0; Info.BlockCount := 0;
                 Info.Rows := [None]; Info.Cols := [None] |} in
  EraseBlock "info" db = (Err ErrSyntax, db) /\
  run (Legacy.EraseBlock "info") db !! "info" = Some (VInfo zero) /\
  fst (Legacy.EraseBlock "info" db) <> Ok tt.
Proof.
  intros Hinfo. cbv zeta. destruct (encode_VInfo info) as [rest Henc].
  split; [| split].
  - unfold EraseBlock, BlockNumber, bind, dbGet. rewrite Hinfo, Henc. reflexivity.
  - assert (Hbn : Legacy.BlockNumber "info" db = (Ok 123, db)).
    { unfold Legacy.BlockNumber, bind, dbGet. rewrite Hinfo, Henc. reflexivity. }
    unfold run, Legacy.EraseBlock. rewrite (bind_Ok _ _ _ _ _ Hbn).
    unfold bind at 1. unfold dbDelete at 1. unfold bind at 1. unfold dbDelete at 1.
    set (db1 := delete (Sprint 123) (delete "info" db)).
    assert (Hnone : db1 !! "info" = None).
    { unfold db1. rewrite lookup_delete_ne by apply Sprint_ne_info. apply lookup_delete_eq. }
    pose proof (GetBlockMatrixInfo_absent db1 Hnone) as Hget. cbv zeta in Hget.
    unfold Legacy.GetBlockmatrixInfo. rewrite (bind_Ok _ _ _ _ _ Hget).
    set (zero := {| Info.Size := 0; Info.BlockCount := 0;
                    Info.Rows := [None]; Info.Cols := [None] |}) in *.
    set (db2 := <["info" := VInfo zero]> db1).
    assert (Hsome : is_Some (db2 !! "info")) by (unfold db2; rewrite lookup_insert_eq; eauto).
    assert (Hnone2 : db2 !! Sprint 123 = None).
    { unfold db2, db1. rewrite lookup_insert_ne by (intros H; symmetry in H; now apply Sprint_ne_info in H).
      apply lookup_delete_eq. }
    pose proof (Legacy_updateBlockMatrixInfo_missing zero 123 db2 ltac:(lia) Hnone2 Hsome)
      as Hfail.
    destruct (updateBlockMatrixInfoOf_cases earlier zero 123 db2 readsOnly_earlier Hsome)
      as [(hr & hc & _ & _ & _ & Hupd) | [Hdb2 _]].
    + cbv zeta in Hupd.
      change (updateBlockMatrixInfoOf earlier) with Legacy.updateBlockMatrixInfo in Hupd.
      exfalso. eapply Hfail. rewrite Hupd. reflexivity.
    + change (updateBlockMatrixInfoOf earlier) with Legacy.updateBlockMatrixInfo in Hdb2.
      destruct (bind_not_Ok (Legacy.updateBlockMatrixInfo zero 123)
                  (fun _ => ret tt) db2 Hfail) as [Hs _].
      rewrite Hs, Hdb2. apply lookup_insert_eq.
  - assert (Hbn : Legacy.BlockNumber "info" db = (Ok 123, db)).
    { unfold Legacy.BlockNumber, bind, dbGet. rewrite Hinfo, Henc. reflexivity. }
    apply (Legacy_EraseBlock_run "info" db 123 Hbn). lia.
Qed.

Lemma EraseBlock_of_the_metadata_key_witness :
  let db := fresh in
  let zero := {| Info.Size := 0; Info.BlockCount := 0;
                 Info.Rows := [None]; Info.Cols := [None] |} in
  EraseBlock "info" db = (Err ErrSyntax, db) /\
  run (Legacy.EraseBlock "info") db !! "info" = Some (VInfo zero) /\
  fst (Legacy.EraseBlock "info" db) <> Ok tt.
Proof. apply (EraseBlock_of_the_metadata_key fresh _ fresh_info). Defined.

(** ** An insert under the metadata key *)




(** ** The blocks of the tests *)

Lemma testKey_ordinary i : ordinaryKey ("key" +:+ Sprint i).
Proof. apply ordinaryKey_head; [reflexivity | discriminate | discriminate]. Qed.

Lemma testKey_inj i j : "key" +:+ Sprint i = "key" +:+ Sprint j -> i = j.
Proof. intros H. injection H as H. now apply Sprint_inj. Qed.

Lemma contents_app_lookup (inserts0 inserts : list (string * slice)) k d :
  NoDup (map fst inserts) -> (k, d) ∈ inserts ->
  contents (inserts0 ++ inserts) !! k = Some d.
Proof.
  unfold contents. rewrite foldl_app.
  generalize (foldl (fun (m : gmap string slice) kd => <[fst kd := snd kd]> m) ∅ inserts0).
  induction inserts as [| [k' d'] inserts IH]; intros m Hnd Hin.
  - now apply elem_of_nil in Hin.
  - cbn [map fst] in Hnd. apply NoDup_cons in Hnd as [Hnotin Hnd].
    cbn [foldl fst snd].
    apply elem_of_cons in Hin as [[= <- <-] | Hin]; [| now apply IH].
    clear IH. revert m. induction inserts as [| [k2 d2] inserts IH2]; intros m.
    + cbn. apply lookup_insert_eq.
    + cbn [foldl fst snd]. cbn [map fst] in Hnotin, Hnd.
      apply not_elem_of_cons in Hnotin as [Hne Hnotin].
      apply NoDup_cons in Hnd as [_ Hnd].
      rewrite insert_insert_ne by congruence. now apply IH2.
Qed.

Lemma createTestBlocks_insertAllOf addBlock num db :
  createTestBlocks addBlock num db = insertAllOf addBlock (testInserts num) db.
Proof.
  unfold createTestBlocks, insertAllOf, testInserts. revert db.
  induction (seqZ 0 num) as [| i l IH]; intros db; [reflexivity |].
  cbn [forEach map fst snd]. unfold bind.
  destruct (addBlock _ _ db) as [[[] | e |] db']; [apply IH | reflexivity | reflexivity].
Qed.

(** X22.  [createTestBlocks num] of the tests, run with the [AddBlock] of
    either revision after any inserts of that revision under ordinary keys,
    returns without error and adds [num] blocks: [GetBlock] of the key
    ["key" ++ i] returns the block with the single byte [i] and its SHA-256,
    and so does [GetBlockByNumber] of the number [i + 1] after the earlier
    blocks. *)
Theorem createTestBlocks_blocks addBlock inserts num :
  addBlock = AddBlock \/ addBlock = Legacy.AddBlock ->
  Forall (fun kd => ordinaryKey (fst kd)) inserts ->
  let db := run (insertAllOf addBlock inserts) fresh in
  let db' := run (createTestBlocks addBlock num) db in
  let count := Z.of_nat (length inserts) in
  fst (createTestBlocks addBlock num db) = Ok tt /\
  BlockCount <$> storedInfo db' = Some (count + Z.max 0 num) /\
  forall i, 0 <= i < num ->
    let block := {| Data := Some [byteOf i]; Hash := Some (sha256 [byteOf i]) |} in
    GetBlock ("key" +:+ Sprint i) db' = (Ok block, db') /\
    GetBlockByNumber (count + i + 1) db' = (Ok block, db').
Proof.
  intros Hrev Hkeys. destruct (either_revision addBlock Hrev) as (rev & Hruns & -> & _).
  cbv zeta. unfold run. rewrite createTestBlocks_insertAllOf.
  destruct (insertAllOf_tracks rev Hruns inserts Hkeys) as [_ Htr].
  assert (Hord : Forall (fun kd => ordinaryKey (fst kd)) (testInserts num)).
  { unfold testInserts. apply Forall_fmap, Forall_forall. intros i _. apply testKey_ordinary. }
  destruct (insertAllOf_tracks_from rev Hruns inserts (testInserts num) _ Htr Hord)
    as (Hok & Hsh & (info & Hinfo & Hcount) & Hnum & Hcont).
  unfold run in *.
  assert (Hlen : Z.of_nat (length (testInserts num)) = Z.max 0 num).
  { unfold testInserts. rewrite length_map, length_seqZ. lia. }
  split; [exact Hok | split].
  - unfold storedInfo. rewrite Hinfo. cbn. rewrite Hcount, length_app. f_equal. lia.
  - intros i Hi.
    assert (Hith : testInserts num !! Z.to_nat i = Some ("key" +:+ Sprint i, Some [byteOf i])).
    { unfold testInserts. rewrite list_lookup_fmap.
      replace (seqZ 0 num !! Z.to_nat i) with (Some i); [reflexivity |].
      symmetry. apply lookup_seqZ. lia. }
    assert (Hblock : (snd (insertAllOf (AddBlockOf rev) (testInserts num)
                             (snd (insertAllOf (AddBlockOf rev) inserts fresh))))
                       !! Sprint (Z.of_nat (length inserts) + i + 1)
                     = Some (VBlock (NewBlock (Some [byteOf i])))).
    { assert (Hi' : (inserts ++ testInserts num) !! (length inserts + Z.to_nat i)%nat
                    = Some ("key" +:+ Sprint i, Some [byteOf i])).
      { rewrite lookup_app_r by (unfold slice; lia).
        rewrite <- Hith. f_equal. unfold slice. lia. }
      specialize (Hnum _ _ Hi'). cbn [snd] in Hnum.
      replace (Z.of_nat (length inserts + Z.to_nat i) + 1)
        with (Z.of_nat (length inserts) + i + 1) in Hnum by lia.
      exact Hnum. }
    split.
    + specialize (Hcont _ (testKey_ordinary i)).
      rewrite (contents_app_lookup inserts (testInserts num) _ (Some [byteOf i])) in Hcont.
      * destruct Hcont as (m & Hk & Hm).
        unfold GetBlock, bind, dbGet, lift. rewrite Hk. cbn [encode]. unfold Itoa.
        fold (Sprint m). now rewrite Hm.
      * unfold testInserts. rewrite <- list_fmap_compose.
        apply NoDup_fmap_2_strong; [| apply NoDup_seqZ].
        intros x y _ _ Hxy. cbn in Hxy. now apply testKey_inj.
      * now apply list_elem_of_lookup_2 in Hith.
    + now apply GetBlockByNumber_block.
Qed.

Lemma createTestBlocks_blocks_witness :
  let addBlock := Legacy.AddBlock in
  let inserts : list (string * slice) := [("a", None)] in
  let num := 5 in
  let db := run (insertAllOf addBlock inserts) fresh in
  let db' := run (createTestBlocks addBlock num) db in
  let count := Z.of_nat (length inserts) in
  fst (createTestBlocks addBlock num db) = Ok tt /\
  BlockCount <$> storedInfo db' = Some (count + Z.max 0 num) /\
  forall i, 0 <= i < num ->
    let block := {| Data := Some [byteOf i]; Hash := Some (sha256 [byteOf i]) |} in
    GetBlock ("key" +:+ Sprint i) db' = (Ok block, db') /\
    GetBlockByNumber (count + i + 1) db' = (Ok block, db').
Proof.
  apply (createTestBlocks_blocks Legacy.AddBlock [("a", None)] 5).
  - right. reflexivity.
  - apply Forall_cons_2; [exact ordinaryKey_a | apply Forall_nil_2].
Defined.

(** ** One insert of the earlier revision *)

(** X23.  On a well-formed store, [AddBlock] of the earlier revision under
    an ordinary key returns without error and keeps the store well-formed;
    [GetBlock] of the key returns the data with its SHA-256, and so does
    [GetBlockByNumber] of the next block number; block count and dimension
    are those of one block more; the blocks up to the old block count are as
    before; and the cells that a growth adds beyond the new block hold the
    zero block, with nil data and nil hash. *)
Theorem Legacy_AddBlock_round_trip key data db info :
  wellFormed db -> ordinaryKey key -> storedInfo db = Some info ->
  let db' := run (Legacy.AddBlock key data) db in
  let blockNum := BlockCount info + 1 in
  fst (Legacy.AddBlock key data db) = Ok tt /\
  wellFormed db' /\
  GetBlock key db' = (Ok {| Data := data; Hash := Some (sha256 (content data)) |}, db') /\
  GetBlockByNumber blockNum db' = GetBlock key db' /\
  BlockCount <$> storedInfo db' = Some blockNum /\
  Info.Size <$> storedInfo db' = Some (Size blockNum) /\
  (forall n, 1 <= n <= BlockCount info -> db' !! Sprint n = db !! Sprint n) /\
  (forall n, blockNum < n <= Size blockNum * Size blockNum - Size blockNum ->
     db' !! Sprint n =
     if grows info then Some (VBlock {| Data := None; Hash := None |}) else db !! Sprint n).
Proof.
  intros Hwf Hkey Hinfo. apply storedInfo_Some in Hinfo. cbv zeta.
  destruct (Legacy_AddBlock_run key data db info Hwf Hkey Hinfo)
    as (hr & hc & Hrow & Hcol & Hrl & Hcl & Hrun).
  destruct Hwf as (info0 & Hinfo0 & Hbc & Hleast & Hrows & Hcols & Hblocks).
  rewrite Hinfo in Hinfo0. injection Hinfo0 as <-.
  pose proof (infoBeforeDigests_dimension info Hbc Hleast) as (Hc & Hs & _).
  pose proof (grows_at_capacity info Hbc Hleast) as Hg. cbv zeta in Hg.
  unfold run. rewrite Hrun. cbn [fst snd].
  set (blockNum := BlockCount info + 1) in *.
  set (db1 := storeBeforeDigests earlier key data info db) in *.
  set (info' := setCols _ _) in *.
  assert (Hnum : forall n, <["info" := VInfo info']> db1 !! Sprint n =
            if decide (n = blockNum) then Some (VBlock (NewBlock data))
            else if grows info && bool_decide (blockNum <= n <= BlockCount info + 2 * Info.Size info)
                 then Some (VBlock {| Data := None; Hash := None |})
                 else db !! Sprint n).
  { intros n.
    rewrite lookup_insert_ne by (intros H; symmetry in H; now apply Sprint_ne_info in H).
    unfold db1, storeBeforeDigests, Itoa. fold blockNum. fold (Sprint blockNum).
    destruct (decide (n = blockNum)) as [-> | Hne]; [apply lookup_insert_eq |].
    rewrite lookup_insert_ne by (intros H; apply Hne; symmetry; now apply Sprint_inj).
    rewrite lookup_insert_ne by apply Hkey.
    destruct (grows info); cbn [andb]; [| reflexivity].
    rewrite putAll_lookup. cbn [filler earlier].
    destruct (decide (n ∈ seqZ blockNum (2 * Info.Size info))) as [Hin | Hnin];
      rewrite elem_of_seqZ in *.
    - rewrite bool_decide_eq_true_2 by lia. reflexivity.
    - rewrite bool_decide_eq_false_2 by lia. reflexivity. }
  assert (Hkeyrec : <["info" := VInfo info']> db1 !! key = Some (VNum blockNum)).
  { destruct Hkey as [Hki Hkn]. rewrite lookup_insert_ne by congruence.
    unfold db1, storeBeforeDigests, Itoa. fold blockNum.
    rewrite lookup_insert_ne by (intros H; now apply (Hkn blockNum)).
    apply lookup_insert_eq. }
  assert (Hget : GetBlock key (<["info" := VInfo info']> db1)
                 = (Ok (NewBlock data), <["info" := VInfo info']> db1)).
  { unfold GetBlock, bind, dbGet, lift. rewrite Hkeyrec. cbn [encode]. unfold Itoa.
    fold (Sprint blockNum). rewrite Hnum. now rewrite decide_True. }
  split; [reflexivity | split; [| split; [exact Hget | split; [| split; [| split; [| split]]]]]].
  - exists info'.
    assert (H1 : 1 <= blockNum) by (unfold blockNum; lia).
    refine (conj (lookup_insert_eq _ _ _) (conj _ (conj _ (conj _ (conj _ _))))).
    + unfold info'. cbn [BlockCount setRows setCols]. lia.
    + unfold info'. cbn [BlockCount Info.Size setRows setCols]. rewrite Hc, Hs.
      now apply Size_least.
    + unfold info'. cbn [Info.Size Rows setRows setCols]. now rewrite length_insert, Hs.
    + unfold info'. cbn [Info.Size Cols setRows setCols]. now rewrite length_insert, Hs.
    + unfold info'. cbn [Info.Size setRows setCols]. rewrite Hs. intros n Hn.
      rewrite Hnum. destruct (decide (n = blockNum)); [eauto |].
      destruct (grows info); cbn [andb].
      * destruct Hg as [Hcap Hsize].
        destruct (bool_decide _) eqn:Hb; [eauto |].
        apply bool_decide_eq_false in Hb. apply Hblocks. fold blockNum in Hsize. nia.
      * destruct Hg as [Hcap Hsize]. apply Hblocks. fold blockNum in Hsize. lia.
  - rewrite Hget. apply GetBlockByNumber_block. rewrite Hnum. now rewrite decide_True.
  - unfold storedInfo. rewrite lookup_insert_eq. cbn. now rewrite <- Hc.
  - unfold storedInfo. rewrite lookup_insert_eq. cbn. now rewrite <- Hs.
  - intros n Hn. rewrite Hnum. rewrite decide_False by (unfold blockNum; lia).
    destruct (grows info); cbn [andb]; [| reflexivity].
    now rewrite bool_decide_eq_false_2 by (unfold blockNum; lia).
  - intros n Hn. rewrite Hnum. rewrite decide_False by lia.
    destruct (grows info); cbn [andb]; [| reflexivity].
    destruct Hg as [Hcap Hsize]. fold blockNum in Hsize.
    rewrite bool_decide_eq_true_2 by nia. reflexivity.
Qed.

Lemma Legacy_AddBlock_round_trip_witness :
  let key := "a" in
  let data := Some ["007"%byte] in
  let db := fresh in
  let info := {| Info.Size := 1; Info.BlockCount := 0;
                 Info.Rows := [None]; Info.Cols := [None] |} in
  let db' := run (Legacy.AddBlock key data) db in
  let blockNum := BlockCount info + 1 in
  fst (Legacy.AddBlock key data db) = Ok tt /\
  wellFormed db' /\
  GetBlock key db' = (Ok {| Data := data; Hash := Some (sha256 (content data)) |}, db') /\
  GetBlockByNumber blockNum db' = GetBlock key db' /\
  BlockCount <$> storedInfo db' = Some blockNum /\
  Info.Size <$> storedInfo db' = Some (Size blockNum) /\
  (forall n, 1 <= n <= BlockCount info -> db' !! Sprint n = db !! Sprint n) /\
  (forall n, blockNum < n <= Size blockNum * Size blockNum - Size blockNum ->
     db' !! Sprint n =
     if grows info then Some (VBlock {| Data := None; Hash := None |}) else db !! Sprint n).
Proof.
  apply (Legacy_AddBlock_round_trip "a" (Some ["007"%byte]) fresh).
  - apply wellFormed_fresh.
  - apply ordinaryKey_a.
  - reflexivity.
Defined.

(** ** Lookups after a sequence of inserts of the earlier revision *)

(** What the lookups return on a store that tracks a sequence of inserts. *)
Lemma tracksOf_lookups fill inserts db :
  tracksOf fill inserts db ->
  let count := Z.of_nat (length inserts) in
  let size := if count =? 0 then 1 else Size count in
  BlockCount <$> storedInfo db = Some count /\
  Info.Size <$> storedInfo db = Some size /\
  (forall key, ordinaryKey key ->
     GetBlock key db =
     (match contents inserts !! key with
      | Some data => Ok (NewBlock data)
      | None => Err ErrNotFound
      end, db)) /\
  (forall (i : nat) kd, inserts !! i = Some kd ->
     GetBlockByNumber (Z.of_nat i + 1) db = (Ok (NewBlock (snd kd)), db)) /\
  (forall n, count < n <= size * size - size ->
     GetBlockByNumber n db = (Ok fill, db)) /\
  (forall n, n < 1 \/ size * size - size < n ->
     GetBlockByNumber n db = (Err ErrNotFound, db)).
Proof.
  intros (Hsh & (info & Hinfo & Hcount) & Hnum & Hcont). cbv zeta.
  destruct Hsh as (info0 & Hinfo0 & Hbc & Hleast & _ & _ & _ & Hnew & Hout & _).
  rewrite Hinfo in Hinfo0. injection Hinfo0 as <-.
  assert (Hsize : Info.Size info =
                  if Z.of_nat (length inserts) =? 0 then 1
                  else Size (Z.of_nat (length inserts))).
  { rewrite <- Hcount. destruct (Z.eqb_spec (BlockCount info) 0) as [H0 | H0].
    - rewrite H0 in Hleast.
      apply (leastDimension_unique 0); [exact Hleast | apply leastDimension_0].
    - apply (leastDimension_unique (BlockCount info)); [exact Hleast |].
      apply Size_least. lia. }
  rewrite <- Hsize, <- Hcount.
  split; [| split; [| split; [| split; [| split]]]].
  - unfold storedInfo. now rewrite Hinfo.
  - unfold storedInfo. now rewrite Hinfo.
  - intros key Hord. specialize (Hcont key Hord).
    unfold GetBlock, bind, dbGet, lift.
    destruct (contents inserts !! key) as [d |].
    + destruct Hcont as (m & -> & Hm). cbn [encode]. unfold Itoa.
      fold (Sprint m). now rewrite Hm.
    + now rewrite Hcont.
  - intros i kd Hi. apply GetBlockByNumber_block. now apply Hnum.
  - intros n Hn. apply GetBlockByNumber_block. now apply Hnew.
  - intros n Hn. apply GetBlockByNumber_absent. now apply Hout.
Qed.

(** X24.  After [New] on an empty store and any sequence of inserts of the
    earlier revision under ordinary keys, every insert has returned without
    error; the block count is the number of inserts and the dimension 1 for
    no insert and [Size] of their number otherwise; [GetBlock] returns the
    block with the data last inserted under the key and its SHA-256, and
    not-found for a key never inserted; [GetBlockByNumber] returns the block
    of the i-th insert for the number i, the zero block, with nil data and
    nil hash, for the numbers above the block count up to the capacity, and
    not-found for every other number. *)
Theorem Legacy_lookups_after_inserts inserts :
  Forall (fun kd => ordinaryKey (fst kd)) inserts ->
  let db := run (insertAllOf Legacy.AddBlock inserts) fresh in
  let count := Z.of_nat (length inserts) in
  let size := if count =? 0 then 1 else Size count in
  fst (insertAllOf Legacy.AddBlock inserts fresh) = Ok tt /\
  BlockCount <$> storedInfo db = Some count /\
  Info.Size <$> storedInfo db = Some size /\
  (forall key, ordinaryKey key ->
     GetBlock key db =
     (match contents inserts !! key with
      | Some data => Ok {| Data := data; Hash := Some (sha256 (content data)) |}
      | None => Err ErrNotFound
      end, db)) /\
  (forall (i : nat) kd, inserts !! i = Some kd ->
     GetBlockByNumber (Z.of_nat i + 1) db
     = (Ok {| Data := snd kd; Hash := Some (sha256 (content (snd kd))) |}, db)) /\
  (forall n, count < n <= size * size - size ->
     GetBlockByNumber n db = (Ok {| Data := None; Hash := None |}, db)) /\
  (forall n, n < 1 \/ size * size - size < n ->
     GetBlockByNumber n db = (Err ErrNotFound, db)).
Proof.
  intros Hkeys. cbv zeta.
  destruct (insertAllOf_tracks earlier earlier_runs inserts Hkeys) as [Hok Htr].
  split; [exact Hok |].
  exact (tracksOf_lookups _ inserts _ Htr).
Qed.

Lemma Legacy_lookups_after_inserts_witness :
  let inserts := [("a", Some ["001"%byte]); ("b", None); ("a", Some ["002"%byte])] in
  let db := run (insertAllOf Legacy.AddBlock inserts) fresh in
  let count := Z.of_nat (length inserts) in
  let size := if count =? 0 then 1 else Size count in
  fst (insertAllOf Legacy.AddBlock inserts fresh) = Ok tt /\
  BlockCount <$> storedInfo db = Some count /\
  Info.Size <$> storedInfo db = Some size /\
  (forall key, ordinaryKey key ->
     GetBlock key db =
     (match contents inserts !! key with
      | Some data => Ok {| Data := data; Hash := Some (sha256 (content data)) |}
      | None => Err ErrNotFound
      end, db)) /\
  (forall (i : nat) kd, inserts !! i = Some kd ->
     GetBlockByNumber (Z.of_nat i + 1) db
     = (Ok {| Data := snd kd; Hash := Some (sha256 (content (snd kd))) |}, db)) /\
  (forall n, count < n <= size * size - size ->
     GetBlockByNumber n db = (Ok {| Data := None; Hash := None |}, db)) /\
  (forall n, n < 1 \/ size * size - size < n ->
     GetBlockByNumber n db = (Err ErrNotFound, db)).
Proof.
  apply (Legacy_lookups_after_inserts
           [("a", Some ["001"%byte]); ("b", None); ("a", Some ["002"%byte])]).
  apply Forall_cons_2; [exact ordinaryKey_a |].
  apply Forall_cons_2; [exact ordinaryKey_b |].
  apply Forall_cons_2; [exact ordinaryKey_a | apply Forall_nil_2].
Defined.

(** ** The tests share one store *)

Lemma Size_at_least_4 blockCount : 7 <= blockCount -> 4 <= Size blockCount.
Proof.
  intros Hbc. destruct (Size_least blockCount ltac:(lia)) as (H1 & Hfit & _). nia.
Qed.

Lemma lists_of_a_small_grid k :
  0 <= k ->
  (rowBlockNumbers 2 (k + 5) = [4; 6] <-> k <= 1) /\
  (columnBlockNumbers 1 (k + 5) = [1; 6] <-> k <= 1).
Proof.
  intros Hk. split; split.
  - intros Heq. destruct (Z_le_gt_dec k 1) as [Hle | Hgt]; [exact Hle | exfalso].
    pose proof (Size_at_least_4 (k + 5) ltac:(lia)) as Hs.
    apply (f_equal (@length Z)) in Heq.
    rewrite rowBlockNumbers_blockAt, length_map, length_app, !length_seqZ in Heq.
    cbn [length] in Heq. lia.
  - intros Hle. assert (k = 0 \/ k = 1) as [-> | ->] by lia; reflexivity.
  - intros Heq. destruct (Z_le_gt_dec k 1) as [Hle | Hgt]; [exact Hle | exfalso].
    pose proof (Size_at_least_4 (k + 5) ltac:(lia)) as Hs.
    apply (f_equal (@length Z)) in Heq.
    rewrite columnBlockNumbers_blockAt, length_map, length_app, !length_seqZ in Heq.
    cbn [length] in Heq. lia.
  - intros Hle. assert (k = 0 \/ k = 1) as [-> | ->] by lia; reflexivity.
Qed.

Lemma testInserts_ordinary num :
  Forall (fun kd => ordinaryKey (fst kd)) (testInserts num).
Proof.
  unfold testInserts. apply Forall_fmap, Forall_forall. intros i _. apply testKey_ordinary.
Qed.

(** X25.  The lists that [RowBlockNumbers] and [ColumnBlockNumbers] of the
    earlier revision return depend on every block in the store.  On a store
    that held [k] blocks before [createTestBlocks 5], they are the lists at
    the block count [k + 5], and the values that the tests expect first,
    [[4, 6]] for row 2 and [[1, 6]] for column 1, are returned only when
    [k] is at most 1; so they are not for the second of the two tests, which
    runs on the store that the first has filled with 25 blocks. *)
Theorem test_expectations_need_a_fresh_store inserts :
  Forall (fun kd => ordinaryKey (fst kd)) inserts ->
  let db := run (insertAllOf Legacy.AddBlock inserts) fresh in
  let db' := run (createTestBlocks Legacy.AddBlock 5) db in
  let k := Z.of_nat (length inserts) in
  Legacy.RowBlockNumbers 2 db' = (Ok (rowBlockNumbers 2 (k + 5)), db') /\
  Legacy.ColumnBlockNumbers 1 db' = (Ok (columnBlockNumbers 1 (k + 5)), db') /\
  (rowBlockNumbers 2 (k + 5) = [4; 6] <-> k <= 1) /\
  (columnBlockNumbers 1 (k + 5) = [1; 6] <-> k <= 1).
Proof.
  intros Hkeys. cbv zeta. unfold run. rewrite createTestBlocks_insertAllOf.
  destruct (insertAllOf_tracks earlier earlier_runs inserts Hkeys) as [_ Htr].
  destruct (insertAllOf_tracks_from earlier earlier_runs inserts (testInserts 5) _ Htr
              (testInserts_ordinary 5))
    as (_ & _ & (info & Hinfo & Hcount) & _).
  unfold run in *.
  assert (Hc : BlockCount info = Z.of_nat (length inserts) + 5).
  { rewrite Hcount, length_app. unfold testInserts. rewrite length_map, length_seqZ. lia. }
  rewrite <- Hc.
  split; [now apply Legacy_RowBlockNumbers_stored | split;
          [now apply Legacy_ColumnBlockNumbers_stored |]].
  rewrite Hc. apply lists_of_a_small_grid. lia.
Qed.

Lemma test_expectations_need_a_fresh_store_witness :
  let inserts := testInserts 5 ++ testInserts 20 in
  let db := run (insertAllOf Legacy.AddBlock inserts) fresh in
  let db' := run (createTestBlocks Legacy.AddBlock 5) db in
  let k := Z.of_nat (length inserts) in
  Legacy.RowBlockNumbers 2 db' = (Ok (rowBlockNumbers 2 (k + 5)), db') /\
  Legacy.ColumnBlockNumbers 1 db' = (Ok (columnBlockNumbers 1 (k + 5)), db') /\
  (rowBlockNumbers 2 (k + 5) = [4; 6] <-> k <= 1) /\
  (columnBlockNumbers 1 (k + 5) = [1; 6] <-> k <= 1).
Proof.
  apply (test_expectations_need_a_fresh_store (testInserts 5 ++ testInserts 20)).
  apply Forall_app. split; apply testInserts_ordinary.
Defined.

(** ** The table that PrintBlockMatrixData fills *)

Lemma appendEach_Ok {A B} (f : A -> result B) (g : A -> B) l :
  (forall x, x ∈ l -> f x = Ok (g x)) -> appendEach f l = Ok (map g l).
Proof.
  intros Hf. unfold appendEach.
  enough (Hacc : forall acc,
             foldl (fun acc x =>
                      match acc with
                      | Ok ys => match f x with
                                 | Ok y => Ok (ys ++ [y])
                                 | Err e => Err e
                                 | Panic => Panic
                                 end
                      | _ => acc
                      end) (Ok acc) l = Ok (acc ++ map g l)) by apply (Hacc []).
  induction l as [| x l IH]; intros acc.
  - cbn. now rewrite app_nil_r.
  - cbn [foldl map]. rewrite (Hf x ltac:(left)).
    rewrite IH by (intros y Hy; apply Hf; now right).
    now rewrite <- app_assoc.
Qed.

Lemma dataAt_cell matrix i j b :
  cell matrix i j = Some (Some b) -> dataAt matrix i j = Ok (Data b).
Proof.
  unfold cell, dataAt. destruct ((0 <=? i) && (0 <=? j)); [| discriminate].
  destruct (matrix !! Z.to_nat i) as [row |]; [| discriminate]. cbn.
  now intros ->.
Qed.

Lemma tableRows_full d matrix :
  square d matrix ->
  (forall i j, 0 <= i < d -> 0 <= j < d -> i <> j ->
     exists b, cell matrix i j = Some (Some b)) ->
  tableRows matrix =
  Ok (map (fun i => map (cellText matrix i) (seqZ 0 d)) (seqZ 0 d)).
Proof.
  intros [Hlen _] Hfull. unfold tableRows. rewrite Hlen.
  apply appendEach_Ok. intros i Hi. apply elem_of_seqZ in Hi.
  apply appendEach_Ok. intros j Hj. apply elem_of_seqZ in Hj.
  unfold cellText. destruct (Z.eqb_spec i j) as [| Hne]; [reflexivity |].
  destruct (Hfull i j ltac:(lia) ltac:(lia) Hne) as [b Hb].
  now rewrite Hb, (dataAt_cell _ _ _ _ Hb).
Qed.

Lemma PrintBlockMatrixData_on_wellFormed db info :
  wellFormed db -> storedInfo db = Some info ->
  let d := Size (BlockCount info) in
  exists rows,
    PrintBlockMatrixData db = (Ok rows, db) /\
    Legacy.PrintBlockMatrixData db = (Ok rows, db) /\
    Z.of_nat (length rows) = d /\
    forall i j, 0 <= i < d -> 0 <= j < d ->
      exists text,
        (rows !! Z.to_nat i) ≫= (fun row => row !! Z.to_nat j) = Some text /\
        if decide (i = j) then text = "."
        else exists b, GetBlockByNumber (blockAt (i, j)) db = (Ok b, db) /\
                       text = SprintBytes (Data b).
Proof.
  intros Hwf Hinfo.
  destruct (Matrix_on_wellFormed db info Hwf Hinfo)
    as (matrix & Hrun & Hrun' & Hsq & Hcells & _).
  cbv zeta in *. set (d := Size (BlockCount info)) in *.
  assert (Hget : GetBlockMatrixInfo db = (Ok info, db)).
  { apply storedInfo_Some in Hinfo.
    rewrite (GetBlockMatrixInfo_stored db _ Hinfo). reflexivity. }
  assert (Hd : 0 <= d) by (destruct Hsq as [<- _]; lia).
  assert (Hfull : forall i j, 0 <= i < d -> 0 <= j < d -> i <> j ->
            exists b, cell matrix i j = Some (Some b) /\
                      GetBlockByNumber (blockAt (i, j)) db = (Ok b, db)).
  { intros i j Hi Hj Hne.
    destruct (Hcells (blockAt (i, j))) as (b & Hb & Hgot).
    - apply blockAt_range. unfold offDiagonal. cbn. lia.
    - rewrite locateBlock_blockAt in Hb by lia. exists b. split; assumption. }
  exists (map (fun i => map (cellText matrix i) (seqZ 0 d)) (seqZ 0 d)).
  assert (Hrows : tableRows matrix =
                  Ok (map (fun i => map (cellText matrix i) (seqZ 0 d)) (seqZ 0 d))).
  { apply tableRows_full; [exact Hsq |].
    intros i j Hi Hj Hne. destruct (Hfull i j Hi Hj Hne) as (b & Hb & _). eauto. }
  split; [| split; [| split]].
  - unfold PrintBlockMatrixData. rewrite (bind_Ok _ _ _ _ _ Hrun).
    rewrite (bind_Ok _ _ _ _ _ Hget). unfold lift. now rewrite Hrows.
  - unfold Legacy.PrintBlockMatrixData, Legacy.GetBlockmatrixInfo.
    rewrite (bind_Ok _ _ _ _ _ Hrun'). rewrite (bind_Ok _ _ _ _ _ Hget).
    unfold lift. now rewrite Hrows.
  - rewrite length_map, length_seqZ. lia.
  - intros i j Hi Hj. exists (cellText matrix i j). split.
    + rewrite list_lookup_fmap, (lookup_seqZ_lt 0 d (Z.to_nat i)) by lia. cbn.
      rewrite list_lookup_fmap, (lookup_seqZ_lt 0 d (Z.to_nat j)) by lia. cbn.
      f_equal. f_equal; lia.
    + unfold cellText. destruct (decide (i = j)) as [-> | Hne].
      * now rewrite Z.eqb_refl.
      * destruct (Z.eqb_spec i j) as [| _]; [contradiction |].
        destruct (Hfull i j Hi Hj Hne) as (b & Hb & Hgot).
        exists b. rewrite Hb. split; [exact Hgot | reflexivity].
Qed.

(** X26.  On a well-formed store [PrintBlockMatrixData], in either
    revision, returns without error, without a nil dereference and without
    writing.  The table has [Size blockCount] rows of as many cells; a cell of
    the diagonal holds ["."], and the cell in row [i] and column [j] off the
    diagonal holds the text of the data of the block whose number is the one
    placed at [(i, j)]. *)
Theorem PrintBlockMatrixData_table db info :
  wellFormed db -> storedInfo db = Some info ->
  let d := Size (BlockCount info) in
  exists rows,
    PrintBlockMatrixData db = (Ok rows, db) /\
    Legacy.PrintBlockMatrixData db = (Ok rows, db) /\
    Z.of_nat (length rows) = d /\
    forall i j, 0 <= i < d -> 0 <= j < d ->
      exists text,
        (rows !! Z.to_nat i) ≫= (fun row => row !! Z.to_nat j) = Some text /\
        if decide (i = j) then text = "."
        else exists b, GetBlockByNumber (blockAt (i, j)) db = (Ok b, db) /\
                       text = SprintBytes (Data b).
Proof. exact (PrintBlockMatrixData_on_wellFormed db info). Qed.

Lemma PrintBlockMatrixData_table_witness :
  let db := run (AddBlock "b" None) (run (AddBlock "a" (Some ["007"%byte])) fresh) in
  let info := default {| Info.Size := 0; Info.BlockCount := 0;
                         Info.Rows := []; Info.Cols := [] |} (storedInfo db) in
  let d := Size (BlockCount info) in
  exists rows,
    PrintBlockMatrixData db = (Ok rows, db) /\
    Legacy.PrintBlockMatrixData db = (Ok rows, db) /\
    Z.of_nat (length rows) = d /\
    forall i j, 0 <= i < d -> 0 <= j < d ->
      exists text,
        (rows !! Z.to_nat i) ≫= (fun row => row !! Z.to_nat j) = Some text /\
        if decide (i = j) then text = "."
        else exists b, GetBlockByNumber (blockAt (i, j)) db = (Ok b, db) /\
                       text = SprintBytes (Data b).
Proof.
  apply (PrintBlockMatrixData_table
           (run (AddBlock "b" None) (run (AddBlock "a" (Some ["007"%byte])) fresh))).
  - apply shaped_wellFormed, AddBlock_shaped; [| apply ordinaryKey_b].
    apply AddBlock_shaped; [apply shaped_fresh | apply ordinaryKey_a].
  - vm_compute. reflexivity.
Defined.

(** X27.  After [New] on an empty store and any sequence of inserts under
    ordinary keys, in either revision, [PrintBlockMatrixData] returns without
    error and leaves the store as it is.  In its table the cell that
    [locateBlock] gives for the number [n] holds the text of the data of the
    [n]-th insert; a cell beyond the block count holds the text of the block
    that growth put there, ["[0]"] in the later revision and ["[]"] in the
    earlier one; a cell of the diagonal holds ["."]. *)
Theorem PrintBlockMatrixData_after_inserts addBlock print blank inserts :
  (addBlock = AddBlock /\ print = PrintBlockMatrixData /\ blank = "[0]") \/
  (addBlock = Legacy.AddBlock /\ print = Legacy.PrintBlockMatrixData /\ blank = "[]") ->
  Forall (fun kd => ordinaryKey (fst kd)) inserts ->
  let db := run (insertAllOf addBlock inserts) fresh in
  let d := Size (Z.of_nat (length inserts)) in
  exists rows,
    print db = (Ok rows, db) /\
    Z.of_nat (length rows) = d /\
    (forall n, 1 <= n <= d * d - d ->
       (rows !! Z.to_nat (fst (locateBlock n)))
         ≫= (fun row => row !! Z.to_nat (snd (locateBlock n))) =
       Some (match inserts !! Z.to_nat (n - 1) with
             | Some kd => SprintBytes (snd kd)
             | None => blank
             end)) /\
    (forall i, 0 <= i < d ->
       (rows !! Z.to_nat i) ≫= (fun row => row !! Z.to_nat i) = Some ".").
Proof.
  intros Hrev Hkeys.
  assert (Hr : exists rev, insertsRun rev /\ addBlock = AddBlockOf rev /\
                 blank = SprintBytes (Data (filler rev)) /\
                 (print = PrintBlockMatrixData \/ print = Legacy.PrintBlockMatrixData)).
  { destruct Hrev as [(-> & -> & ->) | (-> & -> & ->)].
    - exists later. split; [apply later_runs | split; [reflexivity | split; [reflexivity |]]].
      now left.
    - exists earlier. split; [apply earlier_runs | split; [reflexivity | split; [reflexivity |]]].
      now right. }
  destruct Hr as (rev & Hruns & -> & -> & Hprint).
  destruct (insertAllOf_tracks rev Hruns inserts Hkeys) as [_ Htr].
  cbv zeta. set (db := run (insertAllOf (AddBlockOf rev) inserts) fresh) in *.
  destruct Htr as (Hshaped & (info & Hinfo & Hcount) & Hnth & _).
  pose proof (shapedOf_wellFormed _ _ Hshaped) as Hwf.
  destruct Hshaped as (info' & Hinfo' & Hbc & Hleast & _ & _ & _ & Hnew & _).
  rewrite Hinfo in Hinfo'. injection Hinfo' as <-.
  destruct (PrintBlockMatrixData_on_wellFormed db info Hwf
              (proj2 (storedInfo_Some db info) Hinfo))
    as (rows & Hrun & Hrun' & Hlen & Hcells).
  cbv zeta in *. rewrite Hcount in *. set (d := Size (Z.of_nat (length inserts))) in *.
  assert (Hd : 0 <= d /\ Info.Size info * Info.Size info - Info.Size info = d * d - d).
  { unfold d. destruct (decide (Z.of_nat (length inserts) = 0)) as [H0 | H0].
    - rewrite H0 in *. rewrite (leastDimension_unique 0 _ 1 Hleast leastDimension_0).
      split; [discriminate | reflexivity].
    - rewrite (leastDimension_unique _ _ _ Hleast
                 (Size_least (Z.of_nat (length inserts)) ltac:(lia))).
      destruct (Size_least (Z.of_nat (length inserts)) ltac:(lia)) as (H1 & _).
      split; [lia | reflexivity]. }
  destruct Hd as [Hd Hcap].
  exists rows. split; [| split; [exact Hlen | split]].
  - destruct Hprint as [-> | ->]; assumption.
  - intros n Hn.
    destruct (locateBlock_range d n Hn Hd) as (Hi & Hj & Hne).
    destruct (Hcells _ _ Hi Hj) as (text & Htext & Hwhich).
    destruct (decide (fst (locateBlock n) = snd (locateBlock n))) as [| _];
      [contradiction |].
    destruct Hwhich as (b & Hb & ->). rewrite Htext. f_equal.
    rewrite <- surjective_pairing, blockAt_locateBlock in Hb by lia.
    destruct (inserts !! Z.to_nat (n - 1)) as [kd |] eqn:Hkd.
    + pose proof (Hnth _ _ Hkd) as Hrec.
      replace (Z.of_nat (Z.to_nat (n - 1)) + 1) with n in Hrec by lia.
      rewrite (GetBlockByNumber_block _ _ _ Hrec) in Hb. injection Hb as <-. reflexivity.
    + apply lookup_ge_None in Hkd.
      assert (Hrec : db !! Sprint n = Some (VBlock (filler rev))) by (apply Hnew; lia).
      rewrite (GetBlockByNumber_block _ _ _ Hrec) in Hb. injection Hb as <-. reflexivity.
  - intros i Hi. destruct (Hcells i i Hi Hi) as (text & Htext & Hwhich).
    destruct (decide (i = i)) as [_ |]; [| contradiction]. now rewrite Htext, Hwhich.
Qed.

Lemma PrintBlockMatrixData_after_inserts_witness :
  let inserts : list (string * slice) :=
    map (fun i => ("key" +:+ Sprint i, Some [byteOf i])) (seqZ 1 22) in
  let db := run (insertAllOf Legacy.AddBlock inserts) fresh in
  let d := Size (Z.of_nat (length inserts)) in
  exists rows,
    Legacy.PrintBlockMatrixData db = (Ok rows, db) /\
    Z.of_nat (length rows) = d /\
    (forall n, 1 <= n <= d * d - d ->
       (rows !! Z.to_nat (fst (locateBlock n)))
         ≫= (fun row => row !! Z.to_nat (snd (locateBlock n))) =
       Some (match inserts !! Z.to_nat (n - 1) with
             | Some kd => SprintBytes (snd kd)
             | None => "[]"
             end)) /\
    (forall i, 0 <= i < d ->
       (rows !! Z.to_nat i) ≫= (fun row => row !! Z.to_nat i) = Some ".").
Proof.
  apply (PrintBlockMatrixData_after_inserts Legacy.AddBlock Legacy.PrintBlockMatrixData "[]"
           (map (fun i => ("key" +:+ Sprint i, Some [byteOf i])) (seqZ 1 22))).
  - right. repeat split.
  - apply Forall_fmap, Forall_forall. intros i _. apply testKey_ordinary.
Defined.
